(** * NanoClaw agent runner: session control protocol

    A shallow embedding of [container/agent-runner/src/index.ts] and the
    properties of its session control protocol.

    Conventions of the embedding.
    - JavaScript strings are [string]s that hold the UTF-8 form of the text,
      the one in the files and on the streams, assumed well formed.  The
      UTF-16 code units that [length], [slice] and [sort] count and compare
      are recovered by decoding ([utf16_units]).  [undefined] is [None].
    - JSON values are parsed and printed by the functions of [Json]; a number
      keeps its numeral.  A field that an interface declares as a string is
      read as such ([field_string]).
    - The mailbox follows the protocol the header of the source states: the
      [text] of a message file is a string.  [consume_file] reads it as such,
      and the properties of the mailbox are stated for the inboxes that follow
      the protocol ([typed_inbox], [typed_env]).
    - The filesystem is a record of the directories the runner touches, each
      a finite map from file name to content; operations on regular files
      succeed, [unlinkSync] of a missing file throws.
    - The agent engine and the host are the environment: their behaviour is
      an explicit script ([Env]) that the run consumes.  A run whose script
      ends while the process is still waiting has status [StillRunning].
    - The events of a run are the calls [main] and [runQuery] make and await
      themselves, and the moments the mailbox is observed to hold the sentinel
      or gives up a message to be forwarded ([Event]).
    - An exception that leaves [main] is an unhandled rejection: Node ends
      the process with status 1.
    - Diagnostics written with [log] go to standard error and are not part of
      the state; an expression evaluated for a log line that can throw is
      kept. *)

From Stdlib Require Import Ascii String List Arith NArith ZArith Lia Bool.
From stdpp Require Import base option list gmap strings sorting.

#[local] Set Warnings "-register-all".
Local Open Scope stdpp_scope.
#[local] Arguments String.append : simpl nomatch.

(** ** Characters and text helpers *)

Definition dquote : ascii := "034"%char.
Definition backslash : ascii := "\"%char.
Definition newline : ascii := "010"%char.

Definition LF : string := String newline "".

(** Source text of a JSON document written with apostrophes for the double
    quotes, for readable examples. *)
Fixpoint json_text (s : string) : string :=
  match s with
  | EmptyString => EmptyString
  | String c r => String (if Ascii.eqb c "'" then dquote else c) (json_text r)
  end.

(** [Array.prototype.join]. *)
Fixpoint join (sep : string) (xs : list string) : string :=
  match xs with
  | [] => ""
  | [x] => x
  | x :: rest => x +:+ sep +:+ join sep rest
  end.

(** What follows the prefix [p] in [s], if [s] starts with [p]. *)
Fixpoint strip_prefix (p s : string) : option string :=
  match p, s with
  | EmptyString, _ => Some s
  | String a p', String b s' => if Ascii.eqb a b then strip_prefix p' s' else None
  | String _ _, EmptyString => None
  end.

(** [String.prototype.startsWith] and [String.prototype.endsWith]. *)
Definition startsWith (s p : string) : bool :=
  match strip_prefix p s with
  | Some _ => true
  | None => false
  end.

Definition endsWith (s suffix : string) : bool :=
  startsWith (String.rev s) (String.rev suffix).

(** [String.prototype.slice(0, n)]. *)
Fixpoint take_chars (n : nat) (s : string) : string :=
  match n, s with
  | S k, String c r => String c (take_chars k r)
  | _, _ => ""
  end.

(** ** JSON values *)

Module Json.

(** A JSON number keeps its numeral: the runner never computes with one. *)
Inductive json : Type :=
| JNull
| JBool (b : bool)
| JNumber (numeral : string)
| JString (s : string)
| JArray (items : list json)
| JObject (members : list (string * json)).

(** *** [JSON.stringify] *)

Definition hex_digit (n : N) : ascii :=
  ascii_of_N (if (n <? 10)%N then 48 + n else 87 + n)%N.

(** QuoteJSONString, one unit at a time: the quote, the backslash and the
    control characters are escaped, everything else is copied. *)
Definition escape_char (c : ascii) : string :=
  if Ascii.eqb c dquote then String backslash (String dquote "")
  else if Ascii.eqb c backslash then String backslash (String backslash "")
  else if Ascii.eqb c "008" then "\b"
  else if Ascii.eqb c "012" then "\f"
  else if Ascii.eqb c "010" then "\n"
  else if Ascii.eqb c "013" then "\r"
  else if Ascii.eqb c "009" then "\t"
  else if (N_of_ascii c <? 32)%N then
    "\u00" +:+ String (hex_digit (N_of_ascii c / 16))
                 (String (hex_digit (N_of_ascii c mod 16)) "")
  else String c "".

Fixpoint escape (s : string) : string :=
  match s with
  | EmptyString => ""
  | String c r => escape_char c +:+ escape r
  end.

Definition quote (s : string) : string :=
  String dquote (escape s +:+ String dquote "").

Fixpoint JSON_stringify (v : json) : string :=
  match v with
  | JNull => "null"
  | JBool true => "true"
  | JBool false => "false"
  | JNumber n => n
  | JString s => quote s
  | JArray items => "[" +:+ join "," (map JSON_stringify items) +:+ "]"
  | JObject members =>
      "{" +:+ join "," (map (fun m => quote m.1 +:+ ":" +:+ JSON_stringify m.2) members)
      +:+ "}"
  end.

(** *** [JSON.parse] *)

Definition is_ws (c : ascii) : bool :=
  Ascii.eqb c " " || Ascii.eqb c "009" || Ascii.eqb c "010" || Ascii.eqb c "013".

Fixpoint skip_ws (s : string) : string :=
  match s with
  | String c r => if is_ws c then skip_ws r else s
  | EmptyString => ""
  end.

Definition is_digit (c : ascii) : bool :=
  (48 <=? N_of_ascii c)%N && (N_of_ascii c <=? 57)%N.

Definition hex_val (c : ascii) : option N :=
  let n := N_of_ascii c in
  if (48 <=? n)%N && (n <=? 57)%N then Some (n - 48)%N
  else if (97 <=? n)%N && (n <=? 102)%N then Some (n - 87)%N
  else if (65 <=? n)%N && (n <=? 70)%N then Some (n - 55)%N
  else None.

Definition hex4 (a b c d : ascii) : option N :=
  match hex_val a, hex_val b, hex_val c, hex_val d with
  | Some x, Some y, Some z, Some w => Some (((x * 16 + y) * 16 + z) * 16 + w)%N
  | _, _, _, _ => None
  end.

(** The UTF-8 form of a code point.  A surrogate that stands alone, which
    UTF-8 does not hold, keeps the three bytes of its code unit. *)
Definition utf8_encode (cp : N) : string :=
  if (cp <? 128)%N then String (ascii_of_N cp) ""
  else if (cp <? 2048)%N then
    String (ascii_of_N (192 + cp / 64)) (String (ascii_of_N (128 + cp mod 64)) "")
  else if (cp <? 65536)%N then
    String (ascii_of_N (224 + cp / 4096))
      (String (ascii_of_N (128 + (cp / 64) mod 64))
         (String (ascii_of_N (128 + cp mod 64)) ""))
  else
    String (ascii_of_N (240 + cp / 262144))
      (String (ascii_of_N (128 + (cp / 4096) mod 64))
         (String (ascii_of_N (128 + (cp / 64) mod 64))
            (String (ascii_of_N (128 + cp mod 64)) ""))).

Definition is_high_surrogate (cu : N) : bool := (55296 <=? cu)%N && (cu <? 56320)%N.
Definition is_low_surrogate (cu : N) : bool := (56320 <=? cu)%N && (cu <? 57344)%N.

(** The code point of a surrogate pair. *)
Definition pair_code_point (hi lo : N) : N :=
  (65536 + (hi - 55296) * 1024 + (lo - 56320))%N.

(** The low surrogate whose escape a text starts with, if there is one. *)
Definition low_surrogate_escape (s : string) : option N :=
  match s with
  | String b (String u (String h1 (String h2 (String h3 (String h4 _))))) =>
      if Ascii.eqb b backslash && Ascii.eqb u "u" then
        match hex4 h1 h2 h3 h4 with
        | Some lo => if is_low_surrogate lo then Some lo else None
        | None => None
        end
      else None
  | _ => None
  end.

Definition unescape (e : ascii) : option ascii :=
  if Ascii.eqb e dquote then Some dquote
  else if Ascii.eqb e backslash then Some backslash
  else if Ascii.eqb e "/" then Some "/"%char
  else if Ascii.eqb e "b" then Some "008"%char
  else if Ascii.eqb e "f" then Some "012"%char
  else if Ascii.eqb e "n" then Some "010"%char
  else if Ascii.eqb e "r" then Some "013"%char
  else if Ascii.eqb e "t" then Some "009"%char
  else None.

(** The characters of a string literal after its opening quote, up to and
    including the closing quote; returns the decoded text and what follows. *)
Fixpoint parse_string_body (s : string) : option (string * string) :=
  match s with
  | EmptyString => None
  | String c r =>
      if Ascii.eqb c dquote then Some ("", r)
      else if Ascii.eqb c backslash then
        match r with
        | EmptyString => None
        | String e r1 =>
            if Ascii.eqb e "u" then
              match r1 with
              | String h1 (String h2 (String h3 (String h4 r2))) =>
                  match hex4 h1 h2 h3 h4 with
                  | Some cu =>
                      let single :=
                        match parse_string_body r2 with
                        | Some (t, rest) => Some (utf8_encode cu +:+ t, rest)
                        | None => None
                        end in
                      match r2 with
                      | String _ (String _ (String _ (String _ (String _ (String _ r3))))) =>
                          match (if is_high_surrogate cu then low_surrogate_escape r2
                                 else None) with
                          | Some lo =>
                              match parse_string_body r3 with
                              | Some (t, rest) =>
                                  Some (utf8_encode (pair_code_point cu lo) +:+ t, rest)
                              | None => None
                              end
                          | None => single
                          end
                      | _ => single
                      end
                  | None => None
                  end
              | _ => None
              end
            else
              match unescape e with
              | Some ch =>
                  match parse_string_body r1 with
                  | Some (t, rest) => Some (String ch t, rest)
                  | None => None
                  end
              | None => None
              end
        end
      else if (N_of_ascii c <? 32)%N then None
      else
        match parse_string_body r with
        | Some (t, rest) => Some (String c t, rest)
        | None => None
        end
  end.

Fixpoint span_digits (s : string) : string * string :=
  match s with
  | String c r =>
      if is_digit c then let '(d, rest) := span_digits r in (String c d, rest)
      else ("", s)
  | EmptyString => ("", "")
  end.

(** A numeral: an optional minus sign, an integer part without leading
    zero, an optional fraction and an optional exponent.  Each part is
    returned with the text that follows it. *)
Definition take_sign (s : string) : string * string :=
  match s with
  | String c r => if Ascii.eqb c "-" then ("-", r) else ("", s)
  | EmptyString => ("", s)
  end.

Definition take_int (s : string) : option (string * string) :=
  let '(int, rest) := span_digits s in
  match int with
  | EmptyString => None
  | String d ds =>
      if Ascii.eqb d "0" && negb (String.eqb ds "") then None else Some (int, rest)
  end.

Definition take_frac (s : string) : option (string * string) :=
  match s with
  | String c r =>
      if Ascii.eqb c "." then
        let '(fd, rest) := span_digits r in
        match fd with
        | EmptyString => None
        | String _ _ => Some ("." +:+ fd, rest)
        end
      else Some ("", s)
  | EmptyString => Some ("", s)
  end.

Definition take_exp (s : string) : option (string * string) :=
  match s with
  | String c r =>
      if Ascii.eqb c "e" || Ascii.eqb c "E" then
        let '(sg, r1) :=
          match r with
          | String c1 r' =>
              if Ascii.eqb c1 "+" || Ascii.eqb c1 "-" then (String c1 "", r') else ("", r)
          | EmptyString => ("", r)
          end in
        let '(ed, rest) := span_digits r1 in
        match ed with
        | EmptyString => None
        | String _ _ => Some (String c sg +:+ ed, rest)
        end
      else Some ("", s)
  | EmptyString => Some ("", s)
  end.

Definition parse_number (s : string) : option (string * string) :=
  let '(sign, s1) := take_sign s in
  match take_int s1 with
  | None => None
  | Some (int, s2) =>
      match take_frac s2 with
      | None => None
      | Some (f, s3) =>
          match take_exp s3 with
          | None => None
          | Some (e, s4) => Some (sign +:+ int +:+ f +:+ e, s4)
          end
      end
  end.

(** Recursive descent.  [fuel] bounds the nesting of calls; of two nested
    calls at least one consumes a character, so twice the length of the text
    is enough ([JSON_parse]). *)
Fixpoint parse_value (fuel : nat) (s : string) : option (json * string) :=
  match fuel with
  | O => None
  | S f =>
      match skip_ws s with
      | EmptyString => None
      | String c r =>
          if Ascii.eqb c "{" then
            match skip_ws r with
            | String c1 r1 =>
                if Ascii.eqb c1 "}" then Some (JObject [], r1)
                else
                  match parse_members f (String c1 r1) with
                  | Some (kvs, rest) => Some (JObject kvs, rest)
                  | None => None
                  end
            | EmptyString => None
            end
          else if Ascii.eqb c "[" then
            match skip_ws r with
            | String c1 r1 =>
                if Ascii.eqb c1 "]" then Some (JArray [], r1)
                else
                  match parse_elements f (String c1 r1) with
                  | Some (xs, rest) => Some (JArray xs, rest)
                  | None => None
                  end
            | EmptyString => None
            end
          else if Ascii.eqb c dquote then
            match parse_string_body r with
            | Some (t, rest) => Some (JString t, rest)
            | None => None
            end
          else if Ascii.eqb c "n" then
            match strip_prefix "ull" r with
            | Some rest => Some (JNull, rest)
            | None => None
            end
          else if Ascii.eqb c "t" then
            match strip_prefix "rue" r with
            | Some rest => Some (JBool true, rest)
            | None => None
            end
          else if Ascii.eqb c "f" then
            match strip_prefix "alse" r with
            | Some rest => Some (JBool false, rest)
            | None => None
            end
          else
            match parse_number (String c r) with
            | Some (n, rest) => Some (JNumber n, rest)
            | None => None
            end
      end
  end
with parse_members (fuel : nat) (s : string) : option (list (string * json) * string) :=
  match fuel with
  | O => None
  | S f =>
      match s with
      | String c r =>
          if Ascii.eqb c dquote then
            match parse_string_body r with
            | Some (k, r1) =>
                match skip_ws r1 with
                | String c1 r2 =>
                    if Ascii.eqb c1 ":" then
                      match parse_value f r2 with
                      | Some (v, r3) =>
                          match skip_ws r3 with
                          | String c2 r4 =>
                              if Ascii.eqb c2 "," then
                                match parse_members f (skip_ws r4) with
                                | Some (kvs, r5) => Some ((k, v) :: kvs, r5)
                                | None => None
                                end
                              else if Ascii.eqb c2 "}" then Some ([(k, v)], r4)
                              else None
                          | EmptyString => None
                          end
                      | None => None
                      end
                    else None
                | EmptyString => None
                end
            | None => None
            end
          else None
      | EmptyString => None
      end
  end
with parse_elements (fuel : nat) (s : string) : option (list json * string) :=
  match fuel with
  | O => None
  | S f =>
      match parse_value f s with
      | Some (v, r1) =>
          match skip_ws r1 with
          | String c r2 =>
              if Ascii.eqb c "," then
                match parse_elements f r2 with
                | Some (xs, r3) => Some (v :: xs, r3)
                | None => None
                end
              else if Ascii.eqb c "]" then Some ([v], r2)
              else None
          | EmptyString => None
          end
      | None => None
      end
  end.

End Json.

Import Json.

(** ** Code units *)

(** The process holds a text as a sequence of UTF-16 code units; [length],
    [slice] and the default order of [sort] count and compare these.  The
    model holds the UTF-8 form of the text, and recovers the code units by
    decoding it: one unit for a character of one, two or three bytes, a
    surrogate pair for a character of four.  The decoder is total: a byte
    that starts or continues no character gives U+FFFD. *)
Definition replacement_unit : N := 65533.

Definition units_of_code_point (cp : N) : list N :=
  if (cp <? 65536)%N then [cp]
  else [(55296 + (cp - 65536) / 1024)%N; (56320 + (cp - 65536) mod 1024)%N].

(** [need] bytes are still to come for the character whose bits so far are
    [acc]. *)
Fixpoint utf16_from (need : nat) (acc : N) (s : string) : list N :=
  match s with
  | EmptyString =>
      match need with
      | O => []
      | S _ => [replacement_unit]
      end
  | String c r =>
      let b := N_of_ascii c in
      let fresh :=
        if (b <? 128)%N then b :: utf16_from 0 0 r
        else if (b <? 192)%N then replacement_unit :: utf16_from 0 0 r
        else if (b <? 224)%N then utf16_from 1 (b - 192) r
        else if (b <? 240)%N then utf16_from 2 (b - 224) r
        else if (b <? 248)%N then utf16_from 3 (b - 240) r
        else replacement_unit :: utf16_from 0 0 r in
      match need with
      | O => fresh
      | S k =>
          if (128 <=? b)%N && (b <? 192)%N then
            match k with
            | O => units_of_code_point (acc * 64 + (b - 128)) ++ utf16_from 0 0 r
            | S _ => utf16_from k (acc * 64 + (b - 128)) r
            end
          else replacement_unit :: fresh
      end
  end.

Definition utf16_units (s : string) : list N := utf16_from 0 0 s.

(** [s.length]. *)
Definition js_length (s : string) : nat := length (utf16_units s).

(** The UTF-8 form of a sequence of code units, as the runtime writes it to a
    file: a surrogate pair is one character of four bytes, and a surrogate
    that stands alone is written as U+FFFD. *)
Fixpoint utf8_of_units (l : list N) : string :=
  match l with
  | [] => ""
  | cu :: rest =>
      if is_high_surrogate cu then
        match rest with
        | lo :: rest' =>
            if is_low_surrogate lo then
              utf8_encode (pair_code_point cu lo) +:+ utf8_of_units rest'
            else utf8_encode replacement_unit +:+ utf8_of_units rest
        | [] => utf8_encode replacement_unit
        end
      else if is_low_surrogate cu then utf8_encode replacement_unit +:+ utf8_of_units rest
      else utf8_encode cu +:+ utf8_of_units rest
  end.

(** [s.slice(0, n)], as it reaches a file. *)
Definition js_slice (n : nat) (s : string) : string :=
  utf8_of_units (take n (utf16_units s)).

(** The order of [<] on strings, which is the default order of
    [Array.prototype.sort]: code unit by code unit, a proper prefix first. *)
Fixpoint lex_leb (a b : list N) : bool :=
  match a, b with
  | [], _ => true
  | _ :: _, [] => false
  | x :: a', y :: b' =>
      if (x <? y)%N then true else if (y <? x)%N then false else lex_leb a' b'
  end.

Definition js_le (a b : string) : Prop := lex_leb (utf16_units a) (utf16_units b) = true.

#[local] Instance js_le_dec : RelDecision js_le :=
  fun a b => decide (lex_leb (utf16_units a) (utf16_units b) = true).

(** ** JavaScript values at run time *)

(** A completion: the value of an evaluation, or the message of the
    exception it threw. *)
Inductive completion (A : Type) : Type :=
| Normal (a : A)
| Throw (message : string).
Arguments Normal {A} a.
Arguments Throw {A} message.

(** How an awaited call to the engine settles. *)
Inductive settled (A : Type) : Type :=
| Resolved (a : A)
| Rejected (message : string).
Arguments Resolved {A} a.
Arguments Rejected {A} message.

(** [JSON.parse]: the whole text is one value between optional white space.
    The messages stand for the ones of the JavaScript engine. *)
Definition JSON_parse (s : string) : completion json :=
  match parse_value (S (2 * String.length s)) s with
  | Some (v, rest) =>
      match skip_ws rest with
      | EmptyString => Normal v
      | String _ _ => Throw "Unexpected non-whitespace character after JSON"
      end
  | None => Throw "Unexpected token in JSON"
  end.

(** Of two members with one key the later one wins. *)
Fixpoint lookup_member (k : string) (l : list (string * json)) : option json :=
  match l with
  | [] => None
  | (k', x) :: rest =>
      match lookup_member k rest with
      | Some y => Some y
      | None => if String.eqb k k' then Some x else None
      end
  end.

(** [v.k] for a value [v] other than [null]: [None] is [undefined]. *)
Definition get_prop (v : json) (k : string) : option json :=
  match v with
  | JObject members => lookup_member k members
  | _ => None
  end.

Fixpoint digits_value (acc : N) (s : string) : N :=
  match s with
  | String c r => digits_value (acc * 10 + (N_of_ascii c - 48)) r
  | EmptyString => acc
  end.

(** The number a numeral denotes is held as zero: its digits are all zero,
    or it is so small that it rounds to zero.  That is so up to 2^-1075,
    halfway to the least positive number, where the tie goes to zero. *)
Definition numeral_is_zero (s : string) : bool :=
  let '(_, s1) := take_sign s in
  let '(int, s2) := span_digits s1 in
  let '(frac, s3) :=
    match s2 with
    | String c r => if Ascii.eqb c "." then span_digits r else ("", s2)
    | EmptyString => ("", s2)
    end in
  let exponent : Z :=
    match s3 with
    | String _ r =>
        match r with
        | String c1 r' =>
            if Ascii.eqb c1 "-" then (- Z.of_N (digits_value 0 r'))%Z
            else if Ascii.eqb c1 "+" then Z.of_N (digits_value 0 r')
            else Z.of_N (digits_value 0 r)
        | EmptyString => 0%Z
        end
    | EmptyString => 0%Z
    end in
  let m := digits_value 0 (int +:+ frac) in
  let e10 := (exponent - Z.of_nat (String.length frac))%Z in
  (m =? 0)%N || ((e10 <? 0)%Z && (m * 2 ^ 1075 <=? 10 ^ Z.to_N (- e10))%N).

(** ToBoolean. *)
Definition js_truthy (v : json) : bool :=
  match v with
  | JNull => false
  | JBool b => b
  | JNumber n => negb (numeral_is_zero n)
  | JString s => negb (String.eqb s "")
  | JArray _ | JObject _ => true
  end.

(** A field the interfaces declare as a string.  The source casts the
    parsed value to its interface without a check; the model follows the
    declared type: an absent field is [undefined], and so is read a field
    that holds a value of another type. *)
Definition field_string (v : json) (k : string) : option string :=
  match get_prop v k with
  | Some (JString s) => Some s
  | _ => None
  end.

(** A field used as a condition. *)
Definition field_truthy (v : json) (k : string) : bool :=
  match get_prop v k with
  | Some x => js_truthy x
  | None => false
  end.

(** ToString of a string or [undefined], as in a template literal. *)
Definition js_string (s : option string) : string :=
  match s with
  | Some t => t
  | None => "undefined"
  end.

(** [a || b] on strings. *)
Definition or_else (a : option string) (b : string) : string :=
  match a with
  | Some t => if String.eqb t "" then b else t
  | None => b
  end.

(** ** Interfaces *)

Inductive Status : Type := success | failure.

Definition status_text (s : Status) : string :=
  match s with
  | success => "success"
  | failure => "error"
  end.

Record ContainerOutput : Type := {
  status : Status;
  result : option string;
  newSessionId : option string;
  error : option string
}.

Inductive Role : Type := user | assistant.

Record ParsedMessage : Type := {
  role : Role;
  content : option string
}.

(** The part of the engine's interface the runner reads. *)
Record Part : Type := {
  part_type : string;
  part_text : option string
}.

Record Info : Type := {
  structured_output : option json
}.

Record AssistantResponse : Type := {
  info : option Info;
  parts : option (list Part)
}.

Record PromptResult : Type := {
  data : option AssistantResponse;
  prompt_error : option json
}.

Record Session : Type := {
  id : string
}.

Definition IPC_INPUT_CLOSE_SENTINEL : string := "_close".
Definition OUTPUT_START_MARKER : string := "---NANOCLAW_OUTPUT_START---".
Definition OUTPUT_END_MARKER : string := "---NANOCLAW_OUTPUT_END---".

(** ** The state of a run *)

(** The directories and files the runner touches. *)
Record FS : Type := {
  ipc_input : gmap string string;
  conversations : gmap string string;
  tmp_input_json : option string;
  opencode_json : option string;
  global_AGENTS_md : option string;
  global_CLAUDE_md : option string
}.

(** What the process does at its boundary with the engine, in order; with
    the two mailbox observations the protocol is about.  [SessionPrompt] is a
    prompt that [main] or [runQuery] awaits itself.  [SessionForward] is the
    moment the poller of [runQuery] takes a message from the inbox to forward
    it to the session: the no-reply prompt that carries it is issued once the
    earlier forwards of the same tick have settled, and may still be under way
    when the foreground call has settled and the caller has moved on. *)
Inductive Event : Type :=
| CreateOpencode (model : string)
| SessionGet (sid : string)
| SessionCreate (title : string)
| SessionPrompt (sid : string) (text : string) (noReply : bool)
| SessionForward (sid : string) (text : string)
| SessionAbort (sid : string)
| CloseObserved
| ServerClose.

Record World : Type := {
  fs : FS;
  stdout : list string;
  events : list Event
}.

Definition set_fs (f : FS -> FS) (w : World) : World :=
  {| fs := f (fs w); stdout := stdout w; events := events w |}.

Definition set_ipc_input (f : gmap string string -> gmap string string) (d : FS) : FS :=
  {| ipc_input := f (ipc_input d); conversations := conversations d;
     tmp_input_json := tmp_input_json d; opencode_json := opencode_json d;
     global_AGENTS_md := global_AGENTS_md d; global_CLAUDE_md := global_CLAUDE_md d |}.

Definition emit (ev : Event) (w : World) : World :=
  {| fs := fs w; stdout := stdout w; events := events w ++ [ev] |}.

(** ** OutputEmitter *)

(** The object literal handed to [JSON.stringify]: a member whose value is
    [undefined] is left out, the others keep the order of the literal. *)
Definition json_of_output (o : ContainerOutput) : json :=
  JObject
    ([("status", JString (status_text (status o)));
      ("result", match result o with Some t => JString t | None => JNull end)]
     ++ match newSessionId o with Some i => [("newSessionId", JString i)] | None => [] end
     ++ match error o with Some m => [("error", JString m)] | None => [] end).

(** The three lines [console.log] writes. *)
Definition output_lines (o : ContainerOutput) : list string :=
  [OUTPUT_START_MARKER; JSON_stringify (json_of_output o); OUTPUT_END_MARKER].

Definition writeOutput (o : ContainerOutput) (w : World) : World :=
  {| fs := fs w; stdout := stdout w ++ output_lines o; events := events w |}.

(** The text of the output stream: every line ends with a line feed. *)
Fixpoint stream_text (lines : list string) : string :=
  match lines with
  | [] => ""
  | l :: rest => l +:+ LF +:+ stream_text rest
  end.

(** ** Mailbox *)

Definition shouldClose (d : FS) : bool * FS :=
  match ipc_input d !! IPC_INPUT_CLOSE_SENTINEL with
  | Some _ => (true, set_ipc_input (delete IPC_INPUT_CLOSE_SENTINEL) d)
  | None => (false, d)
  end.

(** [fs.readdirSync]: the names in the directory. *)
Definition readdirSync (dir : gmap string string) : list string :=
  (map_to_list dir).*1.

(** [Array.prototype.sort] without a comparator: by UTF-16 code units. *)
Definition sort_names (names : list string) : list string :=
  merge_sort js_le names.

(** The body of the loop of [drainIpcInput] for one file: the text to push,
    if any, and the directory afterwards.  The file is unlinked once it has
    been read and parsed; a failure to read or to parse it, or the read of a
    property of [null], is caught, and the file is unlinked there.  The
    [text] is read as the string the protocol of the mailbox makes it: it is
    pushed when it is not empty. *)
Definition consume_file (dir : gmap string string) (file : string)
  : option string * gmap string string :=
  match dir !! file with
  | None => (None, dir)
  | Some text =>
      match JSON_parse text with
      | Throw _ => (None, delete file dir)
      | Normal JNull => (None, delete file dir)
      | Normal data =>
          let dir' := delete file dir in
          match get_prop data "type", field_string data "text" with
          | Some (JString ty), Some t =>
              if String.eqb ty "message" && negb (String.eqb t "")
              then (Some t, dir') else (None, dir')
          | _, _ => (None, dir')
          end
      end
  end.

Fixpoint consume_files (dir : gmap string string) (files : list string)
  : list string * gmap string string :=
  match files with
  | [] => ([], dir)
  | file :: rest =>
      let '(m, dir1) := consume_file dir file in
      let '(ms, dir2) := consume_files dir1 rest in
      (match m with Some t => t :: ms | None => ms end, dir2)
  end.

Definition drainIpcInput (d : FS) : list string * FS :=
  let files :=
    sort_names (filter (fun f => endsWith f ".json" = true) (readdirSync (ipc_input d))) in
  let '(messages, dir') := consume_files (ipc_input d) files in
  (messages, set_ipc_input (fun _ => dir') d).

(** What the host wrote into the inbox between two looks at it. *)
Definition HostWrites : Type := list (string * string).

Definition host_writes (hw : HostWrites) (d : FS) : FS :=
  set_ipc_input (fun dir => foldl (fun m '(name, text) => <[name := text]> m) dir hw) d.

Inductive Awaited : Type :=
| Close
| Message (text : string)
| Waiting.

(** [waitForIpcMessage]: the first poll is immediate, every later one follows
    what the host wrote during [IPC_POLL_MS]; [later] lists these.  When the
    list ends without a message or a sentinel the wait is still pending. *)
Fixpoint waitForIpcMessage (later : list HostWrites) (w : World) : Awaited * World :=
  match shouldClose (fs w) with
  | (true, d) => (Close, emit CloseObserved (set_fs (fun _ => d) w))
  | (false, d) =>
      let '(messages, d1) := drainIpcInput d in
      match messages with
      | _ :: _ => (Message (join LF messages), set_fs (fun _ => d1) w)
      | [] =>
          match later with
          | [] => (Waiting, set_fs (fun _ => d1) w)
          | hw :: rest => waitForIpcMessage rest (set_fs (fun _ => host_writes hw d1) w)
          end
      end
  end.

(** ** TranscriptArchiver *)

Definition is_lower_alnum (c : ascii) : bool :=
  let n := N_of_ascii c in
  ((97 <=? n)%N && (n <=? 122)%N) || ((48 <=? n)%N && (n <=? 57)%N).

Definition to_lower (c : ascii) : ascii :=
  let n := N_of_ascii c in
  if (65 <=? n)%N && (n <=? 90)%N then ascii_of_N (n + 32) else c.

(** [String.prototype.toLowerCase], as far as [sanitizeFilename] can tell.
    The ASCII letters are lowered, and so are the two characters outside
    ASCII whose lower case holds an ASCII letter: U+0130, which gives [i]
    followed by U+0307, and U+212A, which gives [k].  The lower case of any
    other character outside ASCII is outside ASCII again, and the next step
    replaces either by the same dash. *)
Fixpoint toLowerCase (s : string) : string :=
  match s with
  | EmptyString => ""
  | String c r =>
      let plain := String (to_lower c) (toLowerCase r) in
      match r with
      | String c1 r1 =>
          if Ascii.eqb c "196" && Ascii.eqb c1 "176" then
            String "i" (String "204" (String "135" (toLowerCase r1)))
          else
            match r1 with
            | String c2 r2 =>
                if Ascii.eqb c "226" && Ascii.eqb c1 "132" && Ascii.eqb c2 "170" then
                  String "k" (toLowerCase r2)
                else plain
            | EmptyString => plain
            end
      | EmptyString => plain
      end
  end.

(** [replace(/[^a-z0-9]+/g, '-')]: [in_run] holds inside a run that has
    already given its dash. *)
Fixpoint dash_runs (in_run : bool) (s : string) : string :=
  match s with
  | EmptyString => ""
  | String c r =>
      if is_lower_alnum c then String c (dash_runs false r)
      else if in_run then dash_runs true r
      else String "-" (dash_runs true r)
  end.

Fixpoint drop_dashes (s : string) : string :=
  match s with
  | String c r => if Ascii.eqb c "-" then drop_dashes r else s
  | EmptyString => ""
  end.

(** [replace(/^-+|-+$/g, '')]. *)
Definition trim_dashes (s : string) : string :=
  String.rev (drop_dashes (String.rev (drop_dashes s))).

Definition sanitizeFilename (summary : string) : string :=
  take_chars 50 (trim_dashes (dash_runs false (toLowerCase summary))).

(** What the archiver reads from [new Date()]: the date part of
    [toISOString()], the local hour and minute, and the text
    [toLocaleString] gives. *)
Record Clock : Type := {
  iso_date : string;
  hours : nat;
  minutes : nat;
  locale_stamp : string
}.

Definition digit_char (n : nat) : ascii := ascii_of_nat (48 + n).

(** [n.toString().padStart(2, '0')] for an hour or a minute. *)
Definition pad2 (n : nat) : string :=
  String (digit_char (n / 10)) (String (digit_char (n mod 10)) "").

Definition generateFallbackName (time : Clock) : string :=
  "conversation-" +:+ pad2 (hours time) +:+ pad2 (minutes time).

(** One message of the transcript.  Reading [length] of a content that is
    [undefined] throws. *)
Definition transcript_lines (assistantName : option string) (msg : ParsedMessage)
  : completion (list string) :=
  match content msg with
  | None => Throw "Cannot read properties of undefined (reading 'length')"
  | Some text =>
      let sender :=
        match role msg with
        | user => "User"
        | assistant => or_else assistantName "Assistant"
        end in
      let shown :=
        if 2000 <? js_length text then js_slice 2000 text +:+ "..." else text in
      Normal ["**" +:+ sender +:+ "**: " +:+ shown; ""]
  end.

Fixpoint transcript_body (assistantName : option string) (messages : list ParsedMessage)
  : completion (list string) :=
  match messages with
  | [] => Normal []
  | msg :: rest =>
      match transcript_lines assistantName msg with
      | Throw m => Throw m
      | Normal ls =>
          match transcript_body assistantName rest with
          | Throw m => Throw m
          | Normal more => Normal (ls ++ more)
          end
      end
  end.

Definition formatTranscriptMarkdown (now : Clock) (messages : list ParsedMessage)
    (title : option string) (assistantName : option string) : completion string :=
  match transcript_body assistantName messages with
  | Throw m => Throw m
  | Normal body =>
      Normal (join LF (["# " +:+ or_else title "Conversation"; "";
                        "Archived: " +:+ locale_stamp now; ""; "---"; ""] ++ body))
  end.

Definition set_conversations (f : gmap string string -> gmap string string) (d : FS) : FS :=
  {| ipc_input := ipc_input d; conversations := f (conversations d);
     tmp_input_json := tmp_input_json d; opencode_json := opencode_json d;
     global_AGENTS_md := global_AGENTS_md d; global_CLAUDE_md := global_CLAUDE_md d |}.

(** An exception inside the [try] is logged and nothing is written. *)
Definition archiveConversation (now : Clock) (messages : list ParsedMessage)
    (assistantName : option string) (summary : option string) (d : FS) : FS :=
  match messages with
  | [] => d
  | _ :: _ =>
      let name :=
        match summary with
        | Some s => if String.eqb s "" then generateFallbackName now else sanitizeFilename s
        | None => generateFallbackName now
        end in
      let filename := iso_date now +:+ "-" +:+ name +:+ ".md" in
      match formatTranscriptMarkdown now messages summary assistantName with
      | Normal markdown => set_conversations <[filename := markdown]> d
      | Throw _ => d
      end
  end.

(** ** Engine integration *)

(** [JSON.stringify(value, null, 2)]. *)
Fixpoint spaces (n : nat) : string :=
  match n with
  | O => ""
  | S k => String " " (spaces k)
  end.

Fixpoint JSON_stringify_indent (depth : nat) (v : json) : string :=
  match v with
  | JArray (x :: items) =>
      "[" +:+ LF +:+ spaces (2 * S depth) +:+ JSON_stringify_indent (S depth) x +:+
      (fix elems (l : list json) : string :=
         match l with
         | [] => ""
         | y :: rest =>
             "," +:+ LF +:+ spaces (2 * S depth) +:+ JSON_stringify_indent (S depth) y
             +:+ elems rest
         end) items +:+ LF +:+ spaces (2 * depth) +:+ "]"
  | JObject ((k, x) :: members) =>
      "{" +:+ LF +:+ spaces (2 * S depth) +:+ quote k +:+ ": "
      +:+ JSON_stringify_indent (S depth) x +:+
      (fix membs (l : list (string * json)) : string :=
         match l with
         | [] => ""
         | (k', y) :: rest =>
             "," +:+ LF +:+ spaces (2 * S depth) +:+ quote k' +:+ ": "
             +:+ JSON_stringify_indent (S depth) y +:+ membs rest
         end) members +:+ LF +:+ spaces (2 * depth) +:+ "}"
  | _ => JSON_stringify v
  end.

(** The environment variables the runner reads. *)
Record ProcessEnv : Type := {
  OPENCODE_MODEL : option string;
  NVIDIA_API_BASE_URL : option string;
  NVIDIA_API_KEY : option string
}.

Definition default_model : string := "nvidia/moonshotai/kimi-k2.5".

Definition opencode_config (penv : ProcessEnv) (containerInput : json)
    (mcpServerPath : string) : json :=
  let model := or_else (OPENCODE_MODEL penv) default_model in
  let baseURL := or_else (NVIDIA_API_BASE_URL penv) "https://integrate.api.nvidia.com/v1" in
  let apiKey :=
    match (match get_prop containerInput "secrets" with
           | Some secrets => get_prop secrets "NVIDIA_API_KEY"
           | None => None
           end) with
    | Some key => if js_truthy key then key else JString (or_else (NVIDIA_API_KEY penv) "")
    | None => JString (or_else (NVIDIA_API_KEY penv) "")
    end in
  let opt (k : string) (v : option json) : list (string * json) :=
    match v with Some x => [(k, x)] | None => [] end in
  JObject
    [("$schema", JString "https://opencode.ai/config.json");
     ("provider",
      JObject
        [("nvidia",
          JObject
            [("npm", JString "@ai-sdk/openai-compatible");
             ("name", JString "Nvidia API");
             ("options", JObject [("baseURL", JString baseURL); ("apiKey", apiKey)]);
             ("models",
              JObject [("moonshotai/kimi-k2.5", JObject [("name", JString "Kimi K2.5")])])])]);
     ("model", JString model);
     ("mcp",
      JObject
        [("nanoclaw",
          JObject
            [("command", JString "node");
             ("args", JArray [JString mcpServerPath]);
             ("env",
              JObject
                (opt "NANOCLAW_CHAT_JID" (get_prop containerInput "chatJid")
                 ++ opt "NANOCLAW_GROUP_FOLDER" (get_prop containerInput "groupFolder")
                 ++ [("NANOCLAW_IS_MAIN",
                      JString (if field_truthy containerInput "isMain" then "1" else "0"))]))])])].

Definition writeOpencodeConfig (penv : ProcessEnv) (containerInput : json)
    (mcpServerPath : string) (d : FS) : FS :=
  {| ipc_input := ipc_input d; conversations := conversations d;
     tmp_input_json := tmp_input_json d;
     opencode_json :=
       Some (JSON_stringify_indent 0 (opencode_config penv containerInput mcpServerPath));
     global_AGENTS_md := global_AGENTS_md d; global_CLAUDE_md := global_CLAUDE_md d |}.

(** The first of the two global context files that exists. *)
Definition buildSystemContext (d : FS) : option string :=
  match global_AGENTS_md d with
  | Some text => Some text
  | None => global_CLAUDE_md d
  end.

Definition is_text_part (p : Part) : bool := String.eqb (part_type p) "text".

(** [.filter(Boolean)]: a text that is [undefined] or empty is dropped. *)
Definition nonempty_text (p : Part) : option string :=
  match part_text p with
  | Some t => if String.eqb t "" then None else Some t
  | None => None
  end.

Definition extractResultText (response : AssistantResponse) : option string :=
  let textParts :=
    match parts response with
    | Some ps => omap nonempty_text (filter (fun p => is_text_part p = true) ps)
    | None => []
    end in
  match textParts with
  | _ :: _ => Some (join "" textParts)
  | [] =>
      match info response with
      | Some i =>
          match structured_output i with
          | Some v => if js_truthy v then Some (JSON_stringify v) else None
          | None => None
          end
      | None => None
      end
  end.

(** ** The environment of a run *)

(** One turn as the environment plays it: what the host writes into the
    inbox before each tick of the poller that fires while the foreground call
    is in flight, what it writes after the last tick, how the call settles,
    and what it writes before each later poll of the wait that follows. *)
Record Turn : Type := {
  ticks : list HostWrites;
  late_writes : HostWrites;
  reply : settled PromptResult;
  idle : list HostWrites
}.

Record Env : Type := {
  process_env : ProcessEnv;
  module_dir : string;
  server_start : settled unit;
  session_get : settled (option Session);
  session_create : settled (option Session);
  context_prompt : settled unit;
  startup_writes : HostWrites;
  turns : list Turn;
  archive_time : Clock
}.

(** ** SessionOrchestrator *)

(** The poller of [runQuery], tick by tick.  [ipcPolling] and
    [closedDuringQuery] are its two flags; a tick that finds [ipcPolling]
    cleared does nothing.  A tick takes all the messages of the inbox at
    once and forwards them one after the other, each forward awaited; the
    next tick is scheduled after the last of them.  A failure of [abort] or
    of a forwarded prompt is swallowed. *)
Fixpoint pollIpcDuringQuery (sessionId : string) (ticks : list HostWrites)
    (ipcPolling closedDuringQuery : bool) (w : World) : bool * World :=
  match ticks with
  | [] => (closedDuringQuery, w)
  | hw :: rest =>
      let w1 := set_fs (host_writes hw) w in
      if negb ipcPolling then
        pollIpcDuringQuery sessionId rest ipcPolling closedDuringQuery w1
      else
        match shouldClose (fs w1) with
        | (true, d) =>
            let w2 := emit (SessionAbort sessionId)
                        (emit CloseObserved (set_fs (fun _ => d) w1)) in
            pollIpcDuringQuery sessionId rest false true w2
        | (false, d) =>
            let '(messages, d1) := drainIpcInput d in
            let w2 :=
              foldl (fun acc text => emit (SessionForward sessionId text) acc)
                    (set_fs (fun _ => d1) w1) messages in
            pollIpcDuringQuery sessionId rest true closedDuringQuery w2
        end
  end.

(** What [runQuery] writes once the foreground call has settled. *)
Definition report (sessionId : string) (r : settled PromptResult) (w : World) : World :=
  match r with
  | Resolved res =>
      match data res with
      | Some response =>
          writeOutput {| status := success; result := extractResultText response;
                         newSessionId := Some sessionId; error := None |} w
      | None =>
          match prompt_error res with
          | Some err =>
              if js_truthy err then
                writeOutput {| status := failure; result := None;
                               newSessionId := Some sessionId;
                               error := Some (JSON_stringify err) |} w
              else w
          | None => w
          end
      end
  | Rejected message =>
      writeOutput {| status := failure; result := None;
                     newSessionId := Some sessionId; error := Some message |} w
  end.

(** [runQuery] returns [closedDuringQuery].  A prompt that is [undefined]
    throws at [prompt.length], inside the [try] and before the call. *)
Definition runQuery (sessionId : string) (prompt : option string) (t : Turn) (w : World)
  : bool * World :=
  match prompt with
  | None =>
      (false,
       writeOutput {| status := failure; result := None; newSessionId := Some sessionId;
                      error := Some "Cannot read properties of undefined (reading 'length')" |} w)
  | Some text =>
      let w1 := emit (SessionPrompt sessionId text false) w in
      let '(closedDuringQuery, w2) := pollIpcDuringQuery sessionId (ticks t) true false w1 in
      let w3 := set_fs (host_writes (late_writes t)) w2 in
      (closedDuringQuery, report sessionId (reply t) w3)
  end.

(** How the process ends.  A rejection of [main()] that nothing handles ends
    the process with status 1.  [StillRunning]: the script of the environment
    ended while the process was waiting. *)
Inductive Exit : Type :=
| Exited (code : nat)
| StillRunning.

(** The query loop of [main], one script entry per iteration.  The result
    tells whether the loop was left, with [conversationMessages]. *)
Fixpoint query_loop (script : list Turn) (sessionId : string) (prompt : option string)
    (conversationMessages : list ParsedMessage) (w : World)
  : bool * list ParsedMessage * World :=
  let conversationMessages :=
    conversationMessages ++ [{| role := user; content := prompt |}] in
  match script with
  | [] => (false, conversationMessages, w)
  | t :: rest =>
      match runQuery sessionId prompt t w with
      | (true, w1) => (true, conversationMessages, w1)
      | (false, w1) =>
          let w2 := writeOutput {| status := success; result := None;
                                   newSessionId := Some sessionId; error := None |} w1 in
          match waitForIpcMessage (idle t) w2 with
          | (Close, w3) => (true, conversationMessages, w3)
          | (Waiting, w3) => (false, conversationMessages, w3)
          | (Message nextMessage, w3) =>
              query_loop rest sessionId (Some nextMessage) conversationMessages w3
          end
      end
  end.

(** The outcome of a run: the final state, how the process ended, and the
    record handed to [archiveConversation] if the run came that far. *)
Record Run : Type := {
  final : World;
  exit : Exit;
  archived : option (list ParsedMessage)
}.

Definition uncaught (w : World) : Run :=
  {| final := w; exit := Exited 1; archived := None |}.

Definition remove_tmp_input (d : FS) : FS :=
  {| ipc_input := ipc_input d; conversations := conversations d;
     tmp_input_json := None; opencode_json := opencode_json d;
     global_AGENTS_md := global_AGENTS_md d; global_CLAUDE_md := global_CLAUDE_md d |}.

(** The first [try] of [main]: parse, remove the temporary copy, and read
    [groupFolder] for the log line, which throws on [null]. *)
Definition read_input (stdin : string) (w : World) : completion json * World :=
  match JSON_parse stdin with
  | Throw m => (Throw m, w)
  | Normal containerInput =>
      let w1 := set_fs remove_tmp_input w in
      match containerInput with
      | JNull => (Throw "Cannot read properties of null (reading 'groupFolder')", w1)
      | _ => (Normal containerInput, w1)
      end
  end.

(** Resume or create the session; the identifier the loop uses, or the
    exception that leaves [main]. *)
Definition open_session (e : Env) (containerInput : json) (w : World)
  : completion string * World :=
  let requested :=
    match field_string containerInput "sessionId" with
    | Some i => if String.eqb i "" then None else Some i
    | None => None
    end in
  let '(resumed, w1) :=
    match requested with
    | Some i =>
        let w' := emit (SessionGet i) w in
        match session_get e with
        | Resolved (Some _) => (Some i, w')
        | Resolved None => (None, w')
        | Rejected _ => (None, w')
        end
    | None => (None, w)
    end in
  match resumed with
  | Some i => (Normal i, w1)
  | None =>
      let title := "nanoclaw-" +:+ js_string (field_string containerInput "groupFolder") in
      let w2 := emit (SessionCreate title) w1 in
      match session_create e with
      | Resolved (Some session) => (Normal (id session), w2)
      | Resolved None => (Throw "Cannot read properties of undefined (reading 'id')", w2)
      | Rejected m => (Throw m, w2)
      end
  end.

(** The steps of [main] between reading the input and starting the engine:
    the configuration file, the inbox directory, and the stale sentinel of an
    earlier run (a missing file is ignored). *)
Definition prepare_workspace (e : Env) (containerInput : json) (w : World) : World :=
  let mcpServerPath := module_dir e +:+ "/ipc-mcp-stdio.js" in
  let w1 := set_fs (writeOpencodeConfig (process_env e) containerInput mcpServerPath) w in
  set_fs (set_ipc_input (delete IPC_INPUT_CLOSE_SENTINEL)) w1.

(** The prompt of the first turn: the task, marked when it is a scheduled
    one, followed by the messages already waiting in the inbox. *)
Definition initial_prompt (containerInput : json) (pending : list string) : option string :=
  let prompt := field_string containerInput "prompt" in
  let prompt :=
    if field_truthy containerInput "isScheduledTask" then
      Some ("[SCHEDULED TASK - The following message was sent automatically and is not coming directly from the user or group.]"
            +:+ LF +:+ LF +:+ js_string prompt)
    else prompt in
  match pending with
  | _ :: _ => Some (js_string prompt +:+ LF +:+ join LF pending)
  | [] => prompt
  end.

(** The end of [main]: once the loop is left, the record goes to the
    archiver and the engine is released; the process then ends normally. *)
Definition teardown (e : Env) (containerInput : json)
    (loop : bool * list ParsedMessage * World) : Run :=
  match loop with
  | (false, _, w8) => {| final := w8; exit := StillRunning; archived := None |}
  | (true, conversationMessages, w8) =>
      let w9 :=
        set_fs (archiveConversation (archive_time e) conversationMessages
                  (field_string containerInput "assistantName") None) w8 in
      {| final := emit ServerClose w9; exit := Exited 0;
         archived := Some conversationMessages |}
  end.

(** [main] after its input has been read.  With the messages of the
    mailbox being strings, nothing inside the [try] around the query loop
    throws, so its [catch] is never entered. *)
Definition run_session (e : Env) (containerInput : json) (w : World) : Run :=
  let w2 := prepare_workspace e containerInput w in
  let w3 := emit (CreateOpencode (or_else (OPENCODE_MODEL (process_env e)) default_model)) w2 in
  match server_start e with
  | Rejected _ => uncaught w3
  | Resolved _ =>
      match open_session e containerInput w3 with
      | (Throw _, w4) => uncaught w4
      | (Normal sessionId, w4) =>
          let '(injected, w5) :=
            match buildSystemContext (fs w4) with
            | Some systemContext =>
                if String.eqb systemContext "" then (true, w4)
                else
                  let w' := emit (SessionPrompt sessionId systemContext true) w4 in
                  match context_prompt e with
                  | Resolved _ => (true, w')
                  | Rejected _ => (false, w')
                  end
            | None => (true, w4)
            end in
          match injected with
          | false => uncaught w5
          | true =>
              let w6 := set_fs (host_writes (startup_writes e)) w5 in
              let '(pending, d) := drainIpcInput (fs w6) in
              let w7 := set_fs (fun _ => d) w6 in
              teardown e containerInput
                (query_loop (turns e) sessionId (initial_prompt containerInput pending) [] w7)
          end
      end
  end.

Definition main (stdin : string) (e : Env) (w : World) : Run :=
  match read_input stdin w with
  | (Throw m, w1) =>
      {| final := writeOutput {| status := failure; result := None; newSessionId := None;
                                 error := Some ("Failed to parse input: " +:+ m) |} w1;
         exit := Exited 1; archived := None |}
  | (Normal containerInput, w1) => run_session e containerInput w1
  end.

(** ** Vocabulary of the specification *)

(** The texts of the text-typed fragments of a response, in order. *)
Definition text_fragments (response : AssistantResponse) : list string :=
  map (fun p => default "" (part_text p))
      (filter (fun p => is_text_part p = true) (default [] (parts response))).

Definition fallback_field (response : AssistantResponse) : option json :=
  info response ≫= structured_output.

(** The extraction policy as the specification words it. *)
Definition extraction_policy (response : AssistantResponse) : option string :=
  match text_fragments response with
  | _ :: _ => Some (foldr String.append "" (text_fragments response))
  | [] => JSON_stringify <$> fallback_field response
  end.

Definition all_empty (l : list string) : bool := forallb (String.eqb "") l.

(** The payload of a message file, for a text of the shape
    [{"type":"message","text":...}]. *)
Definition message_text (text : string) : option string :=
  match JSON_parse text with
  | Normal (JObject members) =>
      match lookup_member "type" members, lookup_member "text" members with
      | Some (JString ty), Some (JString t) =>
          if String.eqb ty "message" then Some t else None
      | _, _ => None
      end
  | _ => None
  end.

(** A message file the drain delivers: well-formed, with a text that is not
    empty. *)
Definition deliverable (text : string) : bool :=
  match message_text text with
  | Some t => negb (String.eqb t "")
  | None => false
  end.

Definition is_message_name (name : string) : bool := endsWith name ".json".

(** An event that starts a turn: a prompt that asks for a reply. *)
Definition starts_turn (ev : Event) : bool :=
  match ev with
  | SessionPrompt _ _ false => true
  | _ => false
  end.

(** The events of a stretch of a run in which the sentinel is observed at
    most once, and after which no turn is started. *)
Definition closing_trace (new : list Event) : Prop :=
  exists a b : list Event,
    new = a ++ b /\ (CloseObserved ∉ a) /\ Forall (fun ev => starts_turn ev = false) b.

(** The standard input lacks a field the interface requires. *)
Definition lacks_required_field (stdin : string) : Prop :=
  exists v, JSON_parse stdin = Normal v
            /\ (get_prop v "prompt" = None \/ get_prop v "groupFolder" = None).

(** The run rejected its input: one error envelope without a session
    identifier, a non-zero exit status, and no call to the engine. *)
Definition input_rejected (w : World) (r : Run) : Prop :=
  (exists m, stdout (final r)
             = stdout w ++ output_lines {| status := failure; result := None;
                                           newSessionId := None; error := Some m |})
  /\ (exists code, exit r = Exited code /\ code <> 0)
  /\ events (final r) = events w.

(** The description of the failure of a foreground call, if it failed: the
    message of the exception, or the serialized engine-level error. *)
Definition failure_description (r : settled PromptResult) : option string :=
  match r with
  | Rejected message => Some message
  | Resolved res =>
      match data res, prompt_error res with
      | None, Some err => if js_truthy err then Some (JSON_stringify err) else None
      | _, _ => None
      end
  end.

Definition heartbeat (sessionId : string) : ContainerOutput :=
  {| status := success; result := None; newSessionId := Some sessionId; error := None |}.

(** Modelled from the spec: the host's reader of the output stream, which is
    not part of these sources.  It splits the stream on the start-marker
    literal, then on the end-marker literal, and JSON-decodes the text in
    between into a ResultEnvelope. *)
Fixpoint split_on (marker s : string) : option (string * string) :=
  match strip_prefix marker s with
  | Some rest => Some ("", rest)
  | None =>
      match s with
      | EmptyString => None
      | String c r =>
          match split_on marker r with
          | Some (before, rest) => Some (String c before, rest)
          | None => None
          end
      end
  end.

(** The literal occurs in the text. *)
Definition occurs (marker s : string) : bool :=
  match split_on marker s with
  | Some _ => true
  | None => false
  end.

Definition optional_string (v : option json) : option (option string) :=
  match v with
  | None => Some None
  | Some (JString t) => Some (Some t)
  | Some _ => None
  end.

(** The envelope a decoded JSON value stands for. *)
Definition output_of_json (v : json) : option ContainerOutput :=
  match v with
  | JObject members =>
      match lookup_member "status" members, lookup_member "result" members,
            optional_string (lookup_member "newSessionId" members),
            optional_string (lookup_member "error" members) with
      | Some (JString st), Some r, Some i, Some e =>
          match (if String.eqb st "success" then Some success
                 else if String.eqb st "error" then Some failure else None),
                (match r with
                 | JNull => Some None
                 | JString t => Some (Some t)
                 | _ => None
                 end) with
          | Some st', Some r' =>
              Some {| status := st'; result := r'; newSessionId := i; error := e |}
          | _, _ => None
          end
      | _, _, _, _ => None
      end
  | _ => None
  end.

Definition host_parse (stream : string) : option ContainerOutput :=
  match split_on OUTPUT_START_MARKER stream with
  | Some (_, after_start) =>
      match split_on OUTPUT_END_MARKER after_start with
      | Some (enclosed, _) =>
          match JSON_parse enclosed with
          | Normal v => output_of_json v
          | Throw _ => None
          end
      | None => None
      end
  | None => None
  end.

(** Modelled from the spec: a line-oriented reader of the output stream.
    It looks for a line that is the start marker, takes the line after it,
    and requires the line after that to be the end marker. *)
Fixpoint lines (s : string) : list string :=
  match s with
  | EmptyString => [""]
  | String c r =>
      if Ascii.eqb c newline then "" :: lines r
      else
        match lines r with
        | l :: ls => String c l :: ls
        | [] => [String c ""]
        end
  end.

Fixpoint framed_line (ls : list string) : option string :=
  match ls with
  | [] => None
  | l :: rest =>
      if String.eqb l OUTPUT_START_MARKER then
        match rest with
        | j :: e :: _ => if String.eqb e OUTPUT_END_MARKER then Some j else None
        | _ => None
        end
      else framed_line rest
  end.

Definition host_parse_lines (stream : string) : option ContainerOutput :=
  match framed_line (lines stream) with
  | Some line =>
      match JSON_parse line with
      | Normal v => output_of_json v
      | Throw _ => None
      end
  | None => None
  end.

(** An envelope whose text is the end-marker literal. *)
Definition marker_output : ContainerOutput :=
  {| status := success; result := Some OUTPUT_END_MARKER;
     newSessionId := Some "s1"; error := None |}.

(** The values of the members of an envelope: strings and [null]. *)
Definition flat (v : json) : Prop :=
  match v with
  | JNull | JString _ => True
  | _ => False
  end.

Definition member_text (m : string * json) : string :=
  quote m.1 +:+ ":" +:+ JSON_stringify m.2.

Fixpoint has_char (c : ascii) (s : string) : bool :=
  match s with
  | EmptyString => false
  | String a r => Ascii.eqb a c || has_char c r
  end.

(** The escape of a character reads back as that character: checked by
    computation for each of the 256 characters. *)
Definition escape_reads_back (c : ascii) : bool :=
  match escape_char c with
  | String a EmptyString =>
      Ascii.eqb a c && negb (Ascii.eqb a dquote) && negb (Ascii.eqb a backslash)
      && negb (N_of_ascii a <? 32)%N
  | String b (String e EmptyString) =>
      Ascii.eqb b backslash && negb (Ascii.eqb e "u")
      && match unescape e with
         | Some ch => Ascii.eqb ch c
         | None => false
         end
  | String b (String u (String h1 (String h2 (String h3 (String h4 EmptyString))))) =>
      Ascii.eqb b backslash && Ascii.eqb u "u"
      && match hex4 h1 h2 h3 h4 with
         | Some cu => String.eqb (utf8_encode cu) (String c "") && negb (is_high_surrogate cu)
         | None => false
         end
  | _ => false
  end.

(** ** Scenarios *)

Definition message_file (text : string) : string :=
  JSON_stringify (JObject [("type", JString "message"); ("text", JString text)]).

Definition empty_fs : FS :=
  {| ipc_input := ∅; conversations := ∅; tmp_input_json := None;
     opencode_json := None; global_AGENTS_md := None; global_CLAUDE_md := None |}.

Definition inbox_of (dir : gmap string string) : FS :=
  set_ipc_input (fun _ => dir) empty_fs.

(** Two messages written out of order, beside a file that is no message. *)
Definition inbox_two : FS :=
  inbox_of {[ "1700000002-b.json" := message_file "second";
              "1700000001-a.json" := message_file "first";
              "notes.txt" := "kept" ]}.

(** One well-formed message file whose text is empty. *)
Definition inbox_empty_text : FS :=
  inbox_of {[ "1700000001-a.json" := message_file "" ]}.

Definition world0 : World := {| fs := empty_fs; stdout := []; events := [] |}.

Definition clock0 : Clock :=
  {| iso_date := "2026-02-03"; hours := 9; minutes := 5; locale_stamp := "Feb 3, 9:05 AM" |}.

Definition text_reply (text : string) : settled PromptResult :=
  Resolved {| data := Some {| info := None;
                              parts := Some [{| part_type := "text"; part_text := Some text |}] |};
              prompt_error := None |}.

(** An engine that starts, knows no earlier session, creates session [s1],
    and plays the given turns. *)
Definition env_of (script : list Turn) : Env :=
  {| process_env := {| OPENCODE_MODEL := None; NVIDIA_API_BASE_URL := None;
                       NVIDIA_API_KEY := None |};
     module_dir := "/app/dist";
     server_start := Resolved ();
     session_get := Resolved None;
     session_create := Resolved (Some {| id := "s1" |});
     context_prompt := Resolved ();
     startup_writes := [];
     turns := script;
     archive_time := clock0 |}.

Definition hello_input : string :=
  json_text "{'prompt':'hello','groupFolder':'g1','chatJid':'c1','isMain':false}".

(** The host closes the session: it creates the sentinel. *)
Definition close_request : HostWrites := [(IPC_INPUT_CLOSE_SENTINEL, "")].

(** The engine answers [hi]; the host then closes the session. *)
Definition env_reply_then_close : Env :=
  env_of [{| ticks := []; late_writes := []; reply := text_reply "hi";
             idle := [close_request] |}].

(** The sentinel arrives during the first turn, whose call then fails. *)
Definition env_close_during_first_turn : Env :=
  env_of [{| ticks := [close_request]; late_writes := [];
             reply := Rejected "The operation was aborted"; idle := [] |}].

(** The engine cannot create a session. *)
Definition env_create_fails : Env :=
  {| process_env := process_env (env_of []);
     module_dir := "/app/dist";
     server_start := Resolved ();
     session_get := Resolved None;
     session_create := Rejected "connect ECONNREFUSED 127.0.0.1";
     context_prompt := Resolved ();
     startup_writes := [];
     turns := [];
     archive_time := clock0 |}.

(** A turn during which the host writes one message, seen by the one tick
    of the poller; the engine then answers [hi]. *)
Definition turn_with_message : Turn :=
  {| ticks := [[("1700000003-c.json", message_file "more")]]; late_writes := [];
     reply := text_reply "hi"; idle := [] |}.

(** ** Further vocabulary *)

(** The text a message file contributes to a drain, if any: the payload of
    a well-formed message, unless it is empty. *)
Definition accepted_text (text : string) : option string :=
  match message_text text with
  | Some t => if String.eqb t "" then None else Some t
  | None => None
  end.

(** The characters of a sanitized label. *)
Definition is_label_char (c : ascii) : bool := is_lower_alnum c || Ascii.eqb c "-".

Fixpoint all_chars (P : ascii -> bool) (s : string) : bool :=
  match s with
  | EmptyString => true
  | String c r => P c && all_chars P r
  end.

Definition starts_with_dash (s : string) : bool :=
  match s with
  | String c _ => Ascii.eqb c "-"
  | EmptyString => false
  end.

(** No dash is followed by a dash. *)
Fixpoint single_dashes (s : string) : bool :=
  match s with
  | String c r => negb (Ascii.eqb c "-" && starts_with_dash r) && single_dashes r
  | EmptyString => true
  end.

(** The name of the file [archiveConversation] writes. *)
Definition archive_filename (now : Clock) (summary : option string) : string :=
  iso_date now +:+ "-"
  +:+ match summary with
      | Some s => if String.eqb s "" then generateFallbackName now else sanitizeFilename s
      | None => generateFallbackName now
      end
  +:+ ".md".

(** Every message of the record has a content. *)
Definition all_defined (messages : list ParsedMessage) : bool :=
  forallb (fun m => match content m with Some _ => true | None => false end) messages.

Definition sender_label (assistantName : option string) (r : Role) : string :=
  match r with
  | user => "User"
  | assistant => or_else assistantName "Assistant"
  end.

(** A foreground call that settles without a reply and without an error the
    runner recognizes: no data, and an error that is absent or falsy. *)
Definition silent_reply (r : settled PromptResult) : bool :=
  match r with
  | Resolved res =>
      match data res, prompt_error res with
      | Some _, _ => false
      | None, Some err => negb (js_truthy err)
      | None, None => true
      end
  | Rejected _ => false
  end.

(** Everything of the filesystem but the inbox. *)
Definition outside_inbox (d : FS)
  : gmap string string * option string * option string * option string * option string :=
  (conversations d, tmp_input_json d, opencode_json d, global_AGENTS_md d, global_CLAUDE_md d).

(** The texts submitted as turns: the prompts that ask for a reply. *)
Definition foreground_prompts (evs : list Event) : list string :=
  omap (fun ev => match ev with
                  | SessionPrompt _ text false => Some text
                  | _ => None
                  end) evs.

(** What the query loop does: prompts and forwards to session [sid], an
    abort of it, and the observation of the sentinel. *)
Definition turn_event (sid : string) (ev : Event) : Prop :=
  match ev with
  | SessionPrompt s _ _ | SessionForward s _ | SessionAbort s => s = sid
  | CloseObserved => True
  | _ => False
  end.

(** How a run opens its session: at most one lookup, then at most one
    creation. *)
Definition is_opening (evs : list Event) : bool :=
  match evs with
  | [] | [SessionGet _] | [SessionCreate _] | [SessionGet _; SessionCreate _] => true
  | _ => false
  end.

(** The injection of the global context into session [sid]. *)
Definition injected_context (sid : string) (d : FS) : list Event :=
  match buildSystemContext d with
  | Some systemContext =>
      if String.eqb systemContext "" then [] else [SessionPrompt sid systemContext true]
  | None => []
  end.

(** The release of the engine, which ends a run that exits normally. *)
Definition released (r : Run) : list Event :=
  match exit r with
  | Exited 0 => [ServerClose]
  | _ => []
  end.

(** The content the writes of the host leave under [name], if they write
    it: the last one wins. *)
Fixpoint last_write (hw : HostWrites) (name : string) : option string :=
  match hw with
  | [] => None
  | (n, text) :: rest =>
      match last_write rest name with
      | Some later => Some later
      | None => if String.eqb n name then Some text else None
      end
  end.

(** The protocol of the mailbox, as the header of the source states it: the
    [text] of a message file is a string.  A file follows it when it is no
    JSON, or holds no [text], or holds a string there. *)
Definition typed_message (content : string) : bool :=
  match JSON_parse content with
  | Normal v =>
      match get_prop v "text" with
      | Some (JString _) | None => true
      | Some _ => false
      end
  | Throw _ => true
  end.

Definition typed_file (f : string * string) : bool :=
  negb (is_message_name f.1) || typed_message f.2.

Definition typed_inbox (d : FS) : bool := forallb typed_file (map_to_list (ipc_input d)).

Definition typed_writes (hw : HostWrites) : bool := forallb typed_file hw.

Definition typed_turn (t : Turn) : bool :=
  forallb typed_writes (ticks t) && typed_writes (late_writes t)
  && forallb typed_writes (idle t).

Definition typed_env (e : Env) : bool :=
  typed_writes (startup_writes e) && forallb typed_turn (turns e).


(** Session [sid] is the one the run opened with the calls [opening]: the
    session the input names, found by the engine, or else the one the engine
    created. *)
Definition session_opened (e : Env) (containerInput : json) (opening : list Event)
    (sid : string) : Prop :=
  (field_string containerInput "sessionId" = Some sid
   /\ opening = [SessionGet sid]
   /\ exists s, session_get e = Resolved (Some s))
  \/ (exists s title,
        session_create e = Resolved (Some s) /\ id s = sid
        /\ (opening = [SessionCreate title]
            \/ exists i, field_string containerInput "sessionId" = Some i
                         /\ opening = [SessionGet i; SessionCreate title])).

(** The shape of a run [r] that started in [w] with the input [containerInput]:
    its envelopes [os], the events of its opening, of the context injection
    and of its turns, and the files it leaves. *)
Definition run_shape (e : Env) (containerInput : json) (w : World) (r : Run) : Prop :=
  exists (sid : string) (os : list ContainerOutput) (opening context turn_events : list Event),
    stdout (final r) = stdout w ++ concat (map output_lines os)
    /\ Forall (fun o => newSessionId o = Some sid) os
    /\ events (final r)
       = events w
         ++ CreateOpencode (or_else (OPENCODE_MODEL (process_env e)) default_model)
            :: opening ++ context ++ turn_events ++ released r
    /\ is_opening opening = true
    /\ (context = [] \/ context = injected_context sid (fs w))
    /\ Forall (turn_event sid) turn_events
    /\ (context = [] /\ turn_events = [] /\ os = [] /\ exit r = Exited 1
        \/ session_opened e containerInput opening sid)
    /\ (exit r = Exited 1 -> os = [] /\ turn_events = [])
    /\ (exit r <> Exited 1 -> context = injected_context sid (fs w))
    /\ (exit r = Exited 0 -> CloseObserved ∈ turn_events)
    /\ (forall msgs, archived r = Some msgs ->
        exit r = Exited 0 /\ foreground_prompts turn_events = omap content msgs)
    /\ (archived r = None -> exit r <> Exited 0)
    /\ outside_inbox (fs (final r))
       = (match archived r with
          | Some msgs =>
              conversations
                (archiveConversation (archive_time e) msgs
                   (field_string containerInput "assistantName") None (fs w))
          | None => conversations (fs w)
          end,
          tmp_input_json (fs w),
          Some (JSON_stringify_indent 0
                  (opencode_config (process_env e) containerInput
                     (module_dir e +:+ "/ipc-mcp-stdio.js"))),
          global_AGENTS_md (fs w), global_CLAUDE_md (fs w)).

(** The bits a character can have gathered while [need] of its bytes are
    still to come. *)
Definition acc_bound (need : nat) : N :=
  match need with
  | 1 => 32768
  | 2 => 512
  | 3 => 8
  | _ => 0
  end.


(** * Properties *)

(** ** [JSON.parse]: the fuel is enough *)

Section ParseFuel.

#[local] Abbreviation len := String.length.

Lemma skip_ws_length (s : string) : len (skip_ws s) <= len s.
Proof.
  induction s as [|c s IH]; [done|]. cbn [skip_ws].
  destruct (is_ws c); cbn [String.length]; lia.
Qed.

Lemma strip_prefix_length (p s r : string) :
  strip_prefix p s = Some r -> len r <= len s.
Proof.
  revert s. induction p as [|a p IH]; intros s H.
  - destruct s; by simplify_eq/=.
  - destruct s as [|b s]; [done|]. cbn [strip_prefix] in H.
    destruct (Ascii.eqb a b); [|done]. apply IH in H. cbn [String.length]. lia.
Qed.

Lemma parse_string_body_length (s t r : string) :
  parse_string_body s = Some (t, r) -> len r < len s.
Proof.
  remember (len s) as n eqn:Hn. revert s t r Hn.
  induction n as [n IH] using lt_wf_ind. intros s t r -> H.
  destruct s as [|c s]; [done|]. cbn [parse_string_body] in H. cbv zeta in H.
  repeat case_match; simplify_eq; cbn [String.length] in *; try lia;
    match goal with
    | H : parse_string_body ?x = Some _ |- _ =>
        eapply (IH (len x)) in H; [|cbn [String.length]; lia|reflexivity];
        cbn [String.length] in *; lia
    end.
Qed.

Lemma span_digits_length (s d r : string) :
  span_digits s = (d, r) -> len r <= len s.
Proof.
  revert d r. induction s as [|c s IH]; intros d r H; cbn [span_digits] in H.
  - by simplify_eq/=.
  - destruct (is_digit c).
    + destruct (span_digits s) as [d' r'] eqn:E. simplify_eq/=.
      specialize (IH _ _ eq_refl). lia.
    + simplify_eq/=. lia.
Qed.

Lemma take_sign_length (s sg r : string) : take_sign s = (sg, r) -> len r <= len s.
Proof.
  unfold take_sign. destruct s as [|c s]; [by intros [= _ <-]|].
  destruct (Ascii.eqb c "-"); intros [= _ <-]; cbn [String.length]; lia.
Qed.

Lemma take_int_length (s i r : string) : take_int s = Some (i, r) -> len r <= len s.
Proof.
  unfold take_int. destruct (span_digits s) as [int rest] eqn:E.
  apply span_digits_length in E. destruct int as [|d ds]; [done|].
  destruct (_ && _); [done|]. by intros [= _ <-].
Qed.

Lemma take_frac_length (s f r : string) : take_frac s = Some (f, r) -> len r <= len s.
Proof.
  unfold take_frac. destruct s as [|c s]; [by intros [= _ <-]|].
  destruct (Ascii.eqb c ".").
  - destruct (span_digits s) as [fd rest] eqn:E. apply span_digits_length in E.
    destruct fd; [done|]. intros [= _ <-]. cbn [String.length]. lia.
  - by intros [= _ <-].
Qed.

Lemma take_exp_length (s e r : string) : take_exp s = Some (e, r) -> len r <= len s.
Proof.
  unfold take_exp. destruct s as [|c s]; [by intros [= _ <-]|].
  destruct (_ || _); [|by intros [= _ <-]].
  assert (Hsg : forall sg r1,
             match s with
             | String c1 r' =>
                 if Ascii.eqb c1 "+" || Ascii.eqb c1 "-" then (String c1 "", r') else ("", s)
             | EmptyString => ("", s)
             end = (sg, r1) -> len r1 <= len s).
  { intros sg r1. destruct s as [|c1 r']; [by intros [= _ <-]|].
    destruct (_ || _); intros [= _ <-]; cbn [String.length]; lia. }
  destruct (match s with String _ _ => _ | EmptyString => _ end) as [sg r1].
  specialize (Hsg sg r1 eq_refl).
  destruct (span_digits r1) as [ed rest] eqn:E. apply span_digits_length in E.
  destruct ed; [done|]. intros [= _ <-]. cbn [String.length]. lia.
Qed.

Lemma parse_number_length (s n r : string) :
  parse_number s = Some (n, r) -> len r <= len s.
Proof.
  unfold parse_number. destruct (take_sign s) as [sg s1] eqn:E1.
  apply take_sign_length in E1.
  destruct (take_int s1) as [[i s2]|] eqn:E2; [|done]. apply take_int_length in E2.
  destruct (take_frac s2) as [[f s3]|] eqn:E3; [|done]. apply take_frac_length in E3.
  destruct (take_exp s3) as [[e s4]|] eqn:E4; [|done]. apply take_exp_length in E4.
  intros [= _ <-]. lia.
Qed.

Ltac rest_lengths :=
  repeat match goal with
         | H : skip_ws ?x = _ |- _ =>
             let L := fresh "L" in
             pose proof (skip_ws_length x) as L; rewrite H in L; clear H
         | H : parse_string_body _ = Some _ |- _ => apply parse_string_body_length in H
         | H : strip_prefix _ _ = Some _ |- _ => apply strip_prefix_length in H
         | H : parse_number _ = Some _ |- _ => apply parse_number_length in H
         | H : context [String.length (skip_ws ?x)] |- _ =>
             let L := fresh "L" in
             pose proof (skip_ws_length x) as L; generalize dependent (skip_ws x); intros
         end;
  cbn [String.length] in *.

(** What a parser leaves is not longer than what it was given. *)
Lemma parse_lengths (fuel : nat) :
  (forall s v r, parse_value fuel s = Some (v, r) -> len r <= len s)
  /\ (forall s kvs r, parse_members fuel s = Some (kvs, r) -> len r <= len s)
  /\ (forall s xs r, parse_elements fuel s = Some (xs, r) -> len r <= len s).
Proof.
  induction fuel as [|fuel (IHv & IHm & IHe)]; [done|].
  split; [|split]; intros s ? r H.
  - cbn [parse_value] in H.
    repeat case_match; simplify_eq;
      repeat match goal with
             | H : parse_members _ _ = Some _ |- _ => apply IHm in H
             | H : parse_elements _ _ = Some _ |- _ => apply IHe in H
             end; rest_lengths; lia.
  - cbn [parse_members] in H.
    repeat case_match; simplify_eq;
      repeat match goal with
             | H : parse_members _ _ = Some _ |- _ => apply IHm in H
             | H : parse_value _ _ = Some _ |- _ => apply IHv in H
             end; rest_lengths; lia.
  - cbn [parse_elements] in H.
    repeat case_match; simplify_eq;
      repeat match goal with
             | H : parse_elements _ _ = Some _ |- _ => apply IHe in H
             | H : parse_value _ _ = Some _ |- _ => apply IHv in H
             end; rest_lengths; lia.
Qed.

(** Beyond twice the length of the text, more fuel changes nothing. *)
Lemma parse_fuel (fuel : nat) :
  forall fuel',
    (forall s, 2 * len s + 1 <= fuel -> 2 * len s + 1 <= fuel' ->
               parse_value fuel s = parse_value fuel' s)
    /\ (forall s, 2 * len s + 1 <= fuel -> 2 * len s + 1 <= fuel' ->
                  parse_members fuel s = parse_members fuel' s)
    /\ (forall s, 2 * len s + 2 <= fuel -> 2 * len s + 2 <= fuel' ->
                  parse_elements fuel s = parse_elements fuel' s).
Proof.
  induction fuel as [|fuel IH]; intros fuel'.
  { split; [|split]; intros s H; lia. }
  destruct fuel' as [|fuel'].
  { split; [|split]; intros s _ H; lia. }
  destruct (IH fuel') as (IHv & IHm & IHe).
  destruct (parse_lengths fuel') as (Lv & _ & _).
  split; [|split]; intros s Hf Hf'.
  - cbn [parse_value].
    destruct (skip_ws s) as [|c r] eqn:E; [done|].
    destruct (Ascii.eqb c "{").
    { destruct (skip_ws r) as [|c1 r1] eqn:E1; [done|].
      destruct (Ascii.eqb c1 "}"); [done|].
      rewrite (IHm (String c1 r1)); [done|rest_lengths; lia..]. }
    destruct (Ascii.eqb c "[").
    { destruct (skip_ws r) as [|c1 r1] eqn:E1; [done|].
      destruct (Ascii.eqb c1 "]"); [done|].
      rewrite (IHe (String c1 r1)); [done|rest_lengths; lia..]. }
    done.
  - cbn [parse_members].
    destruct s as [|c r]; [done|]. destruct (Ascii.eqb c dquote); [|done].
    destruct (parse_string_body r) as [[k r1]|] eqn:E; [|done].
    destruct (skip_ws r1) as [|c1 r2] eqn:E1; [done|].
    destruct (Ascii.eqb c1 ":"); [|done].
    rewrite (IHv r2) by (rest_lengths; lia).
    destruct (parse_value fuel' r2) as [[v r3]|] eqn:E2; [|done]. apply Lv in E2.
    destruct (skip_ws r3) as [|c2 r4] eqn:E3; [done|].
    destruct (Ascii.eqb c2 ","); [|done].
    pose proof (skip_ws_length r4).
    rewrite (IHm (skip_ws r4)); [done|rest_lengths; lia..].
  - cbn [parse_elements].
    rewrite (IHv s) by lia.
    destruct (parse_value fuel' s) as [[v r1]|] eqn:E; [|done]. apply Lv in E.
    destruct (skip_ws r1) as [|c r2] eqn:E1; [done|].
    destruct (Ascii.eqb c ","); [|done].
    rewrite (IHe r2); [done|rest_lengths; lia..].
Qed.

(** [JSON_parse] does not depend on its fuel: any larger amount gives the
    same value, or the same failure. *)
Lemma JSON_parse_fuel (s : string) (fuel : nat) :
  2 * len s < fuel -> parse_value fuel s = parse_value (S (2 * len s)) s.
Proof. intros H. apply (parse_fuel fuel (S (2 * len s))); lia. Qed.

End ParseFuel.

(** ** Reply extraction *)

Section ReplyExtraction.

Lemma join_empty_sep_cons (x : string) (l : list string) :
  join "" (x :: l) = x +:+ join "" l.
Proof.
  destruct l as [|y l]; simpl; [|done].
  induction x as [|c x IH]; simpl; [done|]. by rewrite <- IH.
Qed.

Lemma join_nonempty_texts (ps : list Part) :
  join "" (omap nonempty_text ps)
  = foldr String.append "" (map (fun p => default "" (part_text p)) ps).
Proof.
  induction ps as [|p ps IH]; [done|].
  cbn [omap list_omap map foldr]. unfold nonempty_text at 1.
  destruct (part_text p) as [t|]; cbn [default from_option].
  - destruct (String.eqb_spec t "") as [->|_]; cbv beta iota; [exact IH|].
    by rewrite join_empty_sep_cons, IH.
  - exact IH.
Qed.

Lemma omap_nonempty_nil (ps : list Part) :
  omap nonempty_text ps = []
  <-> all_empty (map (fun p => default "" (part_text p)) ps) = true.
Proof.
  induction ps as [|p ps IH]; [done|].
  cbn [omap list_omap map all_empty forallb]. unfold nonempty_text at 1.
  destruct (part_text p) as [t|]; simpl.
  - destruct t as [|c t]; simpl; [exact IH|]. split; discriminate.
  - exact IH.
Qed.

End ReplyExtraction.

(** C9, as amended: the reply text is the in-order concatenation of the
    text-typed fragments whenever one of them is not empty; when all of them
    are empty (or there is none) it is the serialization of the fallback
    field if that field is present and truthy, and [null] otherwise. *)
Theorem extractResultText_policy (response : AssistantResponse) :
  extractResultText response =
    if all_empty (text_fragments response) then
      match fallback_field response with
      | Some v => if js_truthy v then Some (JSON_stringify v) else None
      | None => None
      end
    else Some (foldr String.append "" (text_fragments response)).
Proof.
  unfold extractResultText, text_fragments, fallback_field.
  destruct (parts response) as [ps|]; simpl.
  - destruct (omap nonempty_text (filter (fun p => is_text_part p = true) ps))
      as [|t ts] eqn:E.
    + apply omap_nonempty_nil in E as ->.
      by destruct (info response) as [i|].
    + destruct (all_empty _) eqn:A.
      { apply omap_nonempty_nil in A. congruence. }
      by rewrite <- E, join_nonempty_texts.
  - by destruct (info response) as [i|].
Qed.

(** C9 as stated fails: a response whose only text fragment is empty and
    that carries a fallback field yields the fallback, not the (empty)
    concatenation. *)
Lemma extractResultText_empty_fragment :
  let response :=
    {| info := Some {| structured_output := Some (JObject [("a", JNumber "1")]) |};
       parts := Some [{| part_type := "text"; part_text := Some "" |}] |} in
  text_fragments response = [""]
  /\ extraction_policy response = Some ""
  /\ extractResultText response = Some (json_text "{'a':1}")
  /\ extractResultText response <> extraction_policy response.
Proof. repeat split; try reflexivity. discriminate. Qed.

(** ** The order of [sort] *)

Lemma lex_leb_total (a b : list N) : lex_leb a b = true \/ lex_leb b a = true.
Proof.
  revert b. induction a as [|x a IH]; intros [|y b]; cbn [lex_leb]; try tauto.
  destruct (N.ltb_spec x y), (N.ltb_spec y x); try tauto. apply IH.
Qed.

Lemma lex_leb_trans (a b c : list N) :
  lex_leb a b = true -> lex_leb b c = true -> lex_leb a c = true.
Proof.
  revert b c. induction a as [|x a IH]; intros [|y b] [|z c]; cbn [lex_leb]; try done.
  destruct (N.ltb_spec x y), (N.ltb_spec y x), (N.ltb_spec y z), (N.ltb_spec z y),
    (N.ltb_spec x z), (N.ltb_spec z x); try done; try lia.
  apply IH.
Qed.

#[local] Instance js_le_total : Total js_le.
Proof. intros a b. apply lex_leb_total. Qed.

#[local] Instance js_le_trans : Transitive js_le.
Proof. intros a b c. apply lex_leb_trans. Qed.

(** ** Mailbox: [drainIpcInput] *)

Section Drain.

Lemma consume_file_dir (dir : gmap string string) (file : string) :
  (consume_file dir file).2 = delete file dir.
Proof.
  unfold consume_file. destruct (dir !! file) as [text|] eqn:E.
  - destruct (JSON_parse text) as [data|]; [|done].
    destruct data; try done;
      destruct (get_prop _ "type") as [[]|]; try done;
      destruct (field_string _ "text"); try done;
      by destruct (_ && _).
  - simpl. symmetry. by apply delete_id.
Qed.

Lemma consume_file_deliverable (dir : gmap string string) (file text : string) :
  dir !! file = Some text -> deliverable text = true ->
  exists t, message_text text = Some t /\ consume_file dir file = (Some t, delete file dir).
Proof.
  intros E D. unfold deliverable in D. unfold consume_file. rewrite E.
  destruct (message_text text) as [t|] eqn:M; [|done]. exists t. split; [done|].
  unfold message_text in M.
  destruct (JSON_parse text) as [[| | | | |members]|]; try done.
  unfold field_string. cbn [get_prop].
  destruct (lookup_member "type" members) as [[| | |ty| |]|]; try done.
  destruct (lookup_member "text" members) as [[| | |t'| |]|]; try done.
  destruct (String.eqb ty "message"); [|done].
  assert (t' = t) as -> by congruence. by rewrite D.
Qed.

Lemma consume_files_dir (files : list string) (dir : gmap string string) (k : string) :
  (consume_files dir files).2 !! k = if decide (k ∈ files) then None else dir !! k.
Proof.
  revert dir. induction files as [|f files IH]; intros dir; cbn [consume_files].
  - by rewrite decide_False by set_solver.
  - pose proof (consume_file_dir dir f) as Hf.
    destruct (consume_file dir f) as [m dir1]. simpl in Hf. subst dir1.
    specialize (IH (delete f dir)).
    destruct (consume_files (delete f dir) files) as [ms dir2]. simpl in *.
    rewrite IH. destruct (decide (k ∈ files)) as [Hin|Hin].
    + by rewrite decide_True by set_solver.
    + destruct (decide (k = f)) as [->|Hne].
      * rewrite decide_True by set_solver. apply lookup_delete_eq.
      * rewrite decide_False; [by apply lookup_delete_ne|].
        rewrite elem_of_cons. by intros [|].
Qed.

Lemma consume_files_deliverable (dir0 : gmap string string) (files : list string)
    (dir : gmap string string) :
  NoDup files ->
  (forall f, f ∈ files -> dir !! f = dir0 !! f) ->
  (forall f, f ∈ files -> exists text, dir0 !! f = Some text /\ deliverable text = true) ->
  Forall2 (fun name t => exists text, dir0 !! name = Some text /\ message_text text = Some t)
          files (consume_files dir files).1.
Proof.
  revert dir. induction files as [|f files IH]; intros dir ND Hagree Hok.
  - constructor.
  - apply NoDup_cons in ND as [Hnotin ND]. cbn [consume_files].
    destruct (Hok f) as (text & Hlook & Hdel); [set_solver|].
    destruct (consume_file_deliverable dir f text) as (t & Hm & ->);
      [by rewrite Hagree by set_solver | done |].
    specialize (IH (delete f dir) ND).
    destruct (consume_files (delete f dir) files) as [ms dir2]. simpl in *.
    constructor; [by exists text|].
    apply IH.
    + intros g Hg. rewrite lookup_delete_ne by set_solver. apply Hagree. set_solver.
    + intros g Hg. apply Hok. set_solver.
Qed.

Lemma message_names_spec (dir : gmap string string) (name : string) :
  name ∈ sort_names (filter (fun f => endsWith f ".json" = true) (readdirSync dir))
  <-> endsWith name ".json" = true /\ is_Some (dir !! name).
Proof.
  unfold sort_names, readdirSync. rewrite merge_sort_Permutation.
  rewrite list_elem_of_filter, list_elem_of_fmap. split.
  - intros (Hn & [k text] & -> & Hin). split; [done|].
    apply elem_of_map_to_list in Hin. by exists text.
  - intros (Hn & text & Hl). split; [done|]. exists (name, text).
    split; [done|]. by apply elem_of_map_to_list.
Qed.

Lemma message_names_NoDup (dir : gmap string string) :
  NoDup (sort_names (filter (fun f => endsWith f ".json" = true) (readdirSync dir))).
Proof.
  unfold sort_names, readdirSync. rewrite merge_sort_Permutation.
  apply NoDup_filter, NoDup_fst_map_to_list.
Qed.

End Drain.

(** C4, as amended: in an inbox whose message files (names ending in
    [.json]) are all well-formed with a text that is not empty, one call of
    [drainIpcInput] returns the payloads of exactly these files, in the order
    [sort] gives their names (by UTF-16 code units), removes every one of
    them, and leaves the other files as they were. *)
Theorem drainIpcInput_delivers_in_order (d : FS) :
  map_Forall (fun name text => is_message_name name = true -> deliverable text = true)
             (ipc_input d) ->
  exists names : list string,
    names ≡ₚ filter (fun f => is_message_name f = true) (readdirSync (ipc_input d))
    /\ StronglySorted js_le names
    /\ NoDup names
    /\ Forall2 (fun name t =>
                  exists text, ipc_input d !! name = Some text /\ message_text text = Some t)
               names (drainIpcInput d).1
    /\ length (drainIpcInput d).1 = length names
    /\ (forall name, is_message_name name = true ->
          ipc_input (drainIpcInput d).2 !! name = None)
    /\ (forall name, is_message_name name = false ->
          ipc_input (drainIpcInput d).2 !! name = ipc_input d !! name).
Proof.
  intros Hwf.
  set (names := sort_names (filter (fun f => endsWith f ".json" = true)
                                   (readdirSync (ipc_input d)))).
  assert (Hmsgs : Forall2 (fun name t =>
             exists text, ipc_input d !! name = Some text /\ message_text text = Some t)
             names (consume_files (ipc_input d) names).1).
  { apply consume_files_deliverable; [apply message_names_NoDup | done |].
    intros f [Hn [text Hl]]%message_names_spec. exists text. split; [done|].
    by apply (Hwf f text). }
  assert (Hdir : forall k, (consume_files (ipc_input d) names).2 !! k
                           = if decide (k ∈ names) then None else ipc_input d !! k).
  { intros k. apply consume_files_dir. }
  assert (Hdrain : drainIpcInput d
            = ((consume_files (ipc_input d) names).1,
               set_ipc_input (fun _ => (consume_files (ipc_input d) names).2) d)).
  { unfold drainIpcInput. fold names. by destruct (consume_files (ipc_input d) names). }
  rewrite Hdrain. cbn [fst snd set_ipc_input ipc_input].
  exists names. split; [apply merge_sort_Permutation|].
  split; [apply StronglySorted_merge_sort; apply _|].
  split; [apply message_names_NoDup|].
  split; [done|].
  split; [symmetry; by eapply Forall2_length|].
  split; intros name Hn; rewrite Hdir.
  - destruct (decide (name ∈ names)) as [|Hnot]; [done|].
    destruct (ipc_input d !! name) as [text|] eqn:E; [|done].
    exfalso. apply Hnot. apply message_names_spec. by split; [|exists text].
  - rewrite decide_False; [done|]. intros [Hn' _]%message_names_spec.
    unfold is_message_name in Hn. congruence.
Qed.

Lemma drainIpcInput_delivers_in_order_witness :
  exists names : list string,
    names ≡ₚ filter (fun f => is_message_name f = true) (readdirSync (ipc_input inbox_two))
    /\ StronglySorted js_le names
    /\ NoDup names
    /\ Forall2 (fun name t =>
                  exists text, ipc_input inbox_two !! name = Some text
                               /\ message_text text = Some t)
               names (drainIpcInput inbox_two).1
    /\ length (drainIpcInput inbox_two).1 = length names
    /\ (forall name, is_message_name name = true ->
          ipc_input (drainIpcInput inbox_two).2 !! name = None)
    /\ (forall name, is_message_name name = false ->
          ipc_input (drainIpcInput inbox_two).2 !! name = ipc_input inbox_two !! name).
Proof.
  apply (drainIpcInput_delivers_in_order inbox_two).
  apply (bool_decide_unpack _). vm_compute. exact I.
Defined.

(** The order is the one of the code units, not of the code points: a name
    that starts with U+1F600, whose first unit is the surrogate D83D, comes
    before a name that starts with U+E000. *)
Example sort_names_by_code_units :
  let beyond := String "240" (String "159" (String "152" (String "128" ".json"))) in
  let private := String "238" (String "128" (String "128" ".json")) in
  utf16_units beyond = [55357; 56832; 46; 106; 115; 111; 110]%N
  /\ utf16_units private = [57344; 46; 106; 115; 111; 110]%N
  /\ sort_names [private; beyond; "b.json"; "B.json"] = ["B.json"; "b.json"; beyond; private].
Proof. by vm_compute. Qed.

Example drainIpcInput_two :
  (drainIpcInput inbox_two).1 = ["first"; "second"]
  /\ map_to_list (ipc_input (drainIpcInput inbox_two).2) = [("notes.txt", "kept")].
Proof. by vm_compute. Qed.

(** C4 as stated fails: a message file of the stated shape whose text is
    empty is removed but its payload is not returned. *)
Lemma drainIpcInput_drops_empty_text :
  map_to_list (ipc_input inbox_empty_text)
    = [("1700000001-a.json", json_text "{'type':'message','text':''}")]
  /\ message_text (json_text "{'type':'message','text':''}") = Some ""
  /\ (drainIpcInput inbox_empty_text).1 = []
  /\ length (drainIpcInput inbox_empty_text).1 <> 1
  /\ ipc_input (drainIpcInput inbox_empty_text).2 = ∅.
Proof. by vm_compute. Qed.

(** ** Frame facts of the orchestrator *)

Section Frames.

Lemma foldl_emit_stdout (f : string -> Event) (l : list string) (w : World) :
  stdout (foldl (fun acc x => emit (f x) acc) w l) = stdout w.
Proof. revert w. induction l as [|x l IH]; intros w; simpl; [done|]. by rewrite IH. Qed.

Lemma foldl_emit_events (f : string -> Event) (l : list string) (w : World) :
  events (foldl (fun acc x => emit (f x) acc) w l) = events w ++ map f l.
Proof.
  revert w. induction l as [|x l IH]; intros w; simpl.
  - by rewrite app_nil_r.
  - rewrite IH. simpl. by rewrite <- app_assoc.
Qed.

Lemma pollIpcDuringQuery_stdout sid ticks p c w :
  stdout (pollIpcDuringQuery sid ticks p c w).2 = stdout w.
Proof.
  revert p c w. induction ticks as [|hw ticks IH]; intros p c w; simpl; [done|].
  destruct p; simpl.
  - destruct (shouldClose _) as [[] d].
    + by rewrite IH.
    + destruct (drainIpcInput d) as [ms d1]. rewrite IH.
      by rewrite foldl_emit_stdout.
  - by rewrite IH.
Qed.

Lemma pollIpcDuringQuery_stopped sid ticks c w :
  (pollIpcDuringQuery sid ticks false c w).1 = c
  /\ events (pollIpcDuringQuery sid ticks false c w).2 = events w.
Proof.
  revert w. induction ticks as [|hw ticks IH]; intros w; simpl; [done|].
  destruct (IH (set_fs (host_writes hw) w)) as [-> ->]. done.
Qed.

(** Until the poller sees the sentinel it only forwards messages; when it
    sees it, it records the observation, aborts, and stops. *)
Lemma pollIpcDuringQuery_events sid ticks c w :
  exists new,
    events (pollIpcDuringQuery sid ticks true c w).2 = events w ++ new
    /\ ((pollIpcDuringQuery sid ticks true c w).1 = c /\ CloseObserved ∉ new
        \/ (pollIpcDuringQuery sid ticks true c w).1 = true
           /\ exists a, new = a ++ [CloseObserved; SessionAbort sid] /\ CloseObserved ∉ a).
Proof.
  revert c w. induction ticks as [|hw ticks IH]; intros c w; simpl.
  - exists []. rewrite app_nil_r. split; [done|]. left. split; [done|]. by intros ?%elem_of_nil.
  - destruct (shouldClose _) as [[] d].
    + destruct (pollIpcDuringQuery_stopped sid ticks true
                  (emit (SessionAbort sid)
                     (emit CloseObserved (set_fs (fun _ => d) (set_fs (host_writes hw) w)))))
        as [-> ->].
      exists [CloseObserved; SessionAbort sid]. simpl. rewrite <- app_assoc. split; [done|].
      right. split; [done|]. exists []. split; [done|]. by intros ?%elem_of_nil.
    + destruct (drainIpcInput d) as [ms d1].
      destruct (IH c (foldl (fun acc text => emit (SessionForward sid text) acc)
                        (set_fs (fun _ => d1) (set_fs (host_writes hw) w)) ms))
        as (new & -> & Hnew).
      rewrite foldl_emit_events. simpl.
      exists (map (fun text => SessionForward sid text) ms ++ new).
      rewrite app_assoc. split; [done|].
      assert (Hfw : CloseObserved ∉ map (fun text => SessionForward sid text) ms).
      { intros (t & Heq & _)%list_elem_of_fmap. discriminate. }
      destruct Hnew as [[-> Hno]|[-> (a & -> & Hno)]].
      * left. split; [done|]. rewrite elem_of_app. tauto.
      * right. split; [done|].
        exists (map (fun text => SessionForward sid text) ms ++ a).
        rewrite app_assoc. split; [done|]. rewrite elem_of_app. tauto.
Qed.

Lemma report_events sid r w : events (report sid r w) = events w.
Proof.
  unfold report. destruct r as [res|m]; [|done].
  destruct (data res); [done|]. destruct (prompt_error res) as [err|]; [|done].
  by destruct (js_truthy err).
Qed.

Lemma waitForIpcMessage_stdout later w :
  stdout (waitForIpcMessage later w).2 = stdout w.
Proof.
  revert w. induction later as [|hw later IH]; intros w; simpl;
    destruct (shouldClose (fs w)) as [[] d]; try done;
    destruct (drainIpcInput d) as [[|m ms] d1]; try done.
  by rewrite IH.
Qed.

Lemma waitForIpcMessage_events later w :
  events (waitForIpcMessage later w).2
  = events w ++ match (waitForIpcMessage later w).1 with
                | Close => [CloseObserved]
                | _ => []
                end.
Proof.
  revert w. induction later as [|hw later IH]; intros w; simpl;
    destruct (shouldClose (fs w)) as [[] d]; try done;
    destruct (drainIpcInput d) as [[|m ms] d1]; simpl; try by rewrite app_nil_r.
  by rewrite IH.
Qed.

End Frames.

(** ** The query loop *)

Section QueryLoop.

Lemma runQuery_events sid prompt t w :
  exists new,
    events (runQuery sid prompt t w).2 = events w ++ new
    /\ ((runQuery sid prompt t w).1 = false /\ CloseObserved ∉ new
        \/ (runQuery sid prompt t w).1 = true
           /\ exists a, new = a ++ [CloseObserved; SessionAbort sid] /\ CloseObserved ∉ a).
Proof.
  unfold runQuery. destruct prompt as [text|].
  - destruct (pollIpcDuringQuery_events sid (ticks t) false
                (emit (SessionPrompt sid text false) w)) as (new & Hev & Hnew).
    destruct (pollIpcDuringQuery sid (ticks t) true false _) as [closed w2].
    cbn [fst snd] in *. rewrite report_events. cbn [set_fs events]. rewrite Hev.
    cbn [emit events]. rewrite <- app_assoc.
    exists ([SessionPrompt sid text false] ++ new). split; [done|].
    destruct Hnew as [[-> Hno]|[-> (a & -> & Hno)]].
    + left. split; [done|]. rewrite elem_of_app, list_elem_of_singleton.
      intros [?|?]; [discriminate|done].
    + right. split; [done|]. exists ([SessionPrompt sid text false] ++ a).
      split; [by rewrite <- app_assoc|].
      rewrite elem_of_app, list_elem_of_singleton.
      intros [?|?]; [discriminate|done].
  - exists []. cbn. rewrite app_nil_r. split; [done|]. left. split; [done|].
    by intros ?%elem_of_nil.
Qed.

Lemma closing_trace_open (a : list Event) : CloseObserved ∉ a -> closing_trace a.
Proof. intros H. exists a, []. by rewrite app_nil_r. Qed.

Lemma closing_trace_app (a new : list Event) :
  CloseObserved ∉ a -> closing_trace new -> closing_trace (a ++ new).
Proof.
  intros Ha (a' & b & -> & Ha' & Hb). exists (a ++ a'), b.
  rewrite app_assoc. split; [done|]. split; [|done]. rewrite elem_of_app. tauto.
Qed.

Lemma closing_trace_snoc (new : list Event) (ev : Event) :
  starts_turn ev = false -> closing_trace new -> closing_trace (new ++ [ev]).
Proof.
  intros Hev (a & b & -> & Ha & Hb). exists a, (b ++ [ev]).
  rewrite app_assoc. split; [done|]. split; [done|].
  apply Forall_app. split; [done|]. by constructor.
Qed.

Lemma first_close_in_tail (l b pre post : list Event) :
  CloseObserved ∉ l -> l ++ b = pre ++ CloseObserved :: post ->
  exists b1, b = b1 ++ CloseObserved :: post.
Proof.
  revert pre. induction l as [|x l IH]; intros pre Hopen Heq; simpl in Heq.
  - by exists pre.
  - destruct pre as [|y pre]; simpl in Heq.
    + exfalso. apply Hopen. assert (x = CloseObserved) as -> by congruence. by left.
    + apply (IH pre); [|congruence]. intros H. apply Hopen. by right.
Qed.

(** Whatever follows an observation of the sentinel in a closing trace
    submits nothing. *)
Lemma closing_trace_after (base new pre post : list Event) :
  CloseObserved ∉ base -> closing_trace new ->
  base ++ new = pre ++ CloseObserved :: post ->
  Forall (fun ev => starts_turn ev = false) post.
Proof.
  intros Hbase (a & b & -> & Ha & Hb). rewrite app_assoc. intros Heq.
  apply first_close_in_tail in Heq as (b1 & ->); [|rewrite elem_of_app; tauto].
  apply Forall_app in Hb as [_ Hb]. by apply Forall_cons in Hb as [_ Hb].
Qed.

Lemma query_loop_events script sid prompt msgs w :
  exists new,
    events (query_loop script sid prompt msgs w).2 = events w ++ new
    /\ closing_trace new.
Proof.
  revert prompt msgs w. induction script as [|t script IH]; intros prompt msgs w.
  - exists []. cbn. rewrite app_nil_r. split; [done|]. apply closing_trace_open.
    by intros ?%elem_of_nil.
  - cbn [query_loop].
    destruct (runQuery_events sid prompt t w) as (new & Hev & Hnew).
    destruct (runQuery sid prompt t w) as [closed w1]. cbn [fst snd] in *.
    destruct Hnew as [[-> Hno]|[-> (a & -> & Hno)]].
    + pose proof (waitForIpcMessage_events (idle t)
                    (writeOutput {| status := success; result := None;
                                    newSessionId := Some sid; error := None |} w1)) as Hw.
      destruct (waitForIpcMessage (idle t) _) as [[| nextMessage |] w3];
        cbn [fst snd] in *; cbn [writeOutput events] in Hw.
      * exists (new ++ [CloseObserved]). rewrite Hw, Hev, <- app_assoc. split; [done|].
        exists new, [CloseObserved]. split; [done|]. split; [done|]. by repeat constructor.
      * destruct (IH (Some nextMessage)
                    (msgs ++ [{| role := user; content := prompt |}]) w3)
          as (new' & -> & Hnew').
        exists (new ++ new'). rewrite Hw, Hev, app_nil_r, <- app_assoc. split; [done|].
        by apply closing_trace_app.
      * exists new. rewrite Hw, Hev, app_nil_r. split; [done|].
        by apply closing_trace_open.
    + exists (a ++ [CloseObserved; SessionAbort sid]). split; [done|].
      exists a, [CloseObserved; SessionAbort sid]. split; [done|]. split; [done|].
      by repeat constructor.
Qed.

(** The loop only ever appends user turns to [conversationMessages]. *)
Lemma query_loop_roles script sid prompt msgs w :
  Forall (fun m => role m = user) msgs ->
  Forall (fun m => role m = user) (query_loop script sid prompt msgs w).1.2.
Proof.
  revert prompt msgs w. induction script as [|t script IH]; intros prompt msgs w Hm;
    assert (Hm' : Forall (fun m => role m = user)
                    (msgs ++ [{| role := user; content := prompt |}]))
      by (apply Forall_app; split; [done|by repeat constructor]).
  - done.
  - cbn [query_loop]. destruct (runQuery sid prompt t w) as [[] w1]; [done|].
    destruct (waitForIpcMessage (idle t) _) as [[| nextMessage |] w3]; try done.
    by apply IH.
Qed.

(** The first thing an iteration does is to record the prompt. *)
Lemma query_loop_record script sid prompt msgs w :
  exists rest,
    (query_loop script sid prompt msgs w).1.2
    = msgs ++ {| role := user; content := prompt |} :: rest.
Proof.
  revert prompt msgs w. induction script as [|t script IH]; intros prompt msgs w.
  - by exists [].
  - cbn [query_loop]. destruct (runQuery sid prompt t w) as [[] w1]; [by exists []|].
    destruct (waitForIpcMessage (idle t) _) as [[| nextMessage |] w3];
      try by exists [].
    destruct (IH (Some nextMessage) (msgs ++ [{| role := user; content := prompt |}]) w3)
      as (rest & ->).
    exists ({| role := user; content := Some nextMessage |} :: rest).
    by rewrite <- app_assoc.
Qed.

End QueryLoop.

(** ** The shape of a run *)

Section RunShape.

Lemma open_session_frame e containerInput w :
  stdout (open_session e containerInput w).2 = stdout w
  /\ exists a, events (open_session e containerInput w).2 = events w ++ a
               /\ CloseObserved ∉ a.
Proof.
  unfold open_session.
  destruct (match field_string containerInput "sessionId" with
            | Some i => if String.eqb i "" then None else Some i
            | None => None
            end) as [i|].
  - destruct (session_get e) as [[s|]|m]; cbn.
    + split; [done|]. exists [SessionGet i]. split; [done|].
      rewrite list_elem_of_singleton. discriminate.
    + destruct (session_create e) as [[s|]|m]; cbn; (split; [done|]);
        exists [SessionGet i; SessionCreate
                  ("nanoclaw-" +:+ js_string (field_string containerInput "groupFolder"))];
        (split; [by rewrite <- app_assoc|]);
        rewrite !elem_of_cons; intros [?|[?|?%elem_of_nil]]; done.
    + destruct (session_create e) as [[s|]|m']; cbn; (split; [done|]);
        exists [SessionGet i; SessionCreate
                  ("nanoclaw-" +:+ js_string (field_string containerInput "groupFolder"))];
        (split; [by rewrite <- app_assoc|]);
        rewrite !elem_of_cons; intros [?|[?|?%elem_of_nil]]; done.
  - destruct (session_create e) as [[s|]|m]; cbn; (split; [done|]);
      exists [SessionCreate
                ("nanoclaw-" +:+ js_string (field_string containerInput "groupFolder"))];
      (split; [done|]); rewrite list_elem_of_singleton; discriminate.
Qed.

(** A run after its input has been read either ends with an exception that
    nothing handles, before the query loop, or it is the query loop followed
    by [teardown]. *)
Lemma run_session_inv e containerInput w :
  (exit (run_session e containerInput w) = Exited 1
   /\ archived (run_session e containerInput w) = None
   /\ stdout (final (run_session e containerInput w)) = stdout w
   /\ exists a, events (final (run_session e containerInput w)) = events w ++ a
                /\ CloseObserved ∉ a)
  \/ exists sid pending w7 a,
       events w7 = events w ++ a /\ (CloseObserved ∉ a) /\ stdout w7 = stdout w
       /\ run_session e containerInput w
          = teardown e containerInput
              (query_loop (turns e) sid (initial_prompt containerInput pending) [] w7).
Proof.
  unfold run_session.
  set (w2 := prepare_workspace e containerInput w).
  set (start := CreateOpencode (or_else (OPENCODE_MODEL (process_env e)) default_model)).
  assert (Hstart : CloseObserved ∉ [start]) by (rewrite list_elem_of_singleton; discriminate).
  destruct (server_start e) as [[]|m].
  2:{ left. cbn. repeat split. by exists [start]. }
  destruct (open_session_frame e containerInput (emit start w2)) as (Hout & a & Hev & Ha).
  destruct (open_session e containerInput (emit start w2)) as [[sid|m] w4];
    cbn [fst snd] in *.
  2:{ left. cbn. rewrite Hout, Hev. cbn. repeat split.
      exists ([start] ++ a). rewrite <- app_assoc. split; [done|].
      rewrite elem_of_app. tauto. }
  assert (Hopen : CloseObserved ∉ [start] ++ a) by (rewrite elem_of_app; tauto).
  assert (Hev4 : events w4 = events w ++ [start] ++ a)
    by (rewrite Hev; cbn; by rewrite <- app_assoc).
  assert (Hout4 : stdout w4 = stdout w) by (by rewrite Hout).
  clear Hev Hout.
  assert (Hloop : forall w5 extra,
            events w5 = events w4 ++ extra -> CloseObserved ∉ extra ->
            stdout w5 = stdout w ->
            exists sid' pending w7 a',
              events w7 = events w ++ a' /\ (CloseObserved ∉ a') /\ stdout w7 = stdout w
              /\ (let w6 := set_fs (host_writes (startup_writes e)) w5 in
                  let '(pending, d) := drainIpcInput (fs w6) in
                  let w7 := set_fs (fun _ => d) w6 in
                  teardown e containerInput
                    (query_loop (turns e) sid (initial_prompt containerInput pending) [] w7))
                 = teardown e containerInput
                     (query_loop (turns e) sid' (initial_prompt containerInput pending) [] w7)).
  { intros w5 extra Hev5 Hextra Hout5. cbv zeta.
    destruct (drainIpcInput (fs (set_fs (host_writes (startup_writes e)) w5)))
      as [pending d].
    exists sid, pending, (set_fs (fun _ => d) (set_fs (host_writes (startup_writes e)) w5)),
      (([start] ++ a) ++ extra).
    cbn [set_fs events stdout]. rewrite Hev5, Hev4, <- !app_assoc.
    repeat split; [|done].
    rewrite !elem_of_app in *. tauto. }
  destruct (buildSystemContext (fs w4)) as [ctx|].
  - destruct (String.eqb ctx "").
    + right. apply (Hloop w4 []); [by rewrite app_nil_r|by intros ?%elem_of_nil|done].
    + destruct (context_prompt e) as [[]|m].
      * right. apply (Hloop _ [SessionPrompt sid ctx true]); [done| |done].
        rewrite list_elem_of_singleton. discriminate.
      * left. cbn. rewrite Hev4, Hout4. repeat split.
        exists (([start] ++ a) ++ [SessionPrompt sid ctx true]).
        rewrite <- !app_assoc. split; [done|].
        rewrite app_assoc, elem_of_app, list_elem_of_singleton.
        intros [?|?]; [done|discriminate].
  - right. apply (Hloop w4 []); [by rewrite app_nil_r|by intros ?%elem_of_nil|done].
Qed.

End RunShape.

(** ** Input *)

(** C2, as amended: a standard-input document that does not parse as JSON,
    or that is the JSON value [null], makes the process emit exactly one
    error envelope without session identifier and end with status 1, before
    any call to the engine. *)
Theorem unparsable_input_rejected (stdin : string) (e : Env) (w : World) :
  (exists m, JSON_parse stdin = Throw m) \/ JSON_parse stdin = Normal JNull ->
  exists message,
    stdout (final (main stdin e w))
    = stdout w ++ output_lines {| status := failure; result := None; newSessionId := None;
                                  error := Some ("Failed to parse input: " +:+ message) |}
    /\ exit (main stdin e w) = Exited 1
    /\ events (final (main stdin e w)) = events w
    /\ archived (main stdin e w) = None.
Proof.
  unfold main, read_input. intros [[m ->]| ->]; eexists; cbn; repeat split.
Qed.

Lemma unparsable_input_rejected_witness :
  exists message,
    stdout (final (main "{prompt:" (env_of []) world0))
    = stdout world0 ++ output_lines {| status := failure; result := None;
                                       newSessionId := None;
                                       error := Some ("Failed to parse input: " +:+ message) |}
    /\ exit (main "{prompt:" (env_of []) world0) = Exited 1
    /\ events (final (main "{prompt:" (env_of []) world0)) = events world0
    /\ archived (main "{prompt:" (env_of []) world0) = None.
Proof.
  apply (unparsable_input_rejected "{prompt:" (env_of []) world0).
  left. eexists. vm_compute. reflexivity.
Defined.

(** C2 as stated fails: a document that parses but lacks [groupFolder] is not
    rejected; a session is created and the prompt is submitted. *)
Lemma missing_field_not_rejected :
  lacks_required_field (json_text "{'prompt':'hi'}")
  /\ events (final (main (json_text "{'prompt':'hi'}") env_reply_then_close world0))
     = [CreateOpencode default_model; SessionCreate "nanoclaw-undefined";
        SessionPrompt "s1" "hi" false; CloseObserved; ServerClose]
  /\ exit (main (json_text "{'prompt':'hi'}") env_reply_then_close world0) = Exited 0
  /\ ~ input_rejected world0 (main (json_text "{'prompt':'hi'}") env_reply_then_close world0).
Proof.
  split; [|split; [|split]].
  - eexists. split; [vm_compute; reflexivity|]. by right.
  - by vm_compute.
  - by vm_compute.
  - intros (_ & _ & Hev). vm_compute in Hev. discriminate.
Qed.

(** ** Exit status *)

(** X20: the process ends with status 0 exactly when it came to the teardown,
    that is, when a record was handed to [archiveConversation]. *)
Lemma exit_zero_iff_teardown (stdin : string) (e : Env) (w : World) :
  exit (main stdin e w) = Exited 0 <-> is_Some (archived (main stdin e w)).
Proof.
  unfold main. destruct (read_input stdin w) as [[containerInput|m] w1].
  - destruct (run_session_inv e containerInput w1)
      as [(-> & -> & _)|(sid & pending & w7 & a & _ & _ & _ & ->)].
    + split; [discriminate|by intros [? ?]].
    + unfold teardown. destruct (query_loop _ _ _ _ _) as [[[] msgs] w8]; cbn.
      * split; [by eexists|done].
      * split; [discriminate|by intros [? ?]].
  - cbn. split; [discriminate|by intros [? ?]].
Qed.

(** C3 fails on the code: the input parses, the engine cannot create the
    session, and the process ends with status 1 without an envelope and
    without teardown. *)
Theorem session_create_failure_exits_nonzero :
  (exists members, JSON_parse hello_input = Normal (JObject members))
  /\ exit (main hello_input env_create_fails world0) = Exited 1
  /\ stdout (final (main hello_input env_create_fails world0)) = []
  /\ archived (main hello_input env_create_fails world0) = None
  /\ events (final (main hello_input env_create_fails world0))
     = [CreateOpencode default_model; SessionCreate "nanoclaw-g1"].
Proof.
  split; [eexists; vm_compute; reflexivity|]. by vm_compute.
Qed.

(** ** The conversation record *)

(** X21: every entry of the record handed to the archiver is a user turn. *)
Lemma record_holds_only_user_turns (stdin : string) (e : Env) (w : World)
    (msgs : list ParsedMessage) :
  archived (main stdin e w) = Some msgs -> Forall (fun m => role m = user) msgs.
Proof.
  unfold main. destruct (read_input stdin w) as [[containerInput|m] w1]; [|done].
  destruct (run_session_inv e containerInput w1)
    as [(_ & -> & _)|(sid & pending & w7 & a & _ & _ & _ & ->)]; [done|].
  pose proof (query_loop_roles (turns e) sid (initial_prompt containerInput pending) [] w7
                (Forall_nil_2 _)) as Hroles.
  unfold teardown. destruct (query_loop _ _ _ _ _) as [[[] msgs'] w8]; cbn in *; [|done].
  by intros [= <-].
Qed.

(** C1 fails on the code: the engine answers [hi], the success envelope
    carries the reply, and the record handed to the archiver holds the user
    turn only. *)
Theorem successful_reply_not_recorded :
  stdout (final (main hello_input env_reply_then_close world0))
  = output_lines {| status := success; result := Some "hi";
                    newSessionId := Some "s1"; error := None |}
    ++ output_lines (heartbeat "s1")
  /\ archived (main hello_input env_reply_then_close world0)
     = Some [{| role := user; content := Some "hello" |}]
  /\ exit (main hello_input env_reply_then_close world0) = Exited 0.
Proof. by vm_compute. Qed.

(** ** Failed turns *)

Lemma report_failure sid r w desc :
  failure_description r = Some desc ->
  report sid r w
  = writeOutput {| status := failure; result := None; newSessionId := Some sid;
                   error := Some desc |} w.
Proof.
  unfold failure_description, report. destruct r as [res|m].
  - destruct (data res); [done|]. destruct (prompt_error res) as [err|]; [|done].
    destruct (js_truthy err); [|done]. by intros [= <-].
  - by intros [= <-].
Qed.

(** C5, as amended: a turn whose foreground call fails emits exactly one
    error envelope, with null text, the session identifier and the failure
    description.  Unless the poller consumed the close sentinel during that
    turn, the loop then emits the heartbeat and waits for the next mailbox
    message; if it did, the loop is left for the teardown. *)
Theorem failed_turn_is_reported (sid text : string) (t : Turn) (rest : list Turn)
    (msgs : list ParsedMessage) (w : World) (desc : string) :
  failure_description (reply t) = Some desc ->
  let turn := runQuery sid (Some text) t w in
  let msgs' := msgs ++ [{| role := user; content := Some text |}] in
  stdout turn.2
  = stdout w ++ output_lines {| status := failure; result := None;
                                newSessionId := Some sid; error := Some desc |}
  /\ (turn.1 = false ->
      query_loop (t :: rest) sid (Some text) msgs w
      = match waitForIpcMessage (idle t) (writeOutput (heartbeat sid) turn.2) with
        | (Close, w3) => (true, msgs', w3)
        | (Waiting, w3) => (false, msgs', w3)
        | (Message nextMessage, w3) => query_loop rest sid (Some nextMessage) msgs' w3
        end)
  /\ (turn.1 = true ->
      query_loop (t :: rest) sid (Some text) msgs w = (true, msgs', turn.2)).
Proof.
  intros Hfail turn msgs'. split; [|split].
  - subst turn. unfold runQuery.
    pose proof (pollIpcDuringQuery_stdout sid (ticks t) true false
                  (emit (SessionPrompt sid text false) w)) as Hout.
    destruct (pollIpcDuringQuery sid (ticks t) true false _) as [closed w2].
    cbn [fst snd] in *. rewrite (report_failure _ _ _ desc Hfail).
    cbn [writeOutput stdout set_fs]. by rewrite Hout.
  - intros Hopen. cbn [query_loop]. fold turn.
    destruct turn as [closed w1]. cbn [fst snd] in *. subst closed. done.
  - intros Hclosed. cbn [query_loop]. fold turn.
    destruct turn as [closed w1]. cbn [fst snd] in *. subst closed. done.
Qed.

Lemma failed_turn_is_reported_witness :
  let t := {| ticks := []; late_writes := []; reply := Rejected "socket hang up";
              idle := [] |} in
  let turn := runQuery "s1" (Some "hello") t world0 in
  let msgs' := [] ++ [{| role := user; content := Some "hello" |}] in
  stdout turn.2
  = stdout world0 ++ output_lines {| status := failure; result := None;
                                     newSessionId := Some "s1";
                                     error := Some "socket hang up" |}
  /\ (turn.1 = false ->
      query_loop (t :: []) "s1" (Some "hello") [] world0
      = match waitForIpcMessage (idle t) (writeOutput (heartbeat "s1") turn.2) with
        | (Close, w3) => (true, msgs', w3)
        | (Waiting, w3) => (false, msgs', w3)
        | (Message nextMessage, w3) => query_loop [] "s1" (Some nextMessage) msgs' w3
        end)
  /\ (turn.1 = true ->
      query_loop (t :: []) "s1" (Some "hello") [] world0 = (true, msgs', turn.2)).
Proof.
  apply (failed_turn_is_reported "s1" "hello"
           {| ticks := []; late_writes := []; reply := Rejected "socket hang up";
              idle := [] |} [] [] world0 "socket hang up").
  reflexivity.
Defined.

(** C5 as stated fails: when the sentinel arrives during the turn whose call
    fails, the error envelope is the last output and the process ends; the
    loop does not wait for another message. *)
Lemma failed_turn_after_close_exits :
  failure_description (reply {| ticks := [close_request]; late_writes := [];
                                reply := Rejected "The operation was aborted";
                                idle := [] |})
  = Some "The operation was aborted"
  /\ stdout (final (main hello_input env_close_during_first_turn world0))
     = output_lines {| status := failure; result := None; newSessionId := Some "s1";
                       error := Some "The operation was aborted" |}
  /\ exit (main hello_input env_close_during_first_turn world0) = Exited 0
  /\ exit (main hello_input env_close_during_first_turn world0) <> StillRunning.
Proof. by vm_compute. Qed.

(** ** The close sentinel *)

(** C6: when the sentinel exists as [waitForIpcMessage] is called, the call
    returns [null] at its first poll and the sentinel is gone afterwards,
    the other files being untouched; and in every run no turn is started
    after the sentinel has been observed. *)
Theorem close_sentinel_ends_session :
  (forall (later : list HostWrites) (w : World) (text : string),
      ipc_input (fs w) !! IPC_INPUT_CLOSE_SENTINEL = Some text ->
      (waitForIpcMessage later w).1 = Close
      /\ ipc_input (fs (waitForIpcMessage later w).2) !! IPC_INPUT_CLOSE_SENTINEL = None
      /\ ipc_input (fs (waitForIpcMessage later w).2)
         = delete IPC_INPUT_CLOSE_SENTINEL (ipc_input (fs w))
      /\ events (waitForIpcMessage later w).2 = events w ++ [CloseObserved])
  /\ (forall (stdin : string) (e : Env) (w : World) (pre post : list Event),
        CloseObserved ∉ events w ->
        events (final (main stdin e w)) = pre ++ CloseObserved :: post ->
        Forall (fun ev => starts_turn ev = false) post).
Proof.
  split.
  - intros later w text Hs.
    assert (Hw : waitForIpcMessage later w
                 = (Close, emit CloseObserved
                             (set_fs (fun _ => set_ipc_input (delete IPC_INPUT_CLOSE_SENTINEL)
                                                 (fs w)) w))).
    { destruct later; cbn [waitForIpcMessage]; unfold shouldClose; by rewrite Hs. }
    rewrite Hw. cbn. split; [done|]. split; [apply lookup_delete_eq|done].
  - intros stdin e w pre post Hfresh Hev.
    assert (Hshape : exists new, events (final (main stdin e w)) = events w ++ new
                                 /\ closing_trace new).
    { unfold main. destruct (read_input stdin w) as [[containerInput|m] w1] eqn:Hread.
      - assert (Hw1 : events w1 = events w).
        { unfold read_input in Hread. destruct (JSON_parse stdin) as [v|]; [|congruence].
          destruct v; injection Hread as _ <-; done. }
        destruct (run_session_inv e containerInput w1)
          as [(_ & _ & _ & a & Ha & Hno)|(sid & pending & w7 & a & Hev7 & Hno & _ & ->)].
        + exists a. rewrite Ha, Hw1. split; [done|]. by apply closing_trace_open.
        + destruct (query_loop_events (turns e) sid
                      (initial_prompt containerInput pending) [] w7) as (new & Hq & Hnew).
          unfold teardown.
          destruct (query_loop _ _ _ _ _) as [[[] msgs] w8]; cbn [fst snd] in *; cbn.
          * exists ((a ++ new) ++ [ServerClose]).
            rewrite Hq, Hev7, Hw1, <- !app_assoc. split; [done|].
            rewrite app_assoc. apply closing_trace_snoc; [done|].
            by apply closing_trace_app.
          * exists (a ++ new). rewrite Hq, Hev7, Hw1, <- !app_assoc. split; [done|].
            by apply closing_trace_app.
      - assert (Hw1 : events w1 = events w).
        { unfold read_input in Hread. destruct (JSON_parse stdin) as [v|].
          - destruct v; injection Hread as _ <-; done.
          - by injection Hread as _ <-. }
        exists []. cbn. rewrite Hw1, app_nil_r. split; [done|].
        apply closing_trace_open. by intros ?%elem_of_nil. }
    destruct Hshape as (new & Hnew & Hclosing). rewrite Hnew in Hev.
    by eapply closing_trace_after.
Qed.

Lemma close_sentinel_ends_session_witness :
  let w := set_fs (host_writes close_request) world0 in
  ((waitForIpcMessage [] w).1 = Close
   /\ ipc_input (fs (waitForIpcMessage [] w).2) !! IPC_INPUT_CLOSE_SENTINEL = None
   /\ ipc_input (fs (waitForIpcMessage [] w).2)
      = delete IPC_INPUT_CLOSE_SENTINEL (ipc_input (fs w))
   /\ events (waitForIpcMessage [] w).2 = events w ++ [CloseObserved])
  /\ Forall (fun ev => starts_turn ev = false) [ServerClose].
Proof.
  split.
  - apply (proj1 close_sentinel_ends_session [] _ ""). reflexivity.
  - apply (proj2 close_sentinel_ends_session hello_input env_reply_then_close world0
             [CreateOpencode default_model; SessionCreate "nanoclaw-g1";
              SessionPrompt "s1" "hello" false] [ServerClose]).
    + apply not_elem_of_nil.
    + vm_compute. reflexivity.
Defined.

(** ** Archiving *)

(** C7, as amended: archiving an empty record leaves the filesystem as it
    is.  A run never hands an empty record to the archiver: the record it
    hands over starts with the user turn of the first prompt, also when the
    session is closed during its first turn. *)
Theorem archive_empty_record_is_noop :
  (forall (now : Clock) (assistantName summary : option string) (d : FS),
      archiveConversation now [] assistantName summary d = d)
  /\ (forall (stdin : string) (e : Env) (w : World) (msgs : list ParsedMessage),
        archived (main stdin e w) = Some msgs ->
        exists prompt rest, msgs = {| role := user; content := prompt |} :: rest).
Proof.
  split; [done|].
  intros stdin e w msgs. unfold main.
  destruct (read_input stdin w) as [[containerInput|m] w1]; [|done].
  destruct (run_session_inv e containerInput w1)
    as [(_ & -> & _)|(sid & pending & w7 & a & _ & _ & _ & ->)]; [done|].
  destruct (query_loop_record (turns e) sid (initial_prompt containerInput pending) [] w7)
    as (rest & Hrec).
  unfold teardown. destruct (query_loop _ _ _ _ _) as [[[] msgs'] w8]; cbn in *; [|done].
  intros [= <-]. by exists (initial_prompt containerInput pending), rest.
Qed.

Lemma archive_empty_record_is_noop_witness :
  archiveConversation clock0 [] None None empty_fs = empty_fs
  /\ exists prompt rest,
       [{| role := user; content := Some "hello" |}]
       = {| role := user; content := prompt |} :: rest.
Proof.
  split.
  - apply (proj1 archive_empty_record_is_noop).
  - apply (proj2 archive_empty_record_is_noop hello_input env_close_during_first_turn world0).
    vm_compute. reflexivity.
Defined.

(** C7 as stated fails: a run closed during its first turn, before any turn
    completes, still writes a transcript, which holds the prompt. *)
Lemma immediate_close_still_archives :
  archived (main hello_input env_close_during_first_turn world0)
  = Some [{| role := user; content := Some "hello" |}]
  /\ conversations (fs world0) = ∅
  /\ map_to_list (conversations (fs (final (main hello_input env_close_during_first_turn
                                              world0))))
     = [("2026-02-03-conversation-0905.md",
         join LF ["# Conversation"; ""; "Archived: Feb 3, 9:05 AM"; ""; "---"; "";
                  "**User**: hello"; ""])]
  /\ conversations (fs (final (main hello_input env_close_during_first_turn world0)))
     <> conversations (fs world0).
Proof.
  split; [by vm_compute|]. split; [done|]. split; [by vm_compute|].
  intros H. apply (f_equal map_to_list) in H. vm_compute in H. discriminate.
Qed.

(** ** Startup *)

(** C10: once the input has been read, the sentinel left by an earlier run
    is removed before the engine is started, without being recorded as a
    close request; the whole run is the run from an inbox without it. *)
Theorem stale_sentinel_is_discarded (stdin : string) (e : Env) (w : World)
    (text : string) (containerInput : json) :
  JSON_parse stdin = Normal containerInput ->
  containerInput <> JNull ->
  let stale := set_fs (set_ipc_input <[IPC_INPUT_CLOSE_SENTINEL := text]>) w in
  let clean := set_fs (set_ipc_input (delete IPC_INPUT_CLOSE_SENTINEL)) w in
  ipc_input (fs (prepare_workspace e containerInput stale)) !! IPC_INPUT_CLOSE_SENTINEL = None
  /\ events (prepare_workspace e containerInput stale) = events w
  /\ main stdin e stale = main stdin e clean.
Proof.
  intros Hparse Hnull stale clean. split; [apply lookup_delete_eq|]. split; [done|].
  assert (Hprep : forall w', prepare_workspace e containerInput
                               (set_fs remove_tmp_input
                                  (set_fs (set_ipc_input <[IPC_INPUT_CLOSE_SENTINEL := text]>) w'))
                             = prepare_workspace e containerInput
                                 (set_fs remove_tmp_input
                                    (set_fs (set_ipc_input (delete IPC_INPUT_CLOSE_SENTINEL)) w'))).
  { intros w'. unfold prepare_workspace, set_fs, set_ipc_input, writeOpencodeConfig,
      remove_tmp_input. cbn. by rewrite delete_insert_eq, delete_delete_eq. }
  unfold main, read_input. rewrite Hparse.
  destruct containerInput; try done; unfold run_session; subst stale clean;
    by rewrite Hprep.
Qed.

Lemma stale_sentinel_is_discarded_witness :
  let stale := set_fs (set_ipc_input <[IPC_INPUT_CLOSE_SENTINEL := ""]>) world0 in
  let clean := set_fs (set_ipc_input (delete IPC_INPUT_CLOSE_SENTINEL)) world0 in
  ipc_input (fs (prepare_workspace env_reply_then_close
                   (JObject [("prompt", JString "hello")]) stale))
    !! IPC_INPUT_CLOSE_SENTINEL = None
  /\ events (prepare_workspace env_reply_then_close
               (JObject [("prompt", JString "hello")]) stale) = events world0
  /\ main (json_text "{'prompt':'hello'}") env_reply_then_close stale
     = main (json_text "{'prompt':'hello'}") env_reply_then_close clean.
Proof.
  apply (stale_sentinel_is_discarded (json_text "{'prompt':'hello'}") env_reply_then_close
           world0 "" (JObject [("prompt", JString "hello")])).
  - vm_compute. reflexivity.
  - discriminate.
Defined.

Example stale_sentinel_first_turn :
  events (final (main hello_input env_reply_then_close
                   (set_fs (set_ipc_input <[IPC_INPUT_CLOSE_SENTINEL := ""]>) world0)))
  = [CreateOpencode default_model; SessionCreate "nanoclaw-g1";
     SessionPrompt "s1" "hello" false; CloseObserved; ServerClose].
Proof. by vm_compute. Qed.

(** ** Output framing *)

Section RoundTrip.

Lemma string_app_assoc (a b c : string) : (a +:+ b) +:+ c = a +:+ (b +:+ c).
Proof. induction a as [|x a IH]; simpl; [done|]. by rewrite IH. Qed.

Lemma string_app_length (a b : string) :
  String.length (a +:+ b) = String.length a + String.length b.
Proof. induction a as [|x a IH]; simpl; [done|]. by rewrite IH. Qed.

Lemma strip_prefix_app (p r : string) : strip_prefix p (p +:+ r) = Some r.
Proof.
  induction p as [|x p IH]; simpl; [by destruct r|]. by rewrite Ascii.eqb_refl.
Qed.

(** One step of [parse_string_body], for each kind of character text. *)
Lemma parse_plain_char (c : ascii) (t : string) :
  Ascii.eqb c dquote = false -> Ascii.eqb c backslash = false ->
  (N_of_ascii c <? 32)%N = false ->
  parse_string_body (String c t)
  = match parse_string_body t with
    | Some (s, rest) => Some (String c s, rest)
    | None => None
    end.
Proof. intros H1 H2 H3. cbn [parse_string_body]. by rewrite H1, H2, H3. Qed.

Lemma parse_simple_escape (e ch : ascii) (t : string) :
  Ascii.eqb e "u" = false -> unescape e = Some ch ->
  parse_string_body (String backslash (String e t))
  = match parse_string_body t with
    | Some (s, rest) => Some (String ch s, rest)
    | None => None
    end.
Proof. intros H1 H2. cbn [parse_string_body]. cbn. by rewrite H1, H2. Qed.

Lemma parse_unicode_escape (h1 h2 h3 h4 : ascii) (cu : N) (t : string) :
  hex4 h1 h2 h3 h4 = Some cu -> is_high_surrogate cu = false ->
  parse_string_body
    (String backslash (String "u" (String h1 (String h2 (String h3 (String h4 t))))))
  = match parse_string_body t with
    | Some (s, rest) => Some (utf8_encode cu +:+ s, rest)
    | None => None
    end.
Proof.
  intros H Hs. cbn [parse_string_body].
  change (Ascii.eqb backslash dquote) with false.
  change (Ascii.eqb backslash backslash) with true.
  change (Ascii.eqb "u" "u") with true. cbv iota zeta. rewrite H, Hs.
  by destruct t as [|? [|? [|? [|? [|? [|? ?]]]]]].
Qed.

Lemma escape_reads_back_all (c : ascii) : escape_reads_back c = true.
Proof. destruct c as [[] [] [] [] [] [] [] []]; vm_compute; reflexivity. Qed.

Lemma parse_escape_char (c : ascii) (t s rest : string) :
  parse_string_body t = Some (s, rest) ->
  parse_string_body (escape_char c +:+ t) = Some (String c s, rest).
Proof.
  intros H. pose proof (escape_reads_back_all c) as Hc. unfold escape_reads_back in Hc.
  destruct (escape_char c) as [|a [|e [|h1 [|h2 [|h3 [|h4 [|]]]]]]]; try done;
    rewrite !andb_true_iff, ?negb_true_iff in Hc.
  - destruct Hc as (((->%Ascii.eqb_eq & Hq) & Hb) & Hn).
    cbn [String.append]. rewrite parse_plain_char by done. by rewrite H.
  - destruct Hc as ((->%Ascii.eqb_eq & Hu) & Hch).
    destruct (unescape e) as [ch|] eqn:Hun; [|done]. apply Ascii.eqb_eq in Hch as ->.
    cbn [String.append]. rewrite (parse_simple_escape e c) by done. by rewrite H.
  - destruct Hc as ((->%Ascii.eqb_eq & ->%Ascii.eqb_eq) & Hcu).
    destruct (hex4 h1 h2 h3 h4) as [cu|] eqn:Hhex; [|done].
    rewrite andb_true_iff, negb_true_iff in Hcu. destruct Hcu as [Hcu Hhigh].
    apply String.eqb_eq in Hcu. cbn [String.append].
    rewrite (parse_unicode_escape h1 h2 h3 h4 cu) by done. by rewrite H, Hcu.
Qed.

Lemma parse_escape (s rest : string) :
  parse_string_body (escape s +:+ String dquote rest) = Some (s, rest).
Proof.
  induction s as [|c s IH]; [done|].
  cbn [escape]. rewrite string_app_assoc. by apply parse_escape_char.
Qed.

Lemma quote_app (s rest : string) :
  quote s +:+ rest = String dquote (escape s +:+ String dquote rest).
Proof. unfold quote. cbn [String.append]. by rewrite string_app_assoc. Qed.

Lemma parse_value_ws (fuel : nat) (c : ascii) (s : string) :
  is_ws c = true -> parse_value fuel (String c s) = parse_value fuel s.
Proof. intros H. destruct fuel; [done|]. cbn [parse_value skip_ws]. by rewrite H. Qed.

Lemma parse_value_flat (v : json) (fuel : nat) (rest : string) :
  flat v -> 0 < fuel -> parse_value fuel (JSON_stringify v +:+ rest) = Some (v, rest).
Proof.
  intros Hv Hfuel. destruct fuel as [|fuel]; [lia|].
  destruct v as [| | |s| |]; try done.
  cbn [JSON_stringify]. rewrite quote_app. cbn. by rewrite parse_escape.
Qed.

Lemma join_cons2 (sep x : string) (l : list string) :
  l <> [] -> join sep (x :: l) = x +:+ sep +:+ join sep l.
Proof. by destruct l. Qed.

Lemma members_text_head (kvs : list (string * json)) (x : string) :
  kvs <> [] ->
  exists r, join "," (map member_text kvs) +:+ x = String dquote r.
Proof.
  destruct kvs as [|m [|m' kvs]]; [done| |]; intros _; cbn [map join];
    unfold member_text at 1; rewrite ?string_app_assoc, quote_app; by eexists.
Qed.

(** One member: its key, the colon, its value, and what follows the value. *)
Lemma parse_members_step (fuel : nat) (k : string) (r2 : string) :
  parse_members (S fuel) (quote k +:+ ":" +:+ r2)
  = match parse_value fuel r2 with
    | Some (v, r3) =>
        match skip_ws r3 with
        | String c2 r4 =>
            if Ascii.eqb c2 "," then
              match parse_members fuel (skip_ws r4) with
              | Some (kvs, r5) => Some ((k, v) :: kvs, r5)
              | None => None
              end
            else if Ascii.eqb c2 "}" then Some ([(k, v)], r4)
            else None
        | EmptyString => None
        end
    | None => None
    end.
Proof.
  rewrite quote_app. cbn [parse_members]. cbn [Ascii.eqb Bool.eqb dquote].
  by rewrite parse_escape.
Qed.

Lemma parse_members_flat (kvs : list (string * json)) (fuel : nat) (rest : string) :
  kvs <> [] -> Forall (fun m => flat m.2) kvs -> length kvs < fuel ->
  parse_members fuel (join "," (map member_text kvs) +:+ String "}" rest)
  = Some (kvs, rest).
Proof.
  revert fuel. induction kvs as [|[k v] kvs IH]; [done|]. intros fuel _ Hflat Hfuel.
  apply Forall_cons in Hflat as [Hv Hflat]. cbn [snd] in Hv. cbn [length] in Hfuel.
  destruct fuel as [|fuel]; [lia|].
  destruct kvs as [|m' kvs].
  - cbn [map join]. unfold member_text. cbn [fst snd].
    rewrite !string_app_assoc, parse_members_step.
    rewrite parse_value_flat by (done || lia). by cbn.
  - destruct (members_text_head (m' :: kvs) (String "}" rest)) as [r Hr]; [done|].
    specialize (IH fuel). rewrite Hr in IH.
    change (map member_text ((k, v) :: m' :: kvs))
      with (member_text (k, v) :: map member_text (m' :: kvs)).
    rewrite join_cons2 by done. unfold member_text at 1. cbn [fst snd].
    rewrite !string_app_assoc, parse_members_step.
    rewrite parse_value_flat by (done || lia).
    cbn [String.append skip_ws is_ws Ascii.eqb Bool.eqb orb]. rewrite Hr.
    cbn [skip_ws is_ws Ascii.eqb Bool.eqb orb dquote].
    rewrite IH; [done|done|done|]. cbn [length] in *. lia.
Qed.

Lemma parse_value_flat_object (kvs : list (string * json)) (fuel : nat) (rest : string) :
  kvs <> [] -> Forall (fun m => flat m.2) kvs -> S (length kvs) < fuel ->
  parse_value fuel (JSON_stringify (JObject kvs) +:+ rest) = Some (JObject kvs, rest).
Proof.
  intros Hne Hflat Hfuel. destruct fuel as [|fuel]; [lia|].
  cbn [JSON_stringify]. change (fun m : string * json => _) with member_text.
  rewrite !string_app_assoc.
  destruct (members_text_head kvs (String "}" rest)) as [r Hr]; [done|].
  pose proof (parse_members_flat kvs fuel rest Hne Hflat) as Hm.
  cbn [String.append] in *. rewrite Hr in *.
  cbn [parse_value skip_ws is_ws Ascii.eqb Bool.eqb orb dquote].
  rewrite Hm; [done|lia].
Qed.

Lemma members_text_length (kvs : list (string * json)) :
  length kvs <= String.length (join "," (map member_text kvs)).
Proof.
  induction kvs as [|[k v] kvs IH]; [done|].
  assert (Hm : 1 <= String.length (member_text (k, v))).
  { unfold member_text, quote. cbn [fst String.append String.length]. lia. }
  destruct kvs as [|m' kvs].
  - cbn [map join length]. lia.
  - change (map member_text ((k, v) :: m' :: kvs))
      with (member_text (k, v) :: map member_text (m' :: kvs)).
    rewrite join_cons2 by done. rewrite !string_app_length. cbn [length] in *. lia.
Qed.

(** [JSON.parse] reads back what [JSON.stringify] wrote for an object of
    strings and nulls, between line feeds. *)
Lemma JSON_parse_flat_object (kvs : list (string * json)) :
  kvs <> [] -> Forall (fun m => flat m.2) kvs ->
  JSON_parse (LF +:+ JSON_stringify (JObject kvs) +:+ LF) = Normal (JObject kvs).
Proof.
  intros Hne Hflat. unfold JSON_parse.
  change (LF +:+ JSON_stringify (JObject kvs) +:+ LF)
    with (String newline (JSON_stringify (JObject kvs) +:+ LF)).
  rewrite parse_value_ws by done.
  rewrite parse_value_flat_object; [done|done|done|].
  cbn [String.length JSON_stringify].
  change (fun m : string * json => _) with member_text.
  rewrite !string_app_length. pose proof (members_text_length kvs).
  cbn [String.length]. lia.
Qed.

Lemma output_of_json_of_output (o : ContainerOutput) :
  output_of_json (json_of_output o) = Some o.
Proof. by destruct o as [[] [r|] [i|] [e|]]. Qed.

Lemma json_of_output_flat (o : ContainerOutput) :
  exists kvs, json_of_output o = JObject kvs /\ kvs <> []
              /\ Forall (fun m => flat m.2) kvs.
Proof.
  destruct o as [st [r|] [i|] [e|]]; eexists; (split; [reflexivity|]);
    (split; [done|]); by repeat constructor.
Qed.

Lemma split_on_here (m s r : string) :
  strip_prefix m s = Some r -> split_on m s = Some ("", r).
Proof. intros H. destruct s; cbn [split_on]; by rewrite H. Qed.

Lemma split_on_next (m : string) (c : ascii) (s : string) :
  strip_prefix m (String c s) = None ->
  split_on m (String c s)
  = match split_on m s with
    | Some (before, rest) => Some (String c before, rest)
    | None => None
    end.
Proof. intros H. cbn [split_on]. by rewrite H. Qed.

Lemma strip_prefix_none_ext (m s x : string) (c : ascii) :
  strip_prefix m s = None -> has_char c m = false ->
  strip_prefix m (s +:+ String c x) = None.
Proof.
  revert s. induction m as [|a m IH]; intros s Hs Hc; [by destruct s|].
  cbn [has_char] in Hc. apply orb_false_elim in Hc as [Hac Hc].
  destruct s as [|b s]; cbn [String.append strip_prefix] in *.
  - by rewrite Hac.
  - destruct (Ascii.eqb a b); [by apply IH|done].
Qed.

(** The first occurrence of a literal that holds no line feed, after a text
    in which it does not occur and the line feed that ends it. *)
Lemma split_on_enclosed (m J x : string) :
  m <> "" -> has_char newline m = false -> occurs m J = false ->
  split_on m (J +:+ LF +:+ m +:+ x) = Some (J +:+ LF, x).
Proof.
  intros Hm Hnl. induction J as [|c J IH]; intros Hocc.
  - cbn [String.append LF]. rewrite split_on_next.
    + by rewrite (split_on_here m (m +:+ x) x (strip_prefix_app m x)).
    + destruct m as [|a m]; [done|]. cbn [has_char] in Hnl.
      apply orb_false_elim in Hnl as [Ha _]. cbn [strip_prefix]. by rewrite Ha.
  - unfold occurs in Hocc. cbn [split_on] in Hocc.
    destruct (strip_prefix m (String c J)) as [r|] eqn:Hpre; [done|].
    assert (HJ : occurs m J = false).
    { unfold occurs. by destruct (split_on m J) as [[b r]|]. }
    change (String c J +:+ LF +:+ m +:+ x) with (String c (J +:+ LF +:+ m +:+ x)).
    rewrite split_on_next.
    + by rewrite (IH HJ).
    + change (String c (J +:+ LF +:+ m +:+ x))
        with (String c J +:+ String newline (m +:+ x)).
      by apply strip_prefix_none_ext.
Qed.

End RoundTrip.

(** C8, as amended: an envelope whose serialization does not contain the
    end-marker literal is reproduced by splitting the stream that
    [writeOutput] wrote on the two marker literals and JSON-decoding the
    enclosed line. *)
Theorem output_round_trip (o : ContainerOutput) :
  occurs OUTPUT_END_MARKER (JSON_stringify (json_of_output o)) = false ->
  host_parse (stream_text (output_lines o)) = Some o.
Proof.
  intros Hocc. unfold host_parse, output_lines. cbn [stream_text].
  rewrite (split_on_here OUTPUT_START_MARKER _ _ (strip_prefix_app _ _)).
  change (LF +:+ ?x) with (String newline x).
  rewrite split_on_next by done.
  rewrite (split_on_enclosed OUTPUT_END_MARKER _ (LF +:+ "")) by done.
  destruct (json_of_output_flat o) as (kvs & Hkvs & Hne & Hflat).
  pose proof (output_of_json_of_output o) as Hback.
  rewrite Hkvs in *.
  change (String newline (JSON_stringify (JObject kvs) +:+ LF))
    with (LF +:+ JSON_stringify (JObject kvs) +:+ LF).
  by rewrite JSON_parse_flat_object.
Qed.

Lemma output_round_trip_witness :
  host_parse (stream_text (output_lines (heartbeat (String dquote (String newline "\x")))))
  = Some (heartbeat (String dquote (String newline "\x"))).
Proof.
  apply (output_round_trip (heartbeat (String dquote (String newline "\x")))).
  vm_compute. reflexivity.
Defined.

(** C8 as stated fails: an envelope whose text holds the end-marker literal
    is cut short by the split, and what is enclosed no longer decodes. *)
Lemma output_round_trip_marker_in_text :
  output_lines marker_output
  = [OUTPUT_START_MARKER;
     json_text "{'status':'success','result':'---NANOCLAW_OUTPUT_END---','newSessionId':'s1'}";
     OUTPUT_END_MARKER]
  /\ host_parse (stream_text (output_lines marker_output)) = None
  /\ host_parse (stream_text (output_lines marker_output)) <> Some marker_output.
Proof. by vm_compute. Qed.

(** A reader that matches whole marker lines is not affected: it reproduces
    every envelope. *)
Section LineReader.

Lemma has_char_app (c : ascii) (a b : string) :
  has_char c (a +:+ b) = has_char c a || has_char c b.
Proof. induction a as [|x a IH]; [done|]. cbn. by rewrite IH, orb_assoc. Qed.

Lemma escape_char_no_newline (c : ascii) : has_char newline (escape_char c) = false.
Proof. destruct c as [[] [] [] [] [] [] [] []]; vm_compute; reflexivity. Qed.

Lemma escape_no_newline (s : string) : has_char newline (escape s) = false.
Proof.
  induction s as [|c s IH]; [done|].
  cbn [escape]. by rewrite has_char_app, escape_char_no_newline, IH.
Qed.

Lemma quote_no_newline (s : string) : has_char newline (quote s) = false.
Proof.
  unfold quote. cbn [has_char]. by rewrite has_char_app, escape_no_newline.
Qed.

Lemma flat_object_no_newline (kvs : list (string * json)) :
  Forall (fun m => flat m.2) kvs ->
  has_char newline (JSON_stringify (JObject kvs)) = false.
Proof.
  intros Hflat. cbn [JSON_stringify]. change (fun m : string * json => _) with member_text.
  rewrite !has_char_app.
  change (has_char newline "{") with false. change (has_char newline "}") with false.
  rewrite orb_false_r. cbn [orb].
  assert (Hm : forall m, flat m.2 -> has_char newline (member_text m) = false).
  { intros [k v] Hv. unfold member_text. cbn [fst snd] in *.
    rewrite !has_char_app, quote_no_newline.
    change (has_char newline ":") with false. cbn [orb].
    destruct v; try done. apply quote_no_newline. }
  induction Hflat as [|m kvs Hv Hflat IH]; [done|].
  destruct kvs as [|m' kvs]; [by apply Hm|].
  change (map member_text (m :: m' :: kvs))
    with (member_text m :: map member_text (m' :: kvs)).
  rewrite join_cons2 by done. rewrite !has_char_app, Hm by done.
  change (has_char newline ",") with false. exact IH.
Qed.

Lemma lines_app (a r : string) :
  has_char newline a = false -> lines (a +:+ LF +:+ r) = a :: lines r.
Proof.
  induction a as [|c a IH]; intros Ha; [done|].
  cbn [has_char] in Ha. apply orb_false_elim in Ha as [Hc Ha].
  cbn [String.append lines]. rewrite Hc. by rewrite (IH Ha).
Qed.

Lemma string_app_nil_r (a : string) : a +:+ "" = a.
Proof. induction a as [|c a IH]; [done|]. cbn. by rewrite IH. Qed.

Lemma JSON_parse_flat_object_line (kvs : list (string * json)) :
  kvs <> [] -> Forall (fun m => flat m.2) kvs ->
  JSON_parse (JSON_stringify (JObject kvs)) = Normal (JObject kvs).
Proof.
  intros Hne Hflat. unfold JSON_parse.
  rewrite <- (string_app_nil_r (JSON_stringify (JObject kvs))) at 2.
  rewrite parse_value_flat_object; [done|done|done|].
  cbn [JSON_stringify]. change (fun m : string * json => _) with member_text.
  rewrite !string_app_length. pose proof (members_text_length kvs).
  cbn [String.length]. lia.
Qed.

Lemma output_round_trip_by_lines (o : ContainerOutput) :
  host_parse_lines (stream_text (output_lines o)) = Some o.
Proof.
  unfold host_parse_lines, output_lines. cbn [stream_text].
  destruct (json_of_output_flat o) as (kvs & Hkvs & Hne & Hflat).
  pose proof (output_of_json_of_output o) as Hback. rewrite Hkvs in *.
  rewrite (lines_app OUTPUT_START_MARKER) by done.
  rewrite (lines_app (JSON_stringify (JObject kvs))) by (by apply flat_object_no_newline).
  rewrite (lines_app OUTPUT_END_MARKER) by done.
  cbn [framed_line]. rewrite !String.eqb_refl.
  by rewrite JSON_parse_flat_object_line.
Qed.

End LineReader.

(** * Further properties *)

(** ** Mailbox *)

Section MailboxFacts.

Lemma consume_file_any (dir : gmap string string) (file text : string) :
  dir !! file = Some text ->
  consume_file dir file = (accepted_text text, delete file dir).
Proof.
  intros E. unfold consume_file, accepted_text, message_text. rewrite E.
  destruct (JSON_parse text) as [[| | | | |members]|]; try done.
  unfold field_string. cbn [get_prop].
  destruct (lookup_member "type" members) as [[| | |ty| |]|]; try done;
    destruct (lookup_member "text" members) as [[| | |t| |]|]; try done.
  destruct (String.eqb ty "message"); [|done]. cbn [andb].
  by destruct (String.eqb t "").
Qed.

Lemma consume_files_any (dir0 : gmap string string) (files : list string)
    (dir : gmap string string) :
  NoDup files ->
  (forall f, f ∈ files -> dir !! f = dir0 !! f) ->
  (forall f, f ∈ files -> is_Some (dir0 !! f)) ->
  (consume_files dir files).1 = omap (fun name => dir0 !! name ≫= accepted_text) files.
Proof.
  revert dir. induction files as [|f files IH]; intros dir ND Hagree Hin; [done|].
  apply NoDup_cons in ND as [Hnotin ND]. cbn [consume_files omap list_omap].
  destruct (Hin f) as [text Hlook]; [by left|].
  rewrite (consume_file_any dir f text) by (rewrite Hagree; [done|by left]).
  specialize (IH (delete f dir) ND).
  destruct (consume_files (delete f dir) files) as [ms dir2]. cbn [fst] in *.
  rewrite Hlook. cbn [mbind option_bind].
  rewrite IH; [done| |].
  - intros g Hg. rewrite lookup_delete_ne; [apply Hagree; by right|].
    intros ->. done.
  - intros g Hg. apply Hin. by right.
Qed.

Lemma accepted_text_nonempty (text t : string) : accepted_text text = Some t -> t <> "".
Proof.
  unfold accepted_text. destruct (message_text text) as [t'|]; [|done].
  destruct (String.eqb_spec t' ""); [done|]. by intros [= <-].
Qed.

Lemma join_nonempty (sep x : string) (l : list string) : x <> "" -> join sep (x :: l) <> "".
Proof. destruct x; [done|]. by destruct l. Qed.

End MailboxFacts.

Lemma drainIpcInput_names (d : FS) :
  exists names : list string,
    names ≡ₚ filter (fun f => is_message_name f = true) (readdirSync (ipc_input d))
    /\ StronglySorted js_le names
    /\ (drainIpcInput d).1 = omap (fun name => ipc_input d !! name ≫= accepted_text) names
    /\ (forall name, ipc_input (drainIpcInput d).2 !! name
                     = if is_message_name name then None else ipc_input d !! name)
    /\ conversations (drainIpcInput d).2 = conversations d.
Proof.
  set (names := sort_names (filter (fun f => endsWith f ".json" = true)
                                   (readdirSync (ipc_input d)))).
  assert (Hdrain : drainIpcInput d
            = ((consume_files (ipc_input d) names).1,
               set_ipc_input (fun _ => (consume_files (ipc_input d) names).2) d)).
  { unfold drainIpcInput. fold names. by destruct (consume_files (ipc_input d) names). }
  rewrite Hdrain. cbn [fst snd set_ipc_input ipc_input conversations].
  exists names. split; [apply merge_sort_Permutation|].
  split; [apply StronglySorted_merge_sort; apply _|].
  split.
  { apply consume_files_any; [apply message_names_NoDup|done|].
    by intros f [_ ?]%message_names_spec. }
  split; [|done]. intros name. rewrite consume_files_dir. unfold is_message_name.
  destruct (decide (name ∈ names)) as [[-> _]%message_names_spec|Hnot]; [done|].
  destruct (endsWith name ".json") eqn:Hn; [|done].
  destruct (ipc_input d !! name) as [text|] eqn:E; [|done].
  exfalso. apply Hnot. apply message_names_spec. by split; [|exists text].
Qed.

(** The texts a drain returns are the accepted texts of the message files
    of the inbox. *)
Lemma drained_text_spec (d : FS) (m : string) :
  m ∈ (drainIpcInput d).1
  <-> exists name content,
        is_message_name name = true /\ ipc_input d !! name = Some content
        /\ accepted_text content = Some m.
Proof.
  destruct (drainIpcInput_names d) as (names & Hperm & _ & -> & _).
  rewrite list_elem_of_omap.
  assert (Hnames : forall name, name ∈ names
            <-> is_message_name name = true /\ is_Some (ipc_input d !! name)).
  { intros name. rewrite Hperm, list_elem_of_filter. unfold readdirSync.
    rewrite list_elem_of_fmap. split.
    - intros (Hn & [k text] & -> & Hin). split; [done|].
      apply elem_of_map_to_list in Hin. by exists text.
    - intros (Hn & text & Hl). split; [done|]. exists (name, text).
      split; [done|]. by apply elem_of_map_to_list. }
  split.
  - intros (name & [Hn [content Hl]]%Hnames & Hm). exists name, content.
    rewrite Hl in Hm. done.
  - intros (name & content & Hn & Hl & Hm). exists name. split.
    + apply Hnames. split; [done|by exists content].
    + by rewrite Hl.
Qed.

(** X1: for any inbox that follows the protocol of the mailbox (the text of
    a message file is a string), [drainIpcInput] returns the accepted texts of
    the message files in the order [sort] gives their names; a message file
    that is malformed, of another type or empty-texted is skipped; every
    message file is removed and no other file is touched. *)
Theorem drainIpcInput_any_inbox (d : FS) :
  typed_inbox d = true ->
  exists names : list string,
    names ≡ₚ filter (fun f => is_message_name f = true) (readdirSync (ipc_input d))
    /\ StronglySorted js_le names
    /\ (drainIpcInput d).1 = omap (fun name => ipc_input d !! name ≫= accepted_text) names
    /\ (forall name, ipc_input (drainIpcInput d).2 !! name
                     = if is_message_name name then None else ipc_input d !! name)
    /\ conversations (drainIpcInput d).2 = conversations d.
Proof. intros _. exact (drainIpcInput_names d). Qed.

Lemma drainIpcInput_any_inbox_witness :
  exists names : list string,
    names ≡ₚ filter (fun f => is_message_name f = true) (readdirSync (ipc_input inbox_two))
    /\ StronglySorted js_le names
    /\ (drainIpcInput inbox_two).1
       = omap (fun name => ipc_input inbox_two !! name ≫= accepted_text) names
    /\ (forall name, ipc_input (drainIpcInput inbox_two).2 !! name
                     = if is_message_name name then None else ipc_input inbox_two !! name)
    /\ conversations (drainIpcInput inbox_two).2 = conversations inbox_two.
Proof. apply (drainIpcInput_any_inbox inbox_two). vm_compute. reflexivity. Defined.

(** X2: a second [drainIpcInput] right after a first one returns nothing and
    changes nothing: no message is delivered twice. *)
Theorem drainIpcInput_twice (d : FS) :
  drainIpcInput (drainIpcInput d).2 = ([], (drainIpcInput d).2).
Proof.
  destruct (drainIpcInput_names d) as (_ & _ & _ & _ & Hdir & _).
  assert (Hnone : filter (fun f => endsWith f ".json" = true)
                    (readdirSync (ipc_input (drainIpcInput d).2)) = []).
  { destruct (filter _ _) as [|name l] eqn:E; [done|].
    assert (Hin : name ∈ filter (fun f => endsWith f ".json" = true)
                    (readdirSync (ipc_input (drainIpcInput d).2)))
      by (rewrite E; by left).
    apply list_elem_of_filter in Hin as [Hn Hin]. unfold readdirSync in Hin.
    apply list_elem_of_fmap in Hin as ([k text] & -> & Hin).
    apply elem_of_map_to_list in Hin. rewrite Hdir in Hin. unfold is_message_name in Hin.
    cbn [fst] in *. by rewrite Hn in Hin. }
  unfold drainIpcInput at 1. rewrite Hnone. cbn.
  by destruct (drainIpcInput d).2.
Qed.

Lemma mailbox_texts_nonempty_aux :
  (forall d : FS, Forall (fun t => t <> "") (drainIpcInput d).1)
  /\ (forall (later : list HostWrites) (w : World) (text : string),
        (waitForIpcMessage later w).1 = Message text -> text <> "").
Proof.
  assert (Hdrain : forall d : FS, Forall (fun t => t <> "") (drainIpcInput d).1).
  { intros d. destruct (drainIpcInput_names d) as (names & _ & _ & -> & _).
    apply Forall_forall. intros t (name & _ & Ht)%list_elem_of_omap.
    destruct (ipc_input d !! name) as [text|]; [|done].
    by apply accepted_text_nonempty in Ht. }
  split; [done|].
  assert (Hpoll : forall d0 m ms, (drainIpcInput d0).1 = m :: ms -> join LF (m :: ms) <> "").
  { intros d0 m ms E. pose proof (Hdrain d0) as Hd. rewrite E in Hd.
    apply Forall_cons in Hd as [Hm _]. by apply join_nonempty. }
  intros later. induction later as [|hw later IH]; intros w text; cbn [waitForIpcMessage];
    destruct (shouldClose (fs w)) as [[] d0]; try done;
    pose proof (Hpoll d0) as Hd;
    destruct (drainIpcInput d0) as [[|m ms] d1]; cbn iota beta; cbn [fst] in *.
  - done.
  - intros [= <-]. by apply Hd.
  - apply IH.
  - intros [= <-]. by apply Hd.
Qed.

(** X3: in a mailbox that follows its protocol (the text of a message file
    is a string), a text that [drainIpcInput] returns is never empty, and
    neither is a message that [waitForIpcMessage] resolves with: the next
    prompt of the loop is never the empty string. *)
Theorem mailbox_texts_are_not_empty :
  (forall d : FS, typed_inbox d = true -> Forall (fun t => t <> "") (drainIpcInput d).1)
  /\ (forall (later : list HostWrites) (w : World) (text : string),
        typed_inbox (fs w) = true -> forallb typed_writes later = true ->
        (waitForIpcMessage later w).1 = Message text -> text <> "").
Proof.
  split.
  - intros d _. apply mailbox_texts_nonempty_aux.
  - intros later w text _ _. apply mailbox_texts_nonempty_aux.
Qed.

Lemma mailbox_texts_are_not_empty_witness :
  Forall (fun t => t <> "") (drainIpcInput inbox_two).1
  /\ join LF ["first"; "second"] <> "".
Proof.
  split.
  - apply (proj1 mailbox_texts_are_not_empty inbox_two). vm_compute. reflexivity.
  - apply (proj2 mailbox_texts_are_not_empty [] (set_fs (fun _ => inbox_two) world0)).
    + vm_compute. reflexivity.
    + reflexivity.
    + vm_compute. reflexivity.
Defined.

(** X4: [shouldClose] answers true exactly when the sentinel exists, removes
    nothing but the sentinel, and a second call right after it answers
    false: one sentinel is one close request. *)
Theorem shouldClose_consumes_sentinel (d : FS) :
  ((shouldClose d).1 = true <-> is_Some (ipc_input d !! IPC_INPUT_CLOSE_SENTINEL))
  /\ ipc_input (shouldClose d).2 = delete IPC_INPUT_CLOSE_SENTINEL (ipc_input d)
  /\ conversations (shouldClose d).2 = conversations d
  /\ shouldClose (shouldClose d).2 = (false, (shouldClose d).2).
Proof.
  unfold shouldClose.
  destruct (ipc_input d !! IPC_INPUT_CLOSE_SENTINEL) as [text|] eqn:E; cbn.
  - rewrite lookup_delete_eq. repeat split; by eexists.
  - rewrite E. repeat split; try done; try by intros [? ?].
    symmetry. by apply delete_id.
Qed.

(** ** Reply extraction *)

Section ExtractFacts.

Lemma JSON_stringify_truthy (v : json) : js_truthy v = true -> JSON_stringify v <> "".
Proof. destruct v as [|[]|[|c n]| | |]; done. Qed.

Lemma omap_nonempty_texts (ps : list Part) :
  Forall (fun t => t <> "") (omap nonempty_text ps).
Proof.
  apply Forall_forall. intros t (p & _ & Ht)%list_elem_of_omap.
  unfold nonempty_text in Ht. destruct (part_text p) as [t'|]; [|done].
  destruct (String.eqb_spec t' ""); [done|]. by injection Ht as <-.
Qed.

End ExtractFacts.

(** X5: the extracted reply text is never the empty string: it is [null] or
    a text that is not empty. *)
Theorem extractResultText_never_empty (response : AssistantResponse) :
  extractResultText response <> Some "".
Proof.
  unfold extractResultText.
  destruct (match parts response with Some ps => _ | None => _ end) as [|t ts] eqn:E.
  - destruct (info response) as [i|]; [|done].
    destruct (structured_output i) as [v|]; [|done].
    destruct (js_truthy v) eqn:Hv; [|done].
    intros [= H]. by apply JSON_stringify_truthy in Hv.
  - destruct (parts response) as [ps|]; [|done].
    pose proof (omap_nonempty_texts (filter (fun p => is_text_part p = true) ps)) as Hne.
    rewrite E in Hne. apply Forall_cons in Hne as [Ht _].
    intros H. assert (Hj : join "" (t :: ts) = "") by congruence.
    by apply (join_nonempty "" t ts Ht).
Qed.

(** X6: a fragment that is not text-typed (reasoning, tool call, file, ...)
    never changes the extracted reply, wherever it stands among the parts. *)
Theorem extractResultText_ignores_other_parts (i : option Info) (before after : list Part)
    (p : Part) :
  is_text_part p = false ->
  extractResultText {| info := i; parts := Some (before ++ p :: after) |}
  = extractResultText {| info := i; parts := Some (before ++ after) |}.
Proof.
  intros Hp. unfold extractResultText. cbn [parts info].
  rewrite !filter_app, filter_cons_False; [done|]. by rewrite Hp.
Qed.

Lemma extractResultText_ignores_other_parts_witness :
  extractResultText
    {| info := None;
       parts := Some ([{| part_type := "text"; part_text := Some "a" |}]
                      ++ {| part_type := "reasoning"; part_text := Some "hidden" |}
                         :: [{| part_type := "text"; part_text := Some "b" |}]) |}
  = extractResultText
      {| info := None;
         parts := Some ([{| part_type := "text"; part_text := Some "a" |}]
                        ++ [{| part_type := "text"; part_text := Some "b" |}]) |}.
Proof.
  apply (extractResultText_ignores_other_parts None
           [{| part_type := "text"; part_text := Some "a" |}]
           [{| part_type := "text"; part_text := Some "b" |}]
           {| part_type := "reasoning"; part_text := Some "hidden" |}).
  reflexivity.
Defined.

(** ** Transcript labels *)

Section LabelFacts.

Lemma rev_app_app (s1 s2 s3 : string) :
  String.rev_app s1 s2 +:+ s3 = String.rev_app s1 (s2 +:+ s3).
Proof. revert s2. induction s1 as [|c s1 IH]; intros s2; [done|]. cbn. by rewrite IH. Qed.

Lemma rev_app_distr (a b c : string) :
  String.rev_app (a +:+ b) c = String.rev_app b (String.rev_app a c).
Proof. revert c. induction a as [|x a IH]; intros c; [done|]. cbn. by rewrite IH. Qed.

Lemma string_rev_app (a b : string) : String.rev (a +:+ b) = String.rev b +:+ String.rev a.
Proof. unfold String.rev. by rewrite rev_app_distr, rev_app_app. Qed.

Lemma string_rev_involutive (a : string) : String.rev (String.rev a) = a.
Proof.
  induction a as [|c a IH]; [done|].
  assert (H : String.rev (String c a) = String.rev a +:+ String c "")
    by (symmetry; apply (rev_app_app a "" (String c ""))).
  by rewrite H, string_rev_app, IH.
Qed.

(** [drop_dashes] leaves a suffix, which does not start with a dash. *)
Lemma drop_dashes_suffix (s : string) : exists d, s = d +:+ drop_dashes s.
Proof.
  induction s as [|c s [d IH]]; [by exists ""|]. cbn [drop_dashes].
  destruct (Ascii.eqb c "-"); [|by exists ""].
  exists (String c d). cbn. by rewrite <- IH.
Qed.

Lemma drop_dashes_head (s : string) : starts_with_dash (drop_dashes s) = false.
Proof.
  induction s as [|c s IH]; [done|]. cbn [drop_dashes].
  destruct (Ascii.eqb c "-") eqn:E; [done|]. cbn. by rewrite E.
Qed.

(** [trim_dashes] leaves a piece from the middle. *)
Lemma trim_dashes_middle (s : string) :
  exists d1 d2, s = d1 +:+ trim_dashes s +:+ d2.
Proof.
  unfold trim_dashes. destruct (drop_dashes_suffix s) as [d1 H1].
  destruct (drop_dashes_suffix (String.rev (drop_dashes s))) as [d2 H2].
  exists d1, (String.rev d2). rewrite <- string_rev_app, <- H2, string_rev_involutive.
  exact H1.
Qed.

Lemma take_chars_prefix (n : nat) (s : string) : exists r, s = take_chars n s +:+ r.
Proof.
  revert s. induction n as [|n IH]; intros s; [by exists s|].
  destruct s as [|c s]; [by exists ""|]. destruct (IH s) as [r Hr].
  exists r. cbn. by rewrite <- Hr.
Qed.

Lemma take_chars_length (n : nat) (s : string) : String.length (take_chars n s) <= n.
Proof.
  revert s. induction n as [|n IH]; intros s; [done|].
  destruct s as [|c s]; cbn; [lia|]. specialize (IH s). lia.
Qed.

Lemma all_chars_app (P : ascii -> bool) (a b : string) :
  all_chars P (a +:+ b) = all_chars P a && all_chars P b.
Proof. induction a as [|c a IH]; [done|]. cbn. by rewrite IH, andb_assoc. Qed.

Lemma starts_with_dash_app (a b : string) :
  a <> "" -> starts_with_dash (a +:+ b) = starts_with_dash a.
Proof. by destruct a. Qed.

Lemma single_dashes_app (a b : string) :
  single_dashes (a +:+ b) = true -> single_dashes a = true /\ single_dashes b = true.
Proof.
  induction a as [|c a IH]; [done|]. cbn [String.append single_dashes].
  rewrite !andb_true_iff, !negb_true_iff. intros [Hc [Ha Hb]%IH]. split; [|done].
  split; [|done]. destruct a as [|c' a]; [by rewrite andb_false_r|]. exact Hc.
Qed.

Lemma dash_runs_chars (in_run : bool) (s : string) :
  all_chars is_label_char (dash_runs in_run s) = true.
Proof.
  revert in_run. induction s as [|c s IH]; intros in_run; [done|]. cbn [dash_runs].
  destruct (is_lower_alnum c) eqn:E.
  - cbn [all_chars]. unfold is_label_char at 1. by rewrite E, IH.
  - destruct in_run; [apply IH|]. cbn [all_chars]. by rewrite IH.
Qed.

Lemma is_lower_alnum_dash (c : ascii) : is_lower_alnum c = true -> Ascii.eqb c "-" = false.
Proof. destruct (Ascii.eqb_spec c "-") as [->|]; [by vm_compute|done]. Qed.

Lemma dash_runs_single (in_run : bool) (s : string) :
  single_dashes (dash_runs in_run s) = true
  /\ (in_run = true -> starts_with_dash (dash_runs in_run s) = false).
Proof.
  revert in_run. induction s as [|c s IH]; intros in_run; [done|]. cbn [dash_runs].
  destruct (is_lower_alnum c) eqn:E.
  - destruct (IH false) as [H1 _]. cbn [single_dashes starts_with_dash].
    by rewrite (is_lower_alnum_dash c E), H1.
  - destruct (IH true) as [H1 H2]. destruct in_run; [by split|].
    cbn [single_dashes starts_with_dash]. rewrite H1, (H2 eq_refl). by split.
Qed.

End LabelFacts.

(** X7: whatever the summary, the label [sanitizeFilename] gives has at most
    50 characters, all of them lower-case letters, digits or dashes, never
    starts with a dash and never holds two dashes in a row. *)
Theorem sanitizeFilename_shape (summary : string) :
  String.length (sanitizeFilename summary) <= 50
  /\ all_chars is_label_char (sanitizeFilename summary) = true
  /\ starts_with_dash (sanitizeFilename summary) = false
  /\ single_dashes (sanitizeFilename summary) = true.
Proof.
  unfold sanitizeFilename. set (runs := dash_runs false (toLowerCase summary)).
  destruct (trim_dashes_middle runs) as (d1 & d2 & Hmid).
  destruct (take_chars_prefix 50 (trim_dashes runs)) as [r Hr].
  pose proof (dash_runs_chars false (toLowerCase summary)) as Hchars.
  destruct (dash_runs_single false (toLowerCase summary)) as [Hsingle _].
  fold runs in Hchars, Hsingle. rewrite Hmid in Hchars, Hsingle.
  rewrite !all_chars_app, !andb_true_iff in Hchars. destruct Hchars as (_ & Hchars & _).
  apply single_dashes_app in Hsingle as [_ [Hsingle _]%single_dashes_app].
  rewrite Hr in Hchars, Hsingle.
  rewrite all_chars_app, andb_true_iff in Hchars. destruct Hchars as [Hchars _].
  apply single_dashes_app in Hsingle as [Hsingle _].
  split; [apply take_chars_length|]. split; [done|]. split; [|done].
  assert (Hhead : exists d, drop_dashes runs = trim_dashes runs +:+ d).
  { unfold trim_dashes.
    destruct (drop_dashes_suffix (String.rev (drop_dashes runs))) as [d Hd].
    apply (f_equal String.rev) in Hd. rewrite string_rev_involutive, string_rev_app in Hd.
    by exists (String.rev d). }
  destruct Hhead as [d Hd]. pose proof (drop_dashes_head runs) as Hhead.
  rewrite Hd in Hhead. by destruct (trim_dashes runs).
Qed.

(** ** Archiving *)

(** ** Code units *)

Section CodeUnits.

Ltac Zify.zify_post_hook ::= Z.to_euclidean_division_equations.

Ltac byte_cases :=
  repeat match goal with
         | |- context [N.ltb ?a ?b] => destruct (N.ltb_spec a b); try lia
         | |- context [N.leb ?a ?b] => destruct (N.leb_spec a b); try lia
         end.

Lemma byte_of_N (n : N) : (n < 256)%N -> N_of_ascii (ascii_of_N n) = n.
Proof. apply N_ascii_embedding. Qed.

(** A text that goes on with an ASCII character. *)
Lemma utf16_from_ascii (a : string) (c : ascii) (r : string) (need : nat) (acc : N) :
  (N_of_ascii c < 128)%N ->
  utf16_from need acc (a +:+ String c r)
  = utf16_from need acc a ++ N_of_ascii c :: utf16_from 0 0 r.
Proof.
  intros Hc. revert need acc. induction a as [|x a IH]; intros need acc.
  - cbn [String.append utf16_from]. cbv zeta.
    destruct need as [|k]; byte_cases; done.
  - cbn [String.append utf16_from]. cbv zeta.
    destruct need as [|[|k]]; byte_cases; cbn [andb app]; rewrite ?IH, <- ?app_assoc; done.
Qed.

Lemma js_length_dots (a : string) : js_length (a +:+ "...") = js_length a + 3.
Proof.
  unfold js_length, utf16_units.
  change "..." with (String "." (String "." (String "." ""))).
  rewrite utf16_from_ascii by (vm_compute; done).
  rewrite length_app. cbn [length]. 
  change (utf16_from 0 0 (String "." (String "." ""))) with [46%N; 46%N]. cbn [length]. lia.
Qed.

Lemma units_of_code_point_bound (cp : N) :
  (cp < 2097152)%N -> Forall (fun u => (u < 65536)%N) (units_of_code_point cp).
Proof.
  intros H. unfold units_of_code_point. byte_cases; repeat constructor; lia.
Qed.

Lemma utf16_from_bound (s : string) (need : nat) (acc : N) :
  (need = 0 \/ (acc < acc_bound need)%N) ->
  Forall (fun u => (u < 65536)%N) (utf16_from need acc s).
Proof.
  revert need acc. induction s as [|c s IH]; intros need acc Hacc.
  - destruct need; by repeat constructor.
  - pose proof (N_ascii_bounded c) as Hb.
    assert (Hfresh : Forall (fun u => (u < 65536)%N) (utf16_from 0 acc (String c s))).
    { cbn [utf16_from]. cbv zeta. byte_cases;
        repeat (constructor; [unfold replacement_unit; lia|]);
        apply IH; cbn [acc_bound]; lia. }
    destruct need as [|k]; [done|].
    cbn [utf16_from] in *. cbv zeta in *.
    destruct Hacc as [Hacc|Hacc]; [done|].
    destruct ((128 <=? N_of_ascii c)%N && (N_of_ascii c <? 192)%N) eqn:E.
    + apply andb_true_iff in E as [E1%N.leb_le E2%N.ltb_lt].
      destruct k as [|[|[|k]]]; cbn [acc_bound] in Hacc; try lia.
      * apply Forall_app. split; [apply units_of_code_point_bound; lia|].
        apply IH. by left.
      * apply IH. right. cbn [acc_bound]. lia.
      * apply IH. right. cbn [acc_bound]. lia.
    + constructor; [unfold replacement_unit; lia|]. exact Hfresh.
Qed.

Lemma decode_unit (cu : N) (t : string) :
  (cu < 65536)%N -> utf16_from 0 0 (utf8_encode cu +:+ t) = cu :: utf16_from 0 0 t.
Proof.
  intros H. unfold utf8_encode.
  destruct (N.ltb_spec cu 128); [|destruct (N.ltb_spec cu 2048);
                                   [|destruct (N.ltb_spec cu 65536); [|lia]]];
    cbn [String.append utf16_from]; cbv zeta; rewrite !byte_of_N by lia;
    byte_cases; cbn [andb]; unfold units_of_code_point; byte_cases;
    cbn [app]; f_equal; lia.
Qed.

Lemma decode_pair (cp : N) (t : string) :
  (65536 <= cp < 2097152)%N ->
  utf16_from 0 0 (utf8_encode cp +:+ t) = units_of_code_point cp ++ utf16_from 0 0 t.
Proof.
  intros H. unfold utf8_encode.
  destruct (N.ltb_spec cp 128); [lia|]. destruct (N.ltb_spec cp 2048); [lia|].
  destruct (N.ltb_spec cp 65536); [lia|].
  cbn [String.append utf16_from]; cbv zeta; rewrite !byte_of_N by lia.
  byte_cases; cbn [andb]. do 2 f_equal. lia.
Qed.

Lemma decode_encode_length (l : list N) :
  Forall (fun u => (u < 65536)%N) l ->
  length (utf16_units (utf8_of_units l)) = length l.
Proof.
  unfold utf16_units.
  remember (length l) as n eqn:Hn. revert l Hn.
  induction n as [n IH] using lt_wf_ind. intros l -> Hl.
  destruct l as [|cu rest]; [done|]. apply Forall_cons in Hl as [Hcu Hrest].
  cbn [utf8_of_units].
  assert (Hone : forall u, (u < 65536)%N ->
            length (utf16_from 0 0 (utf8_encode u +:+ utf8_of_units rest))
            = length (cu :: rest)).
  { intros u Hu. rewrite decode_unit by done. cbn [length].
    assert (Hlt : length rest < length (cu :: rest)) by (cbn [length]; lia).
    rewrite (IH (length rest) Hlt rest eq_refl Hrest). done. }
  destruct (is_high_surrogate cu) eqn:Hhi.
  - destruct rest as [|lo rest'].
    + by vm_compute.
    + destruct (is_low_surrogate lo) eqn:Hlo; [|apply Hone; unfold replacement_unit; lia].
      apply Forall_cons in Hrest as [Hlo' Hrest'].
      unfold is_high_surrogate, is_low_surrogate in *.
      apply andb_true_iff in Hhi as [?%N.leb_le ?%N.ltb_lt].
      apply andb_true_iff in Hlo as [?%N.leb_le ?%N.ltb_lt].
      rewrite decode_pair by (unfold pair_code_point; lia).
      assert (Hlt : length rest' < length (cu :: lo :: rest')) by (cbn [length]; lia).
      rewrite length_app, (IH (length rest') Hlt rest' eq_refl Hrest').
      unfold units_of_code_point, pair_code_point. byte_cases. done.
  - destruct (is_low_surrogate cu); apply Hone; [unfold replacement_unit; lia|done].
Qed.

Lemma js_length_slice (n : nat) (s : string) : js_length (js_slice n s) = n `min` js_length s.
Proof.
  unfold js_length at 1, js_slice. rewrite decode_encode_length.
  - by rewrite length_take.
  - apply Forall_take. apply utf16_from_bound. by left.
Qed.

End CodeUnits.

Ltac Zify.zify_post_hook ::= idtac.

Section ArchiveFacts.

Lemma transcript_body_defined (assistantName : option string) (messages : list ParsedMessage) :
  all_defined messages = true <->
  exists body, transcript_body assistantName messages = Normal body.
Proof.
  induction messages as [|m messages IH]; [by split; [exists []|]|].
  cbn [all_defined forallb transcript_body]. unfold transcript_lines.
  destruct (content m) as [text|]; cbn [andb].
  - fold (all_defined messages). rewrite IH. split.
    + intros [body ->]. by eexists.
    + intros [body H]. destruct (transcript_body assistantName messages); [by eexists|done].
  - split; [done|]. by intros [body H].
Qed.

Lemma formatTranscriptMarkdown_defined now messages title assistantName :
  all_defined messages = true <->
  exists markdown, formatTranscriptMarkdown now messages title assistantName = Normal markdown.
Proof.
  rewrite (transcript_body_defined assistantName). unfold formatTranscriptMarkdown. split.
  - intros [body ->]. by eexists.
  - intros [md H]. destruct (transcript_body assistantName messages); [by eexists|done].
Qed.

End ArchiveFacts.

(** X8: [archiveConversation] touches nothing but the conversations
    directory.  When the record is not empty and every message has a
    content, it writes exactly the one file named after the date and the
    label, holding the transcript; when the record is empty, or a content is
    [undefined] (the exception is swallowed), it writes nothing. *)
Theorem archiveConversation_effect (now : Clock) (messages : list ParsedMessage)
    (assistantName summary : option string) (d : FS) :
  ipc_input (archiveConversation now messages assistantName summary d) = ipc_input d
  /\ tmp_input_json (archiveConversation now messages assistantName summary d)
     = tmp_input_json d
  /\ opencode_json (archiveConversation now messages assistantName summary d)
     = opencode_json d
  /\ global_AGENTS_md (archiveConversation now messages assistantName summary d)
     = global_AGENTS_md d
  /\ global_CLAUDE_md (archiveConversation now messages assistantName summary d)
     = global_CLAUDE_md d
  /\ match messages with
     | [] => conversations (archiveConversation now messages assistantName summary d)
             = conversations d
     | _ :: _ =>
         if all_defined messages then
           exists markdown,
             formatTranscriptMarkdown now messages summary assistantName = Normal markdown
             /\ conversations (archiveConversation now messages assistantName summary d)
                = <[archive_filename now summary := markdown]> (conversations d)
         else conversations (archiveConversation now messages assistantName summary d)
              = conversations d
     end.
Proof.
  unfold archiveConversation. destruct messages as [|m messages]; [done|].
  pose proof (formatTranscriptMarkdown_defined now (m :: messages) summary assistantName)
    as Hdef.
  destruct (formatTranscriptMarkdown now (m :: messages) summary assistantName)
    as [markdown|err].
  - assert (all_defined (m :: messages) = true) as -> by (apply Hdef; by eexists).
    repeat split. by exists markdown.
  - destruct (all_defined (m :: messages)); [|done].
    by destruct (proj1 Hdef eq_refl).
Qed.

(** X9: in the transcript a content of at most 2000 UTF-16 code units is
    shown in full, and a longer one is cut to its first 2000 code units
    followed by three dots: no paragraph shows more than 2003 code units of
    content. *)
Theorem transcript_content_is_truncated (assistantName : option string)
    (msg : ParsedMessage) (text : string) :
  content msg = Some text ->
  exists shown,
    transcript_lines assistantName msg
    = Normal ["**" +:+ sender_label assistantName (role msg) +:+ "**: " +:+ shown; ""]
    /\ js_length shown <= 2003
    /\ (js_length text <= 2000 -> shown = text)
    /\ (2000 < js_length text ->
        shown = js_slice 2000 text +:+ "..." /\ js_length shown = 2003).
Proof.
  intros Hc. unfold transcript_lines. rewrite Hc.
  destruct (2000 <? js_length text) eqn:E.
  - apply Nat.ltb_lt in E. exists (js_slice 2000 text +:+ "...").
    assert (Hlen : js_length (js_slice 2000 text +:+ "...") = 2003).
    { rewrite js_length_dots, js_length_slice. lia. }
    split; [by destruct (role msg)|]. split; [lia|]. split; [lia|done].
  - apply Nat.ltb_ge in E. exists text.
    split; [by destruct (role msg)|]. split; [lia|]. split; [done|lia].
Qed.

Lemma transcript_content_is_truncated_witness :
  exists shown,
    transcript_lines (Some "Andy") {| role := assistant; content := Some "café" |}
    = Normal ["**" +:+ sender_label (Some "Andy") assistant +:+ "**: " +:+ shown; ""]
    /\ js_length shown <= 2003
    /\ (js_length "café" <= 2000 -> shown = "café")
    /\ (2000 < js_length "café" ->
        shown = js_slice 2000 "café" +:+ "..." /\ js_length shown = 2003).
Proof.
  apply (transcript_content_is_truncated (Some "Andy")
           {| role := assistant; content := Some "café" |} "café").
  reflexivity.
Defined.

(** X10: the file name depends on the clock only down to the minute, so a
    second archive under the same label in the same minute replaces the
    first: the result is as if the first had never been written. *)
Theorem archiveConversation_same_minute (now : Clock) (first second : list ParsedMessage)
    (assistantName summary : option string) (d : FS) :
  second <> [] -> all_defined second = true ->
  archiveConversation now second assistantName summary
    (archiveConversation now first assistantName summary d)
  = archiveConversation now second assistantName summary d.
Proof.
  intros Hne Hdef.
  apply (formatTranscriptMarkdown_defined now second summary assistantName) in Hdef
    as [md2 H2].
  unfold archiveConversation. destruct second as [|m2 second]; [done|]. rewrite H2.
  destruct first as [|m1 first]; [done|].
  destruct (formatTranscriptMarkdown now (m1 :: first) summary assistantName); [|done].
  unfold set_conversations. cbn. by rewrite insert_insert_eq.
Qed.

Lemma archiveConversation_same_minute_witness :
  archiveConversation clock0 [{| role := user; content := Some "second" |}] None None
    (archiveConversation clock0 [{| role := user; content := Some "first" |}] None None
       empty_fs)
  = archiveConversation clock0 [{| role := user; content := Some "second" |}] None None
      empty_fs.
Proof.
  apply (archiveConversation_same_minute clock0
           [{| role := user; content := Some "first" |}]
           [{| role := user; content := Some "second" |}] None None empty_fs).
  - discriminate.
  - reflexivity.
Defined.

(** ** Turns *)

Section TurnFacts.

Lemma host_writes_outside hw d : outside_inbox (host_writes hw d) = outside_inbox d.
Proof. done. Qed.

Lemma shouldClose_outside d : outside_inbox (shouldClose d).2 = outside_inbox d.
Proof. unfold shouldClose. by destruct (ipc_input d !! IPC_INPUT_CLOSE_SENTINEL). Qed.

Lemma drainIpcInput_outside d : outside_inbox (drainIpcInput d).2 = outside_inbox d.
Proof. unfold drainIpcInput. by destruct (consume_files _ _). Qed.

Lemma foldl_emit_fs (f : string -> Event) (l : list string) (w : World) :
  fs (foldl (fun acc x => emit (f x) acc) w l) = fs w.
Proof. revert w. induction l as [|x l IH]; intros w; simpl; [done|]. by rewrite IH. Qed.

Lemma pollIpcDuringQuery_outside sid ticks p c w :
  outside_inbox (fs (pollIpcDuringQuery sid ticks p c w).2) = outside_inbox (fs w).
Proof.
  revert p c w. induction ticks as [|hw ticks IH]; intros p c w; simpl; [done|].
  destruct p; simpl.
  - pose proof (shouldClose_outside (host_writes hw (fs w))) as Hs.
    destruct (shouldClose _) as [[] d]; cbn [snd] in Hs.
    + rewrite IH. cbn. by rewrite Hs.
    + pose proof (drainIpcInput_outside d) as Hd.
      destruct (drainIpcInput d) as [ms d1]. cbn [snd] in Hd.
      rewrite IH, foldl_emit_fs. cbn. by rewrite Hd, Hs.
  - by rewrite IH.
Qed.

Lemma last_write_elem (hw : HostWrites) (name content : string) :
  last_write hw name = Some content -> (name, content) ∈ hw.
Proof.
  induction hw as [|[n text] hw IH]; [done|]. cbn [last_write].
  destruct (last_write hw name) as [later|].
  - intros [= ->]. right. by apply IH.
  - destruct (String.eqb_spec n name) as [->|]; [|done]. intros [= ->]. by left.
Qed.

Lemma host_writes_lookup (hw : HostWrites) (d : FS) (name : string) :
  ipc_input (host_writes hw d) !! name
  = match last_write hw name with
    | Some content => Some content
    | None => ipc_input d !! name
    end.
Proof.
  unfold host_writes. cbn [set_ipc_input ipc_input]. generalize (ipc_input d) as dir.
  induction hw as [|[n text] hw IH]; intros dir; [done|].
  cbn [foldl last_write]. rewrite IH.
  destruct (last_write hw name) as [later|]; [done|].
  destruct (String.eqb_spec n name) as [->|Hne].
  - apply lookup_insert_eq.
  - by apply lookup_insert_ne.
Qed.

Lemma shouldClose_false (d0 d : FS) : shouldClose d0 = (false, d) -> d = d0.
Proof.
  unfold shouldClose. destruct (ipc_input d0 !! IPC_INPUT_CLOSE_SENTINEL); [done|].
  by intros [= <-].
Qed.

(** The forwards of the poller: the events, where the texts come from, and
    that none is left behind. *)
Lemma pollIpcDuringQuery_exact sid ticks w :
  exists forwarded,
    Forall (fun m => m <> "") forwarded
    /\ events (pollIpcDuringQuery sid ticks true false w).2
       = events w ++ map (fun m => SessionForward sid m) forwarded
         ++ (if (pollIpcDuringQuery sid ticks true false w).1
             then [CloseObserved; SessionAbort sid] else [])
    /\ (forall m, m ∈ forwarded ->
          exists name content,
            is_message_name name = true /\ accepted_text content = Some m
            /\ (ipc_input (fs w) !! name = Some content
                \/ exists hw, hw ∈ ticks /\ (name, content) ∈ hw))
    /\ ((pollIpcDuringQuery sid ticks true false w).1 = false ->
        forall hw name content m,
          hw ∈ ticks -> is_message_name name = true ->
          last_write hw name = Some content -> accepted_text content = Some m ->
          m ∈ forwarded).
Proof.
  revert w. induction ticks as [|hw ticks IH]; intros w; cbn [pollIpcDuringQuery negb].
  - exists []. cbn. rewrite app_nil_r. repeat split; try done.
    + by intros m ?%elem_of_nil.
    + by intros _ hw name content m ?%elem_of_nil.
  - destruct (shouldClose (fs (set_fs (host_writes hw) w))) as [[] d] eqn:Hclose.
    + destruct (pollIpcDuringQuery_stopped sid ticks true
                  (emit (SessionAbort sid)
                     (emit CloseObserved (set_fs (fun _ => d) (set_fs (host_writes hw) w)))))
        as [-> ->].
      exists []. split; [done|]. split; [cbn; by rewrite <- app_assoc|].
      split; [by intros m ?%elem_of_nil|done].
    + apply shouldClose_false in Hclose. cbn [set_fs fs] in Hclose. subst d.
      pose proof (proj1 mailbox_texts_nonempty_aux (host_writes hw (fs w))) as Hne.
      pose proof (drained_text_spec (host_writes hw (fs w))) as Hspec.
      destruct (drainIpcInput_names (host_writes hw (fs w))) as (_ & _ & _ & _ & Hafter & _).
      destruct (drainIpcInput (host_writes hw (fs w))) as [ms d1]. cbn [fst snd] in *.
      set (w2 := foldl (fun acc text => emit (SessionForward sid text) acc)
                   (set_fs (fun _ => d1) (set_fs (host_writes hw) w)) ms).
      assert (Hfs2 : fs w2 = d1) by (unfold w2; by rewrite foldl_emit_fs).
      destruct (IH w2) as (fw & Hfw & Hev & Hsound & Hcomplete).
      rewrite Hev. unfold w2 at 1. rewrite foldl_emit_events. cbn [set_fs events].
      exists (ms ++ fw). split; [by apply Forall_app|].
      split; [by rewrite map_app, <- !app_assoc|]. split.
      * intros m [Hm|Hm]%elem_of_app.
        -- apply Hspec in Hm as (name & content & Hn & Hl & Hm).
           exists name, content. split; [done|]. split; [done|].
           rewrite host_writes_lookup in Hl.
           destruct (last_write hw name) as [c|] eqn:Hlast.
           ++ right. exists hw. split; [by left|].
              apply last_write_elem. congruence.
           ++ by left.
        -- destruct (Hsound m Hm) as (name & content & Hn & Hacc & [Hl|(hw' & Hin & Hw)]).
           ++ rewrite Hfs2, Hafter, Hn in Hl. done.
           ++ exists name, content. split; [done|]. split; [done|].
              right. exists hw'. split; [by right|done].
      * intros Hopen hw' name content m [->|Hin]%elem_of_cons Hn Hlast Hacc.
        -- apply elem_of_app. left. apply Hspec. exists name, content.
           split; [done|]. split; [|done]. by rewrite host_writes_lookup, Hlast.
        -- apply elem_of_app. right. by apply (Hcomplete Hopen hw' name content).
Qed.

Lemma runQuery_exact sid text t w :
  exists forwarded,
    Forall (fun m => m <> "") forwarded
    /\ events (runQuery sid (Some text) t w).2
       = events w ++ SessionPrompt sid text false
                     :: map (fun m => SessionForward sid m) forwarded
                     ++ (if (runQuery sid (Some text) t w).1
                         then [CloseObserved; SessionAbort sid] else [])
    /\ (forall m, m ∈ forwarded ->
          exists name content,
            is_message_name name = true /\ accepted_text content = Some m
            /\ (ipc_input (fs w) !! name = Some content
                \/ exists hw, hw ∈ ticks t /\ (name, content) ∈ hw))
    /\ ((runQuery sid (Some text) t w).1 = false ->
        forall hw name content m,
          hw ∈ ticks t -> is_message_name name = true ->
          last_write hw name = Some content -> accepted_text content = Some m ->
          m ∈ forwarded).
Proof.
  unfold runQuery.
  destruct (pollIpcDuringQuery_exact sid (ticks t) (emit (SessionPrompt sid text false) w))
    as (fw & Hfw & Hev & Hsound & Hcomplete).
  destruct (pollIpcDuringQuery sid (ticks t) true false _) as [closed w2].
  cbn [fst snd] in *. rewrite report_events. cbn [set_fs events]. rewrite Hev.
  exists fw. split; [done|]. split; [cbn [emit events]; by rewrite <- app_assoc|].
  split; done.
Qed.

Lemma report_outside sid r w : fs (report sid r w) = fs w.
Proof.
  unfold report. destruct r as [res|m]; [|done].
  destruct (data res); [done|]. destruct (prompt_error res) as [err|]; [|done].
  by destruct (js_truthy err).
Qed.

Lemma report_stdout sid r w :
  exists os,
    stdout (report sid r w) = stdout w ++ concat (map output_lines os)
    /\ length os = (if silent_reply r then 0 else 1)
    /\ Forall (fun o => newSessionId o = Some sid) os
    /\ (forall response res, r = Resolved res -> data res = Some response ->
          os = [{| status := success; result := extractResultText response;
                   newSessionId := Some sid; error := None |}]).
Proof.
  unfold report, silent_reply. destruct r as [res|m].
  - destruct (data res) as [response|] eqn:D.
    + eexists [_]. cbn [writeOutput stdout map concat]. rewrite app_nil_r.
      repeat split; [by repeat constructor|].
      intros response' res' [= <-] D'. congruence.
    + destruct (prompt_error res) as [err|].
      * destruct (js_truthy err).
        -- eexists [_]. cbn [writeOutput stdout map concat]. rewrite app_nil_r.
           repeat split; [by repeat constructor|].
           intros response' res' [= <-] D'. congruence.
        -- exists []. cbn. rewrite app_nil_r. repeat split; [done|].
           intros response' res' [= <-] D'. congruence.
      * exists []. cbn. rewrite app_nil_r. repeat split; [done|].
        intros response' res' [= <-] D'. congruence.
  - eexists [_]. cbn [writeOutput stdout map concat]. rewrite app_nil_r.
    repeat split; [by repeat constructor|done].
Qed.

End TurnFacts.

Section LoopFacts.

Lemma foreground_prompts_app (a b : list Event) :
  foreground_prompts (a ++ b) = foreground_prompts a ++ foreground_prompts b.
Proof. unfold foreground_prompts. apply omap_app. Qed.

Lemma foreground_prompts_forwards sid (ms : list string) :
  foreground_prompts (map (fun m => SessionForward sid m) ms) = [].
Proof. induction ms as [|m ms IH]; [done|]. exact IH. Qed.

Lemma turn_event_forwards sid (ms : list string) :
  Forall (turn_event sid) (map (fun m => SessionForward sid m) ms).
Proof. apply Forall_forall. by intros ev (m & -> & _)%list_elem_of_fmap. Qed.

Lemma runQuery_outside sid prompt t w :
  outside_inbox (fs (runQuery sid prompt t w).2) = outside_inbox (fs w).
Proof.
  unfold runQuery. destruct prompt as [text|]; [|done].
  pose proof (pollIpcDuringQuery_outside sid (ticks t) true false
                (emit (SessionPrompt sid text false) w)) as Hp.
  destruct (pollIpcDuringQuery sid (ticks t) true false _) as [closed w2].
  cbn [fst snd] in *. by rewrite report_outside.
Qed.

Lemma runQuery_full sid prompt t w :
  exists os new,
    stdout (runQuery sid prompt t w).2 = stdout w ++ concat (map output_lines os)
    /\ Forall (fun o => newSessionId o = Some sid) os
    /\ length os = match prompt with
                   | Some _ => if silent_reply (reply t) then 0 else 1
                   | None => 1
                   end
    /\ events (runQuery sid prompt t w).2 = events w ++ new
    /\ Forall (turn_event sid) new
    /\ foreground_prompts new = match prompt with Some text => [text] | None => [] end
    /\ ((runQuery sid prompt t w).1 = true -> CloseObserved ∈ new).
Proof.
  destruct prompt as [text|].
  - destruct (runQuery_exact sid text t w) as (fw & _ & Hev & _).
    unfold runQuery in *.
    pose proof (pollIpcDuringQuery_stdout sid (ticks t) true false
                  (emit (SessionPrompt sid text false) w)) as Hout.
    destruct (pollIpcDuringQuery sid (ticks t) true false _) as [closed w2].
    cbn [fst snd] in *.
    destruct (report_stdout sid (reply t) (set_fs (host_writes (late_writes t)) w2))
      as (os & Hos & Hlen & Hsid & _).
    exists os. eexists. split; [|split; [done|split; [done|split; [exact Hev|]]]].
    + rewrite Hos. cbn [set_fs stdout]. by rewrite Hout.
    + split; [|split].
      * constructor; [done|]. apply Forall_app. split; [apply turn_event_forwards|].
        destruct closed; by repeat constructor.
      * change (SessionPrompt sid text false :: ?l)
          with ([SessionPrompt sid text false] ++ l).
        rewrite !foreground_prompts_app, foreground_prompts_forwards.
        by destruct closed.
      * intros ->. rewrite elem_of_cons, elem_of_app, elem_of_cons. tauto.
  - eexists [_], []. cbn [runQuery fst snd writeOutput stdout events map concat].
    rewrite !app_nil_r. repeat split; by repeat constructor.
Qed.

Lemma waitForIpcMessage_outside later w :
  outside_inbox (fs (waitForIpcMessage later w).2) = outside_inbox (fs w).
Proof.
  revert w. induction later as [|hw later IH]; intros w; cbn [waitForIpcMessage];
    pose proof (shouldClose_outside (fs w)) as Hs;
    destruct (shouldClose (fs w)) as [[] d]; cbn [snd] in Hs; try done;
    pose proof (drainIpcInput_outside d) as Hd;
    destruct (drainIpcInput d) as [[|m ms] d1]; cbn [snd] in Hd; cbn iota beta;
    try (cbn [snd set_fs fs]; congruence).
  rewrite IH. cbn [set_fs fs]. rewrite host_writes_outside. congruence.
Qed.

(** One lemma for the loop: its envelopes, its events, its record and the
    files it leaves alone. *)
Lemma query_loop_full script sid prompt msgs w :
  exists os new added,
    stdout (query_loop script sid prompt msgs w).2
    = stdout w ++ concat (map output_lines os)
    /\ Forall (fun o => newSessionId o = Some sid) os
    /\ events (query_loop script sid prompt msgs w).2 = events w ++ new
    /\ Forall (turn_event sid) new
    /\ outside_inbox (fs (query_loop script sid prompt msgs w).2) = outside_inbox (fs w)
    /\ (query_loop script sid prompt msgs w).1.2 = msgs ++ added
    /\ ((query_loop script sid prompt msgs w).1.1 = true ->
        foreground_prompts new = omap content added /\ CloseObserved ∈ new).
Proof.
  revert prompt msgs w. induction script as [|t script IH]; intros prompt msgs w.
  - exists [], [], [{| role := user; content := prompt |}]. cbn. by rewrite !app_nil_r.
  - cbn [query_loop].
    destruct (runQuery_full sid prompt t w)
      as (os & new & Hout & Hsid & _ & Hev & Hin & Hfg & Hclose).
    pose proof (runQuery_outside sid prompt t w) as Hfs.
    destruct (runQuery sid prompt t w) as [[] w1]; cbn [fst snd] in *.
    + exists os, new, [{| role := user; content := prompt |}].
      split; [done|]. split; [done|]. split; [done|]. split; [done|].
      split; [done|]. split; [done|]. intros _. split; [|by apply Hclose].
      rewrite Hfg. by destruct prompt.
    + set (w2 := writeOutput (heartbeat sid) w1).
      change (writeOutput _ w1) with w2.
      pose proof (waitForIpcMessage_stdout (idle t) w2) as Hwo.
      pose proof (waitForIpcMessage_events (idle t) w2) as Hwe.
      pose proof (waitForIpcMessage_outside (idle t) w2) as Hwf.
      assert (Hout2 : stdout w2 = stdout w ++ concat (map output_lines (os ++ [heartbeat sid]))).
      { subst w2. cbn [writeOutput stdout]. rewrite Hout, map_app, concat_app, <- app_assoc.
        done. }
      assert (Hsid2 : Forall (fun o => newSessionId o = Some sid) (os ++ [heartbeat sid])).
      { apply Forall_app. split; [done|]. by repeat constructor. }
      assert (Hev2 : events w2 = events w ++ new) by exact Hev.
      assert (Hfs2 : outside_inbox (fs w2) = outside_inbox (fs w)) by exact Hfs.
      clearbody w2.
      destruct (waitForIpcMessage (idle t) w2) as [[| nextMessage |] w3];
        cbn [fst snd] in *.
      * exists (os ++ [heartbeat sid]), (new ++ [CloseObserved]),
          [{| role := user; content := prompt |}].
        rewrite Hwo, Hwe, Hwf, Hev2, Hout2, Hfs2, <- app_assoc.
        split; [done|]. split; [done|]. split; [done|]. split.
        { apply Forall_app. split; [done|]. by repeat constructor. }
        split; [done|]. split; [done|].
        intros _. split.
        -- rewrite foreground_prompts_app, Hfg. cbn. rewrite app_nil_r.
           by destruct prompt.
        -- rewrite elem_of_app, list_elem_of_singleton. by right.
      * destruct (IH (Some nextMessage) (msgs ++ [{| role := user; content := prompt |}]) w3)
          as (os' & new' & added' & Hout' & Hsid' & Hev' & Hin' & Hfs' & Hmsgs' & Hfg').
        exists ((os ++ [heartbeat sid]) ++ os'), (new ++ new'),
          ({| role := user; content := prompt |} :: added').
        rewrite Hout', Hev', Hfs', Hmsgs', Hwo, Hwe, Hwf, Hout2, Hev2, Hfs2, app_nil_r.
        rewrite !map_app, !concat_app, <- !app_assoc.
        split; [done|]. split.
        { rewrite app_assoc. by apply Forall_app. }
        split; [done|]. split; [by apply Forall_app|].
        split; [done|]. split; [done|].
        intros Hb. destruct (Hfg' Hb) as [Hfg2 Hc2]. split.
        -- rewrite foreground_prompts_app, Hfg, Hfg2. by destruct prompt.
        -- rewrite elem_of_app. by right.
      * exists (os ++ [heartbeat sid]), new, [{| role := user; content := prompt |}].
        rewrite Hwo, Hwe, Hwf, Hev2, Hout2, Hfs2, app_nil_r. repeat split; done.
Qed.

End LoopFacts.

Section RunFacts.

Lemma open_session_full e containerInput w :
  fs (open_session e containerInput w).2 = fs w
  /\ stdout (open_session e containerInput w).2 = stdout w
  /\ exists opening,
       events (open_session e containerInput w).2 = events w ++ opening
       /\ is_opening opening = true
       /\ (forall sid, (open_session e containerInput w).1 = Normal sid ->
           session_opened e containerInput opening sid).
Proof.
  unfold open_session, session_opened.
  set (title := "nanoclaw-" +:+ js_string (field_string containerInput "groupFolder")).
  assert (Hcreate : forall w1 opening0 i0,
            field_string containerInput "sessionId" = i0 ->
            (opening0 = [] \/ exists i, i0 = Some i /\ opening0 = [SessionGet i]) ->
            events w1 = events w ++ opening0 -> fs w1 = fs w -> stdout w1 = stdout w ->
            let r :=
              match session_create e with
              | Resolved (Some session) => (Normal (id session), emit (SessionCreate title) w1)
              | Resolved None =>
                  (Throw "Cannot read properties of undefined (reading 'id')",
                   emit (SessionCreate title) w1)
              | Rejected m => (Throw m, emit (SessionCreate title) w1)
              end in
            fs r.2 = fs w /\ stdout r.2 = stdout w
            /\ exists opening,
                 events r.2 = events w ++ opening /\ is_opening opening = true
                 /\ (forall sid, r.1 = Normal sid ->
                     (i0 = Some sid /\ opening = [SessionGet sid]
                      /\ exists s, session_get e = Resolved (Some s))
                     \/ (exists s title0,
                           session_create e = Resolved (Some s) /\ id s = sid
                           /\ (opening = [SessionCreate title0]
                               \/ exists i, i0 = Some i
                                            /\ opening = [SessionGet i; SessionCreate title0])))).
  { intros w1 opening0 i0 Hi0 Hshape Hev Hfs Hout r. subst r.
    assert (Hall : forall c : completion string,
              (forall sid, c = Normal sid ->
                 exists s, session_create e = Resolved (Some s) /\ id s = sid) ->
              fs (c, emit (SessionCreate title) w1).2 = fs w
              /\ stdout (c, emit (SessionCreate title) w1).2 = stdout w
              /\ exists opening,
                   events (c, emit (SessionCreate title) w1).2 = events w ++ opening
                   /\ is_opening opening = true
                   /\ (forall sid, (c, emit (SessionCreate title) w1).1 = Normal sid ->
                       (i0 = Some sid /\ opening = [SessionGet sid]
                        /\ exists s, session_get e = Resolved (Some s))
                       \/ (exists s title0,
                             session_create e = Resolved (Some s) /\ id s = sid
                             /\ (opening = [SessionCreate title0]
                                 \/ exists i, i0 = Some i
                                   /\ opening = [SessionGet i; SessionCreate title0])))).
    { intros c Hc. cbn [fst snd emit fs stdout events]. split; [done|]. split; [done|].
      exists (opening0 ++ [SessionCreate title]). rewrite Hev, <- app_assoc.
      split; [done|]. split.
      { destruct Hshape as [->|(i & _ & ->)]; done. }
      intros sid Hsid. destruct (Hc sid Hsid) as (s & Hs & Hid). right.
      exists s, title. split; [done|]. split; [done|].
      destruct Hshape as [->|(i & -> & ->)]; [by left|right; by exists i]. }
    destruct (session_create e) as [[s|]|m]; apply Hall.
    - intros sid [= <-]. by exists s.
    - done.
    - done. }
  destruct (field_string containerInput "sessionId") as [i|] eqn:Hi.
  - destruct (String.eqb i "").
    + apply (Hcreate w [] (Some i)); try done; [by left|by rewrite app_nil_r].
    + destruct (session_get e) as [[s0|]|m] eqn:Hget.
      * cbn. split; [done|]. split; [done|]. exists [SessionGet i].
        split; [done|]. split; [done|]. intros sid [= <-]. left. repeat split. by exists s0.
      * apply (Hcreate (emit (SessionGet i) w) [SessionGet i] (Some i)); try done.
        right. by exists i.
      * apply (Hcreate (emit (SessionGet i) w) [SessionGet i] (Some i)); try done.
        right. by exists i.
  - apply (Hcreate w [] None); try done; [by left|by rewrite app_nil_r].
Qed.

Lemma archiveConversation_outside now msgs name summary d :
  outside_inbox (archiveConversation now msgs name summary d)
  = (conversations (archiveConversation now msgs name summary d),
     tmp_input_json d, opencode_json d, global_AGENTS_md d, global_CLAUDE_md d).
Proof.
  unfold archiveConversation. destruct msgs; [done|].
  by destruct (formatTranscriptMarkdown _ _ _ _).
Qed.

Lemma archiveConversation_conversations now msgs name summary d d' :
  conversations d = conversations d' ->
  conversations (archiveConversation now msgs name summary d)
  = conversations (archiveConversation now msgs name summary d').
Proof.
  intros H. unfold archiveConversation. destruct msgs; [done|].
  destruct (formatTranscriptMarkdown _ _ _ _); [|done].
  cbn [set_conversations conversations]. by rewrite H.
Qed.

Lemma injected_context_outside sid d d' :
  outside_inbox d = outside_inbox d' -> injected_context sid d = injected_context sid d'.
Proof.
  unfold outside_inbox, injected_context, buildSystemContext. intros [= _ _ _ -> ->]. done.
Qed.

Lemma uncaught_shape e containerInput w w' sid opening context :
  stdout w' = stdout w ->
  events w'
  = events w ++ CreateOpencode (or_else (OPENCODE_MODEL (process_env e)) default_model)
                :: opening ++ context ->
  is_opening opening = true ->
  (context = [] \/ context = injected_context sid (fs w)) ->
  (context = [] \/ session_opened e containerInput opening sid) ->
  outside_inbox (fs w')
  = (conversations (fs w), tmp_input_json (fs w),
     Some (JSON_stringify_indent 0
             (opencode_config (process_env e) containerInput
                (module_dir e +:+ "/ipc-mcp-stdio.js"))),
     global_AGENTS_md (fs w), global_CLAUDE_md (fs w)) ->
  run_shape e containerInput w (uncaught w').
Proof.
  intros Hout Hev Hopen Hctx Htie Hfs.
  exists sid, [], opening, context, []. unfold released. cbn [uncaught final exit archived].
  rewrite Hout, Hev, !app_nil_r.
  split; [done|]. split; [done|]. split; [done|]. split; [done|]. split; [done|].
  split; [done|]. split; [destruct Htie as [->|?]; [by left|by right]|].
  repeat split; done.
Qed.

Lemma teardown_shape e containerInput w sid opening prompt w7 :
  stdout w7 = stdout w ->
  events w7
  = events w ++ CreateOpencode (or_else (OPENCODE_MODEL (process_env e)) default_model)
                :: opening ++ injected_context sid (fs w) ->
  is_opening opening = true ->
  session_opened e containerInput opening sid ->
  outside_inbox (fs w7)
  = (conversations (fs w), tmp_input_json (fs w),
     Some (JSON_stringify_indent 0
             (opencode_config (process_env e) containerInput
                (module_dir e +:+ "/ipc-mcp-stdio.js"))),
     global_AGENTS_md (fs w), global_CLAUDE_md (fs w)) ->
  run_shape e containerInput w
    (teardown e containerInput (query_loop (turns e) sid prompt [] w7)).
Proof.
  intros Hout Hev Hopen Htie Hfs.
  destruct (query_loop_full (turns e) sid prompt [] w7)
    as (os & new & added & Hlo & Hsid & Hle & Hin & Hlf & Hmsgs & Hleft).
  destruct (query_loop (turns e) sid prompt [] w7) as [[b msgs] w8].
  cbn [fst snd app] in *. subst msgs.
  exists sid, os, opening, (injected_context sid (fs w)), new.
  unfold released. destruct b; cbn [teardown final exit archived emit set_fs stdout events fs].
  - destruct (Hleft eq_refl) as [Hfg Hclose].
    rewrite Hlo, Hout, Hle, Hev, archiveConversation_outside.
    rewrite Hfs in Hlf.
    split; [done|]. split; [done|]. split.
    { by rewrite <- !app_assoc, <- app_comm_cons, <- ?app_assoc. }
    split; [done|]. split; [by right|]. split; [done|]. split; [by right|].
    split; [done|].
    split; [done|]. split; [done|]. split; [by intros msgs [= <-]|]. split; [done|].
    unfold outside_inbox in Hlf. injection Hlf as Hc Ht Ho Ha Hg.
    rewrite Ht, Ho, Ha, Hg. do 4 f_equal.
    by apply archiveConversation_conversations.
  - rewrite Hlo, Hout, Hle, Hev, Hlf, Hfs, app_nil_r.
    split; [done|]. split; [done|]. split.
    { by rewrite <- !app_assoc, <- app_comm_cons, <- ?app_assoc. }
    split; [done|]. split; [by right|]. split; [done|]. split; [by right|].
    repeat split; done.
Qed.

(** The whole of [main] after its input has been read. *)
Lemma run_session_full e containerInput w :
  run_shape e containerInput w (run_session e containerInput w).
Proof.
  unfold run_session.
  set (w2 := prepare_workspace e containerInput w).
  set (start := CreateOpencode (or_else (OPENCODE_MODEL (process_env e)) default_model)).
  assert (Hout2 : stdout (emit start w2) = stdout w) by done.
  assert (Hev2 : events (emit start w2) = events w ++ [start]) by done.
  assert (Hfs2 : outside_inbox (fs (emit start w2))
                 = (conversations (fs w), tmp_input_json (fs w),
                    Some (JSON_stringify_indent 0
                            (opencode_config (process_env e) containerInput
                               (module_dir e +:+ "/ipc-mcp-stdio.js"))),
                    global_AGENTS_md (fs w), global_CLAUDE_md (fs w))) by done.
  generalize dependent (emit start w2). clear w2. intros w3 Hout3 Hev3 Hfs3.
  destruct (server_start e) as [[]|m].
  2:{ apply (uncaught_shape e containerInput w w3 "" [] []); try done;
        by left. }
  destruct (open_session_full e containerInput w3)
    as (Hfs4 & Hout4 & opening & Hev4 & Hopen & Htie).
  destruct (open_session e containerInput w3) as [[sid|m] w4]; cbn [fst snd] in *.
  2:{ apply (uncaught_shape e containerInput w w4 "" opening []).
      - congruence.
      - rewrite Hev4, Hev3, <- app_assoc, app_nil_r. done.
      - done.
      - by left.
      - by left.
      - congruence. }
  specialize (Htie sid eq_refl).
  assert (Hctx : injected_context sid (fs w4) = injected_context sid (fs w)).
  { unfold injected_context, buildSystemContext. rewrite Hfs4.
    unfold outside_inbox in Hfs3. by injection Hfs3 as _ _ _ -> ->. }
  assert (Hloop : forall w5,
            fs w5 = fs w4 -> stdout w5 = stdout w4 ->
            events w5 = events w4 ++ injected_context sid (fs w) ->
            run_shape e containerInput w
              (let w6 := set_fs (host_writes (startup_writes e)) w5 in
               let '(pending, d) := drainIpcInput (fs w6) in
               let w7 := set_fs (fun _ => d) w6 in
               teardown e containerInput
                 (query_loop (turns e) sid (initial_prompt containerInput pending) [] w7))).
  { intros w5 Hfs5 Hout5 Hev5. cbv zeta.
    pose proof (drainIpcInput_outside (fs (set_fs (host_writes (startup_writes e)) w5)))
      as Hd.
    destruct (drainIpcInput (fs (set_fs (host_writes (startup_writes e)) w5)))
      as [pending d]. cbn [snd] in Hd.
    apply (teardown_shape e containerInput w sid opening).
    - cbn [set_fs stdout]. congruence.
    - cbn [set_fs events]. rewrite Hev5, Hev4, Hev3, <- !app_assoc. done.
    - done.
    - done.
    - cbn [set_fs fs] in *. rewrite Hd, host_writes_outside. congruence. }
  revert Hctx. unfold injected_context at 1.
  destruct (buildSystemContext (fs w4)) as [ctx|].
  - destruct (String.eqb ctx "").
    + intros Hctx. apply (Hloop w4); [done|done|]. by rewrite <- Hctx, app_nil_r.
    + intros Hctx. destruct (context_prompt e) as [[]|m].
      * apply (Hloop (emit (SessionPrompt sid ctx true) w4)); [done|done|].
        by rewrite <- Hctx.
      * apply (uncaught_shape e containerInput w
                 (emit (SessionPrompt sid ctx true) w4) sid opening
                 [SessionPrompt sid ctx true]).
        -- cbn. congruence.
        -- cbn. rewrite Hev4, Hev3, <- !app_assoc. done.
        -- done.
        -- by right.
        -- by right.
        -- cbn [emit fs]. congruence.
  - intros Hctx. apply (Hloop w4); [done|done|]. by rewrite <- Hctx, app_nil_r.
Qed.

End RunFacts.

Section RunLemmas.

Lemma read_input_frame stdin w :
  stdout (read_input stdin w).2 = stdout w
  /\ events (read_input stdin w).2 = events w
  /\ fs (read_input stdin w).2
     = match JSON_parse stdin with
       | Normal _ => remove_tmp_input (fs w)
       | Throw _ => fs w
       end.
Proof. unfold read_input. by destruct (JSON_parse stdin) as [[]|]. Qed.

Lemma opening_no_turns (opening : list Event) :
  is_opening opening = true -> foreground_prompts opening = [].
Proof.
  destruct opening as [|ev1 [|ev2 [|ev3 l]]]; [done|by destruct ev1|by destruct ev1, ev2|].
  by destruct ev1, ev2.
Qed.

Lemma context_no_turns sid d (context : list Event) :
  context = [] \/ context = injected_context sid d ->
  foreground_prompts context = [] /\ Forall (turn_event sid) context.
Proof.
  intros [->| ->]; [done|]. unfold injected_context.
  destruct (buildSystemContext d) as [c|]; [|done].
  destruct (String.eqb c ""); [done|]. by repeat constructor.
Qed.

Lemma output_line_parses (o : ContainerOutput) :
  has_char newline (JSON_stringify (json_of_output o)) = false
  /\ JSON_parse (JSON_stringify (json_of_output o)) = Normal (json_of_output o).
Proof.
  destruct (json_of_output_flat o) as (kvs & -> & Hne & Hflat). split.
  - by apply flat_object_no_newline.
  - by apply JSON_parse_flat_object_line.
Qed.

End RunLemmas.

(** ** One turn *)

(** X11: what a turn with a defined prompt does with the engine and the
    inbox, in a mailbox that follows its protocol.  The prompt itself comes
    first, once, as the only call that asks for a reply.  Then come the
    forwards to the same session; every forwarded text is the text, not
    empty, of a message file that was in the inbox when the turn began or
    that the host wrote before a tick; and unless the turn is closed, the
    text of every message file the host wrote before a tick is forwarded.
    Exactly when the turn reports that it was closed, the observation of the
    sentinel and one abort of the same session follow, and no message is
    taken after them. *)
Theorem runQuery_engine_calls (sid text : string) (t : Turn) (w : World) :
  typed_inbox (fs w) = true -> forallb typed_writes (ticks t) = true ->
  exists forwarded,
    events (runQuery sid (Some text) t w).2
    = events w ++ SessionPrompt sid text false
                  :: map (fun m => SessionForward sid m) forwarded
                  ++ (if (runQuery sid (Some text) t w).1
                      then [CloseObserved; SessionAbort sid] else [])
    /\ (forall m, m ∈ forwarded ->
          m <> ""
          /\ exists name content,
               is_message_name name = true /\ accepted_text content = Some m
               /\ (ipc_input (fs w) !! name = Some content
                   \/ exists hw, hw ∈ ticks t /\ (name, content) ∈ hw))
    /\ ((runQuery sid (Some text) t w).1 = false ->
        forall hw name content m,
          hw ∈ ticks t -> is_message_name name = true ->
          last_write hw name = Some content -> accepted_text content = Some m ->
          m ∈ forwarded).
Proof.
  intros _ _.
  destruct (runQuery_exact sid text t w) as (fw & Hne & Hev & Hsound & Hcomplete).
  exists fw. split; [done|]. split; [|done].
  intros m Hm. split; [|by apply Hsound].
  rewrite Forall_forall in Hne. by apply Hne.
Qed.

Lemma runQuery_engine_calls_witness :
  exists forwarded,
    events (runQuery "s1" (Some "hello") turn_with_message world0).2
    = events world0 ++ SessionPrompt "s1" "hello" false
                       :: map (fun m => SessionForward "s1" m) forwarded
                       ++ (if (runQuery "s1" (Some "hello") turn_with_message world0).1
                           then [CloseObserved; SessionAbort "s1"] else [])
    /\ (forall m, m ∈ forwarded ->
          m <> ""
          /\ exists name content,
               is_message_name name = true /\ accepted_text content = Some m
               /\ (ipc_input (fs world0) !! name = Some content
                   \/ exists hw, hw ∈ ticks turn_with_message /\ (name, content) ∈ hw))
    /\ ((runQuery "s1" (Some "hello") turn_with_message world0).1 = false ->
        forall hw name content m,
          hw ∈ ticks turn_with_message -> is_message_name name = true ->
          last_write hw name = Some content -> accepted_text content = Some m ->
          m ∈ forwarded).
Proof.
  apply (runQuery_engine_calls "s1" "hello" turn_with_message world0).
  - vm_compute. reflexivity.
  - vm_compute. reflexivity.
Defined.

(** X12: a turn writes at most one envelope, which carries the session
    identifier; it writes none exactly when the prompt is defined and the
    call settles with neither data nor a truthy error; and it changes no file
    outside the inbox. *)
Theorem runQuery_reports_at_most_once (sid : string) (prompt : option string)
    (t : Turn) (w : World) :
  exists os,
    stdout (runQuery sid prompt t w).2 = stdout w ++ concat (map output_lines os)
    /\ Forall (fun o => newSessionId o = Some sid) os
    /\ length os = match prompt with
                   | Some _ => if silent_reply (reply t) then 0 else 1
                   | None => 1
                   end
    /\ outside_inbox (fs (runQuery sid prompt t w).2) = outside_inbox (fs w).
Proof.
  destruct (runQuery_full sid prompt t w) as (os & new & Hout & Hsid & Hlen & _).
  exists os. repeat split; try done. apply runQuery_outside.
Qed.

(** ** The output frame *)

(** X13: [writeOutput] appends exactly three lines, the start marker, one
    line of JSON and the end marker, and touches neither the files nor the
    engine.  The JSON line holds no line feed, whatever the texts of the
    envelope are, is neither of the markers, and [JSON.parse] reads it back
    as the object that was written. *)
Theorem writeOutput_frame (o : ContainerOutput) (w : World) :
  fs (writeOutput o w) = fs w
  /\ events (writeOutput o w) = events w
  /\ exists line,
       stdout (writeOutput o w)
       = stdout w ++ [OUTPUT_START_MARKER; line; OUTPUT_END_MARKER]
       /\ has_char newline line = false
       /\ line <> OUTPUT_START_MARKER /\ line <> OUTPUT_END_MARKER
       /\ JSON_parse line = Normal (json_of_output o).
Proof.
  split; [done|]. split; [done|].
  exists (JSON_stringify (json_of_output o)).
  destruct (output_line_parses o) as [Hnl Hparse].
  split; [done|]. split; [done|]. split; [|split; [|done]];
    unfold json_of_output; cbn [JSON_stringify]; discriminate.
Qed.

(** ** The run *)



(** X15: when a run whose input was read ends with status 1, it has written
    no envelope and no transcript, has submitted no turn and has not released
    the engine: after starting the engine it made at most the calls that open
    the session and the injection of the context. *)
Theorem uncaught_failure_is_silent (e : Env) (containerInput : json) (w : World) :
  exit (run_session e containerInput w) = Exited 1 ->
  stdout (final (run_session e containerInput w)) = stdout w
  /\ archived (run_session e containerInput w) = None
  /\ conversations (fs (final (run_session e containerInput w))) = conversations (fs w)
  /\ exists (sid : string) (opening context : list Event),
       events (final (run_session e containerInput w))
       = events w
         ++ CreateOpencode (or_else (OPENCODE_MODEL (process_env e)) default_model)
            :: opening ++ context
       /\ is_opening opening = true
       /\ (context = [] \/ context = injected_context sid (fs w)).
Proof.
  intros Hexit.
  destruct (run_session_full e containerInput w)
    as (sid & os & opening & context & tev & Hout & _ & Hev & Hopen & Hctx & _ & _ & Hone
        & _ & _ & Harch & _ & Hfs).
  destruct (Hone Hexit) as [-> ->].
  assert (Hnone : archived (run_session e containerInput w) = None).
  { destruct (archived (run_session e containerInput w)) as [msgs|]; [|done].
    destruct (Harch msgs eq_refl) as [H0 _]. congruence. }
  rewrite Hnone in Hfs. unfold outside_inbox in Hfs. injection Hfs as Hc _ _ _ _.
  split; [by rewrite Hout, app_nil_r|]. split; [done|]. split; [done|].
  exists sid, opening, context. split; [|done].
  rewrite Hev. unfold released. rewrite Hexit. by rewrite !app_nil_r.
Qed.

Lemma uncaught_failure_is_silent_witness :
  stdout (final (run_session env_create_fails (JObject [("prompt", JString "hello")]) world0))
  = stdout world0.
Proof.
  apply (uncaught_failure_is_silent env_create_fails (JObject [("prompt", JString "hello")])
           world0).
  vm_compute. reflexivity.
Defined.

(** X16: in a mailbox that follows its protocol (the text of a message file
    is a string), the process exits with status 0 only after a close sentinel
    has been observed, and the engine is released after that observation. *)
Theorem normal_exit_follows_close (stdin : string) (e : Env) (w : World) :
  typed_inbox (fs w) = true -> typed_env e = true ->
  exit (main stdin e w) = Exited 0 ->
  exists before after,
    events (final (main stdin e w)) = events w ++ before ++ ServerClose :: after
    /\ CloseObserved ∈ before.
Proof.
  intros _ _.
  unfold main. pose proof (read_input_frame stdin w) as (_ & He & _).
  destruct (read_input stdin w) as [[containerInput|m] w1]; cbn [snd] in He; [|done].
  intros Hexit.
  destruct (run_session_full e containerInput w1)
    as (sid & os & opening & context & tev & _ & _ & Hev & _ & _ & _ & _ & _ & _ & Hclose & _).
  eexists (_ :: opening ++ context ++ tev), []. split.
  - rewrite Hev, He. unfold released. rewrite Hexit.
    by rewrite <- !app_comm_cons, <- !app_assoc.
  - rewrite elem_of_cons, !elem_of_app. right. right. right. by apply Hclose.
Qed.

Lemma normal_exit_follows_close_witness :
  exists before after,
    events (final (main hello_input env_reply_then_close world0))
    = events world0 ++ before ++ ServerClose :: after
    /\ CloseObserved ∈ before.
Proof.
  apply (normal_exit_follows_close hello_input env_reply_then_close world0).
  - vm_compute. reflexivity.
  - vm_compute. reflexivity.
  - vm_compute. reflexivity.
Defined.

(** X17: the record handed to the archiver lists exactly the prompts the run
    submitted as turns, in the order of submission: an entry whose content is
    defined stands for one foreground call to the engine, and every
    foreground call has its entry. *)
Theorem archive_lists_submitted_prompts (stdin : string) (e : Env) (w : World)
    (msgs : list ParsedMessage) :
  archived (main stdin e w) = Some msgs ->
  exists new,
    events (final (main stdin e w)) = events w ++ new
    /\ foreground_prompts new = omap content msgs.
Proof.
  unfold main. pose proof (read_input_frame stdin w) as (_ & He & _).
  destruct (read_input stdin w) as [[containerInput|m] w1]; cbn [snd] in He; [|done].
  intros Harch.
  destruct (run_session_full e containerInput w1)
    as (sid & os & opening & context & tev & _ & _ & Hev & Hopen & Hctx & _ & _ & _ & _ & _
        & Hrec & _).
  destruct (Hrec msgs Harch) as [Hexit Hfg].
  destruct (context_no_turns sid (fs w1) context Hctx) as [Hc _].
  eexists. split; [by rewrite Hev, He|].
  change (?x :: opening ++ ?l) with ([x] ++ opening ++ l).
  rewrite !foreground_prompts_app, (opening_no_turns opening Hopen), Hc, Hfg.
  unfold released. rewrite Hexit. cbn. by rewrite app_nil_r.
Qed.

Lemma archive_lists_submitted_prompts_witness :
  exists new,
    events (final (main hello_input env_reply_then_close world0)) = events world0 ++ new
    /\ foreground_prompts new = omap content [{| role := user; content := Some "hello" |}].
Proof.
  apply (archive_lists_submitted_prompts hello_input env_reply_then_close world0).
  vm_compute. reflexivity.
Defined.

(** X18: the files a whole run leaves.  The two global context files are
    never written.  The temporary copy of the input is removed exactly when
    the input is valid JSON.  The configuration file is written exactly when
    the input was read.  The conversations directory changes only through
    the one call of [archiveConversation] that ends a run, with the fallback
    name. *)
Theorem main_files (stdin : string) (e : Env) (w : World) :
  global_AGENTS_md (fs (final (main stdin e w))) = global_AGENTS_md (fs w)
  /\ global_CLAUDE_md (fs (final (main stdin e w))) = global_CLAUDE_md (fs w)
  /\ tmp_input_json (fs (final (main stdin e w)))
     = match JSON_parse stdin with
       | Normal _ => None
       | Throw _ => tmp_input_json (fs w)
       end
  /\ opencode_json (fs (final (main stdin e w)))
     = match (read_input stdin w).1 with
       | Normal containerInput =>
           Some (JSON_stringify_indent 0
                   (opencode_config (process_env e) containerInput
                      (module_dir e +:+ "/ipc-mcp-stdio.js")))
       | Throw _ => opencode_json (fs w)
       end
  /\ match archived (main stdin e w) with
     | Some msgs =>
         exists assistantName,
           conversations (fs (final (main stdin e w)))
           = conversations
               (archiveConversation (archive_time e) msgs assistantName None (fs w))
     | None => conversations (fs (final (main stdin e w))) = conversations (fs w)
     end.
Proof.
  unfold main. pose proof (read_input_frame stdin w) as (_ & _ & Hfs).
  destruct (read_input stdin w) as [[containerInput|m] w1] eqn:Hread; cbn [fst snd] in *.
  - destruct (run_session_full e containerInput w1)
      as (sid & os & opening & context & tev & _ & _ & _ & _ & _ & _ & _ & _ & _ & _ & _ & _
          & Hout).
    unfold outside_inbox in Hout. injection Hout as Hc Ht Ho Ha Hg.
    assert (Hparse : exists v, JSON_parse stdin = Normal v).
    { unfold read_input in Hread. destruct (JSON_parse stdin) as [v|]; [by exists v|done]. }
    destruct Hparse as [v Hv]. rewrite Hv in *. rewrite Hfs in *.
    rewrite Ha, Hg, Ht, Ho. repeat split.
    destruct (archived (run_session e containerInput w1)) as [msgs|]; [|done].
    exists (field_string containerInput "assistantName"). rewrite Hc.
    by apply archiveConversation_conversations.
  - cbn [final writeOutput fs archived]. rewrite Hfs.
    unfold read_input in Hread. destruct (JSON_parse stdin) as [[]|]; try done.
Qed.



Lemma record_holds_only_user_turns_witness :
  Forall (fun m => role m = user) [{| role := user; content := Some "hello" |}].
Proof.
  apply (record_holds_only_user_turns hello_input env_reply_then_close world0).
  vm_compute. reflexivity.
Defined.
